(** * Rezoomex MCP server: sessions, authorization codes and tool dispatch

    A shallow embedding of the session registry ([src/lib/auth-manager.js]),
    the tool catalogue with its argument validation and dispatcher
    ([src/lib/mcp-tools.js]), the endpoints of the in-band server
    ([POST /sse], [POST /mcp], [POST /mcp/execute/:toolName] and the
    [/auth] endpoints), the stdio server, and the endpoints of the two
    OAuth2 servers ([POST /register], [GET /authorize],
    [POST /authenticate], [GET /callback], [POST /token] and
    [POST /v1/sse]), followed by the properties established about them.

    Conventions.  [Date.now()] is an explicit [now : Z] in milliseconds.
    [Math.random().toString(36)] and [uuidv4()] are explicit string
    arguments.  Everything the repository does not define (the upstream
    HTTP API, the URL library and the ECMAScript coercions of arbitrary
    values to numbers and strings) is a field of the record [world],
    passed to every operation that consults it.  Logging is left out.

    A value that a client sends is any value that [JSON.parse] can
    return, and a conversion of such a value throws a [TypeError] where
    ECMAScript makes it throw ([unprintable]).  The bodies that the
    upstream API answers with are taken to hold values that convert
    without throwing.  A timer runs with the delay that Node gives it
    ([timer_delay]). *)

From Stdlib Require Import ZArith QArith String List Lia.
From stdpp Require Import gmap strings list pretty.

Set Warnings "-register-all".

Open Scope string_scope.
Open Scope Z_scope.
Open Scope list_scope.

(** ** JavaScript values *)

Module Js.

(** A JavaScript number: a finite value, [NaN] or an infinity. *)
Inductive jsnum :=
| NFin (q : Q)
| NNaN
| NPosInf
| NNegInf.

Inductive jsval :=
| JUndefined
| JNull
| JBool (b : bool)
| JNum (n : jsnum)
| JStr (s : string)
| JArr (items : list jsval)
| JObj (fields : list (string * jsval)).

Definition JInt (z : Z) : jsval := JNum (NFin (inject_Z z)).

(** What a [throw] carries: [new Error(message)], a [TypeError] raised by
    the engine, or the error of a failed axios request with its [message],
    its [code] and the response (status and body) when one was received. *)
Inductive exn :=
| Error (message : string)
| TypeError
| AxiosError (message : string) (code : string) (response : option (Z * jsval)).

(** The outcome of evaluating code that may [throw]. *)
Inductive completion (A : Type) :=
| Return (a : A)
| Throw (e : exn).
Arguments Return {A} a.
Arguments Throw {A} e.

Definition bind {A B} (c : completion A) (k : A -> completion B) : completion B :=
  match c with
  | Return a => k a
  | Throw e => Throw e
  end.

(** [error.message]; the text of an engine [TypeError] is not modelled. *)
Definition message_of (e : exn) : string :=
  match e with
  | Error m => m
  | TypeError => "TypeError"
  | AxiosError m _ _ => m
  end.

(** Own-property lookup in an object literal (first binding wins; the
    objects built by [JSON.parse] have no duplicate keys). *)
Fixpoint assoc {A} (k : string) (l : list (string * A)) : option A :=
  match l with
  | [] => None
  | (k', v) :: l' => if String.eqb k' k then Some v else assoc k l'
  end.

Definition Qltb (x y : Q) : bool :=
  Qnum x * Zpos (Qden y) <? Qnum y * Zpos (Qden x).

Definition Qis_zero (x : Q) : bool := Qnum x =? 0.

(** [a < b] on numbers; a comparison involving [NaN] is false. *)
Definition jsnum_lt (a b : jsnum) : bool :=
  match a, b with
  | NNaN, _ => false
  | _, NNaN => false
  | NFin x, NFin y => Qltb x y
  | NFin _, NPosInf => true
  | NFin _, NNegInf => false
  | NPosInf, _ => false
  | NNegInf, NNegInf => false
  | NNegInf, _ => true
  end.

Definition truthy (v : jsval) : bool :=
  match v with
  | JUndefined | JNull => false
  | JBool b => b
  | JNum (NFin q) => negb (Qis_zero q)
  | JNum NNaN => false
  | JNum _ => true
  | JStr s => negb (String.eqb s EmptyString)
  | JArr _ | JObj _ => true
  end.

Definition is_nullish (v : jsval) : bool :=
  match v with
  | JUndefined | JNull => true
  | _ => false
  end.

Definition is_string (v : jsval) : bool :=
  match v with
  | JStr _ => true
  | _ => false
  end.

(** [Number.isInteger(v)]. *)
Definition Number_isInteger (v : jsval) : bool :=
  match v with
  | JNum (NFin q) => Z.rem (Qnum q) (Zpos (Qden q)) =? 0
  | _ => false
  end.

(** [k in v] for a key [k] that is neither an array index, nor ["length"],
    nor a property inherited from [Object.prototype] or [Array.prototype]
    (the case for every field name of the tool catalogue): an own-property
    test on objects, false on arrays, a [TypeError] on primitives. *)
Definition js_in (k : string) (v : jsval) : completion bool :=
  match v with
  | JObj fields => Return (bool_decide (is_Some (assoc k fields)))
  | JArr _ => Return false
  | _ => Throw TypeError
  end.

(** [v[k]] / [v.k] for such a key: a [TypeError] on [undefined] and
    [null], [undefined] on other values that lack the property. *)
Definition js_get (v : jsval) (k : string) : completion jsval :=
  match v with
  | JUndefined | JNull => Throw TypeError
  | JObj fields => Return (default JUndefined (assoc k fields))
  | _ => Return JUndefined
  end.

(** [v[k]] where [k in v] has already been evaluated without throwing. *)
Definition js_index (v : jsval) (k : string) : jsval :=
  match v with
  | JObj fields => default JUndefined (assoc k fields)
  | _ => JUndefined
  end.

(** [v?.k]. *)
Definition js_get_opt (v : jsval) (k : string) : jsval :=
  if is_nullish v then JUndefined else js_index v k.

(** A text between double quotes. *)
Definition quoted (s : string) : string :=
  String (Ascii.ascii_of_nat 34) (s +:+ String (Ascii.ascii_of_nat 34) EmptyString).

(** [a || b]. *)
Definition js_or (a b : jsval) : jsval := if truthy a then a else b.

End Js.
Export Js.

Notation "x <- c1 ;; c2" := (Js.bind c1 (fun x => c2))
  (at level 20, c1 at level 99, c2 at level 200, right associativity,
   format "'[v' x  <-  c1  ;;  '/' c2 ']'").

(** ** The world outside the repository *)

(** One invocation of an operation on an upstream API handle; [via] is the
    bearer credential the handle was built from. *)
Record call := {
  via : string;
  operation : string;
  inputs : list jsval
}.

Record world := {
  (** ECMAScript [ToNumber] on strings, arrays and objects. *)
  ToNumberOf : jsval -> jsnum;
  (** ECMAScript [ToString] on values that are not strings. *)
  ToStringOf : jsval -> string;
  (** [new URL(redirect_uri, BASE_URI).searchParams.get('session')]; the
      first argument is [None] for [undefined]. *)
  url_session_param : option string -> string -> completion (option string);
  (** [URLSearchParams.prototype.toString] on the given pairs. *)
  form_urlencode : list (string * string) -> string;
  (** [POST /v1/users/auth0/token] with the submitted email and password:
      the response body, or a failed request. *)
  login_api : jsval -> jsval -> completion jsval;
  (** [GET /v1/users/me] with a bearer credential: status and body, or a
      failed request. *)
  me_api : string -> completion (Z * jsval);
  (** The result of an operation of the upstream API handle. *)
  api_call : string -> string -> list jsval -> completion jsval;
  (** Auth0's code exchange ([POST /oauth/token]): the response body, or a
      failed request. *)
  auth0_exchange : string -> option string -> completion jsval
}.

(** Whether the conversion of a value to a primitive throws.  A value
    parsed from JSON holds no function.  Its conversion calls [valueOf]
    and [toString]: an object inherits both, and fails exactly when it
    has a member of its own named [toString], which shadows the inherited
    method with something that cannot be called (the inherited [valueOf]
    returns the object itself, and a member named [valueOf] is skipped);
    an array renders its elements, and fails when one of them does. *)
Fixpoint unprintable (v : jsval) : bool :=
  match v with
  | JObj fields => bool_decide (is_Some (assoc "toString" fields))
  | JArr items => existsb unprintable items
  | _ => false
  end.

(** The text of a value whose conversion does not throw. *)
Definition js_to_string (w : world) (v : jsval) : string :=
  match v with
  | JStr s => s
  | _ => ToStringOf w v
  end.

(** [`${v}`], [String(v)] and the conversion of an argument that a
    built-in function takes as a string. *)
Definition ToString (w : world) (v : jsval) : completion string :=
  if unprintable v then Throw TypeError else Return (js_to_string w v).

Definition ToNumber (w : world) (v : jsval) : completion jsnum :=
  match v with
  | JUndefined => Return NNaN
  | JNull => Return (NFin 0)
  | JBool b => Return (NFin (if b then 1 else 0))
  | JNum n => Return n
  | _ => if unprintable v then Throw TypeError else Return (ToNumberOf w v)
  end.

(** [v < m] and [v > m] for a numeric bound [m] of a schema. *)
Definition js_lt_bound (w : world) (v : jsval) (m : Z) : completion bool :=
  n <- ToNumber w v ;;
  Return (jsnum_lt n (NFin (inject_Z m))).

Definition js_gt_bound (w : world) (v : jsval) (m : Z) : completion bool :=
  n <- ToNumber w v ;;
  Return (jsnum_lt (NFin (inject_Z m)) n).

(** [params.append('username', email); params.append('password',
    password)] followed by the [POST] of [params]: [append] converts both
    values to strings before anything is sent. *)
Definition login_request (w : world) (email password : jsval) : completion jsval :=
  if unprintable email || unprintable password then Throw TypeError
  else login_api w email password.

(** Code that invokes upstream operations: the calls made, in order, and
    the outcome. *)
Definition upstream (A : Type) : Type := list call * completion A.

Definition uret {A} (a : A) : upstream A := ([], Return a).
Definition uthrow {A} (e : exn) : upstream A := ([], Throw e).
Definition ulift {A} (c : completion A) : upstream A := ([], c).

Definition ubind {A B} (m : upstream A) (k : A -> upstream B) : upstream B :=
  match m with
  | (t1, Return a) => let '(t2, r) := k a in (t1 ++ t2, r)
  | (t1, Throw e) => (t1, Throw e)
  end.

Notation "x <~ c1 ;; c2" := (ubind c1 (fun x => c2))
  (at level 20, c1 at level 99, c2 at level 200, right associativity,
   format "'[v' x  <~  c1  ;;  '/' c2 ']'").

(** ** The upstream API handle ([src/lib/rezoomex-client.js]) *)

Module RezoomexApiClient.

Record t := {
  bearerToken : string;
  authenticated : bool;
  userInfo : jsval
}.

(** [new RezoomexApiClient(bearerToken, logger)]. *)
Definition new (bearerToken : string) : t :=
  {| bearerToken := bearerToken; authenticated := false; userInfo := JNull |}.

(** [validateSession()]: the answer and the handle as the call leaves it.
    The method catches every failure of the request itself. *)
Definition validateSession (w : world) (c : t) : bool * t :=
  match me_api w (bearerToken c) with
  | Return (status, data) =>
      if status =? 200
      then (true, {| bearerToken := bearerToken c; authenticated := true; userInfo := data |})
      else (false, c)
  | Throw _ =>
      (false, {| bearerToken := bearerToken c; authenticated := false; userInfo := userInfo c |})
  end.

(** A data operation of the handle, recorded with the handle's credential. *)
Definition invoke (w : world) (c : t) (op : string) (args : list jsval) : upstream jsval :=
  ([{| via := bearerToken c; operation := op; inputs := args |}],
   api_call w (bearerToken c) op args).

End RezoomexApiClient.

(** ** The session registry ([src/lib/auth-manager.js]) *)

Module AuthManager.

Abbreviation client := RezoomexApiClient.t.

(** The value stored in [this.sessions]: [{ createdAt: Date.now() }]. *)
Record session := { createdAt : Z }.

(** The value stored in [this.tempTokens]. *)
Record tempToken := { token : string; tokenCreatedAt : Z }.

Record t := {
  sessions : gmap string session;
  clients : gmap string client;
  tempTokens : gmap string tempToken;
  sessionTimeout : Z;
  tempTokenTimeout : Z
}.

(** [parseInt(process.env.X) || fallback]: the variable may be unset or
    unparsable ([None]), and a parsed [0] is falsy. *)
Definition env_or (parsed : option Z) (fallback : Z) : Z :=
  match parsed with
  | Some z => if z =? 0 then fallback else z
  | None => fallback
  end.

(** The constructor; the two [setInterval] sweeps it schedules are the
    operations [cleanupExpiredSessions] and [cleanupExpiredTempTokens]
    below, run by the environment. *)
Definition new (SESSION_TIMEOUT TEMP_TOKEN_TIMEOUT : option Z) : t :=
  {| sessions := ∅;
     clients := ∅;
     tempTokens := ∅;
     sessionTimeout := env_or SESSION_TIMEOUT 86400000;
     tempTokenTimeout := env_or TEMP_TOKEN_TIMEOUT 300000 |}.

Definition set_sessions (f : gmap string session -> gmap string session) (am : t) : t :=
  {| sessions := f (sessions am);
     clients := clients am;
     tempTokens := tempTokens am;
     sessionTimeout := sessionTimeout am;
     tempTokenTimeout := tempTokenTimeout am |}.

Definition set_clients (f : gmap string client -> gmap string client) (am : t) : t :=
  {| sessions := sessions am;
     clients := f (clients am);
     tempTokens := tempTokens am;
     sessionTimeout := sessionTimeout am;
     tempTokenTimeout := tempTokenTimeout am |}.

Definition set_tempTokens (f : gmap string tempToken -> gmap string tempToken) (am : t) : t :=
  {| sessions := sessions am;
     clients := clients am;
     tempTokens := f (tempTokens am);
     sessionTimeout := sessionTimeout am;
     tempTokenTimeout := tempTokenTimeout am |}.

(** [authenticateWithToken(bearerToken, sessionId)]: the handle or [null],
    and the registry afterwards.  Nothing inside the [try] block throws:
    [validateSession] catches the failures of its request. *)
Definition authenticateWithToken (w : world) (now : Z) (bearerToken sessionId : string)
    (am : t) : option client * t :=
  let client := RezoomexApiClient.new bearerToken in
  let '(isValid, client) := RezoomexApiClient.validateSession w client in
  if isValid
  then (Some client,
        set_sessions <[sessionId := {| createdAt := now |}]>
          (set_clients <[sessionId := client]> am))
  else (None, am).

(** [getClient(sessionId)]; a missing header is [None], and the empty
    string is as falsy as [undefined]. *)
Definition getClient (now : Z) (sessionId : option string) (am : t) : option client * t :=
  match sessionId with
  | None => (None, am)
  | Some sid =>
      if String.eqb sid EmptyString then (None, am)
      else match clients am !! sid with
           | None => (None, am)
           | Some client =>
               (Some client, set_sessions <[sid := {| createdAt := now |}]> am)
           end
  end.

(** [clearSession(sessionId)]; the two [has] guards only avoid deleting an
    absent key. *)
Definition clearSession (sessionId : string) (am : t) : t :=
  set_sessions (delete sessionId) (set_clients (delete sessionId) am).

Definition expired (now : Z) (timeout : Z) (s : session) : bool :=
  now - createdAt s >? timeout.

(** [cleanupExpiredSessions()]: one pass over the entries of [sessions]. *)
Definition cleanupExpiredSessions (now : Z) (am : t) : t :=
  foldl (fun am '(sessionId, s) =>
           if expired now (sessionTimeout am) s
           then set_clients (delete sessionId) (set_sessions (delete sessionId) am)
           else am)
        am (map_to_list (sessions am)).

(** One iteration of the loop of [validateAllSessions].  [validateSession]
    updates the handle in place, so the stored handle changes with it; the
    [catch] branch is the same as the branch for an invalid handle. *)
Definition validateOne (w : world) (acc : list (string * bool) * t)
    (entry : string * client) : list (string * bool) * t :=
  let '(results, am) := acc in
  let '(sessionId, client) := entry in
  let '(isValid, client) := RezoomexApiClient.validateSession w client in
  let am := set_clients (alter (fun _ => client) sessionId) am in
  if isValid
  then (results ++ [(sessionId, true)], am)
  else (results ++ [(sessionId, false)], clearSession sessionId am).

(** [validateAllSessions()] run without interleaving, over the snapshot
    [Array.from(this.clients.entries())]. *)
Definition validateAllSessions (w : world) (am : t) : list (string * bool) * t :=
  foldl (validateOne w) ([], am) (map_to_list (clients am)).

(** [cleanup()]. *)
Definition cleanup (am : t) : t :=
  set_tempTokens (fun _ => ∅) (set_sessions (fun _ => ∅) (set_clients (fun _ => ∅) am)).

(** [storeTempToken(tokenId, bearerToken)]. *)
Definition storeTempToken (now : Z) (tokenId bearerToken : string) (am : t) : t :=
  set_tempTokens <[tokenId := {| token := bearerToken; tokenCreatedAt := now |}]> am.

(** [getTempToken(tokenId)]: the read itself checks the age of the entry. *)
Definition getTempToken (now : Z) (tokenId : string) (am : t) : option string * t :=
  match tempTokens am !! tokenId with
  | None => (None, am)
  | Some tokenData =>
      if now - tokenCreatedAt tokenData >? tempTokenTimeout am
      then (None, set_tempTokens (delete tokenId) am)
      else (Some (token tokenData), am)
  end.

(** [cleanupExpiredTempTokens()]: one pass over the entries of
    [tempTokens]. *)
Definition cleanupExpiredTempTokens (now : Z) (am : t) : t :=
  foldl (fun am '(tokenId, tokenData) =>
           if now - tokenCreatedAt tokenData >? tempTokenTimeout am
           then set_tempTokens (delete tokenId) am
           else am)
        am (map_to_list (tempTokens am)).

(** [removeTempToken(tokenId)]: whether an entry was removed. *)
Definition removeTempToken (tokenId : string) (am : t) : bool * t :=
  (bool_decide (is_Some (tempTokens am !! tokenId)),
   set_tempTokens (delete tokenId) am).

(** [getAllSessions()]: the keys of [clients].  The source lists them in
    insertion order, which the finite map does not keep. *)
Definition getAllSessions (am : t) : list string := (map_to_list (clients am)).*1.

(** [getSessionCount()] and [getTempTokenCount()]. *)
Definition getSessionCount (am : t) : nat := size (sessions am).
Definition getTempTokenCount (am : t) : nat := size (tempTokens am).

(** The operations that touch [sessions] and [clients]. *)
Inductive op :=
| AuthenticateWithToken (w : world) (now : Z) (bearerToken sessionId : string)
| GetClient (now : Z) (sessionId : option string)
| ClearSession (sessionId : string)
| CleanupExpiredSessions (now : Z)
| ValidateAllSessions (w : world)
| Cleanup.

Definition step (am : t) (o : op) : t :=
  match o with
  | AuthenticateWithToken w now bearerToken sessionId =>
      snd (authenticateWithToken w now bearerToken sessionId am)
  | GetClient now sessionId => snd (getClient now sessionId am)
  | ClearSession sessionId => clearSession sessionId am
  | CleanupExpiredSessions now => cleanupExpiredSessions now am
  | ValidateAllSessions w => snd (validateAllSessions w am)
  | Cleanup => cleanup am
  end.

Definition run (ops : list op) (am : t) : t := foldl step am ops.

End AuthManager.

(** ** The tool catalogue and its dispatcher ([src/lib/mcp-tools.js]) *)

Module MCPTools.

(** The schema of one field.  The [description] strings of tools and of
    fields are documentation that no operation reads; they are left out. *)
Record fieldSchema := {
  type : string;
  minimum : option Z;
  maximum : option Z
}.

Record schema := {
  properties : list (string * fieldSchema);
  required : list string
}.

Record tool := {
  name : string;
  inputSchema : schema
}.

Definition str : fieldSchema :=
  {| type := "string"; minimum := None; maximum := None |}.

Definition int_min (m : Z) : fieldSchema :=
  {| type := "integer"; minimum := Some m; maximum := None |}.

Definition mk (name : string) (properties : list (string * fieldSchema))
    (required : list string) : tool :=
  {| name := name;
     inputSchema := {| properties := properties; required := required |} |}.

(** The array literal of [initializeTools], in source order. *)
Definition toolDefinitions : list tool := [
  mk "authenticate"
     [("email", str); ("password", str)]
     ["email"; "password"];
  mk "list_user_stories"
     [("project_id", str); ("persona_id", str)]
     ["project_id"; "persona_id"];
  mk "get_story_range"
     [("start_number", int_min 1); ("end_number", int_min 1);
      ("project_id", str); ("persona_id", str)]
     ["start_number"; "end_number"; "project_id"; "persona_id"];
  mk "get_single_story_details"
     [("story_number", int_min 1); ("story_id", str);
      ("project_id", str); ("persona_id", str)]
     ["project_id"; "persona_id"];
  mk "get_project_overview" [("project_id", str)] ["project_id"];
  mk "get_persona_profile"
     [("project_id", str); ("persona_id", str)]
     ["project_id"; "persona_id"];
  mk "get_user_journey"
     [("project_id", str); ("persona_id", str)]
     ["project_id"; "persona_id"];
  mk "get_jobs_to_be_done"
     [("project_id", str); ("persona_id", str)]
     ["project_id"; "persona_id"];
  mk "get_user_info" [] [];
  mk "get_project_environment" [("project_id", str)] ["project_id"];
  mk "check_nda_status" [] [];
  mk "get_product_info" [("project_id", str)] ["project_id"];
  mk "list_projects" [] [];
  mk "find_project_by_name" [("project_name", str)] ["project_name"];
  mk "find_persona_by_name"
     [("project_id", str); ("persona_name", str)]
     ["project_id"; "persona_name"];
  mk "get_user_stories_by_name"
     [("project_name", str); ("persona_name", str)]
     ["project_name"; "persona_name"];
  mk "get_persona_by_name"
     [("project_name", str); ("persona_name", str)]
     ["project_name"; "persona_name"];
  mk "get_project_by_name" [("project_name", str)] ["project_name"];
  mk "mcp0_getUserInfo" [] [];
  mk "mcp0_fetchPersona"
     [("projectId", str); ("personaId", str)]
     ["projectId"; "personaId"];
  mk "mcp0_fetchElevatorPitch" [("projectId", str)] ["projectId"];
  mk "mcp0_fetchVisionStatement" [("projectId", str)] ["projectId"];
  mk "mcp0_fetchProductInfo" [("projectId", str)] ["projectId"];
  mk "mcp0_fetchProjectEnvironment" [("projectId", str)] ["projectId"];
  mk "mcp0_checkNdaStatus" [] []
].

(** A JavaScript [Map] keeps its entries in insertion order; [set] on a key
    already present replaces the value where it stands. *)
Fixpoint Map_set {V} (k : string) (v : V) (m : list (string * V)) : list (string * V) :=
  match m with
  | [] => [(k, v)]
  | (k', v') :: m' =>
      if String.eqb k' k then (k, v) :: m' else (k', v') :: Map_set k v m'
  end.

(** [this.tools] after the constructor has run [initializeTools]. *)
Definition tools : list (string * tool) :=
  foldl (fun m tool => Map_set (name tool) tool m) [] toolDefinitions.

Definition getToolDefinitions : list tool := map snd tools.

Definition getTool (name : string) : option tool := assoc name tools.

Definition hasTools (name : string) : bool := bool_decide (is_Some (assoc name tools)).

Fixpoint join (sep : string) (l : list string) : string :=
  match l with
  | [] => EmptyString
  | [x] => x
  | x :: rest => x +:+ sep +:+ join sep rest
  end.

(** The first loop of [validateToolInput]: the required fields. *)
Fixpoint check_required (required : list string) (input : jsval) (errors : list string)
    : completion (list string) :=
  match required with
  | [] => Return errors
  | requiredField :: rest =>
      present <- js_in requiredField input ;;
      let value := js_index input requiredField in
      if negb present || is_nullish value
      then check_required rest input (errors ++ ["Missing required field: " +:+ requiredField])
      else check_required rest input errors
  end.

(** The body of the second loop for one declared field, statement by
    statement: the type of the value, then its two bounds. *)
Definition check_type (fieldName : string) (fieldSchema : fieldSchema)
    (value : jsval) (errors : list string) : list string :=
  if String.eqb (type fieldSchema) "integer" && negb (Number_isInteger value)
  then errors ++ ["Field " +:+ fieldName +:+ " must be an integer"]
  else if String.eqb (type fieldSchema) "string" && negb (is_string value)
  then errors ++ ["Field " +:+ fieldName +:+ " must be a string"]
  else errors.

(** The comparison is evaluated whatever the type test found, and throws
    when the value cannot be converted to a number. *)
Definition check_minimum (w : world) (fieldName : string) (fieldSchema : fieldSchema)
    (value : jsval) (errors : list string) : completion (list string) :=
  match minimum fieldSchema with
  | Some m =>
      below <- js_lt_bound w value m ;;
      Return (if below : bool
              then errors ++ ["Field " +:+ fieldName +:+ " must be at least " +:+ pretty m]
              else errors)
  | None => Return errors
  end.

Definition check_maximum (w : world) (fieldName : string) (fieldSchema : fieldSchema)
    (value : jsval) (errors : list string) : completion (list string) :=
  match maximum fieldSchema with
  | Some m =>
      above <- js_gt_bound w value m ;;
      Return (if above : bool
              then errors ++ ["Field " +:+ fieldName +:+ " must be at most " +:+ pretty m]
              else errors)
  | None => Return errors
  end.

Definition check_field (w : world) (fieldName : string) (fieldSchema : fieldSchema)
    (value : jsval) (errors : list string) : completion (list string) :=
  errors <- check_minimum w fieldName fieldSchema value
              (check_type fieldName fieldSchema value errors) ;;
  check_maximum w fieldName fieldSchema value errors.

(** The second loop: types and bounds of the fields that are present. *)
Fixpoint check_properties (w : world) (properties : list (string * fieldSchema))
    (input : jsval) (errors : list string) : completion (list string) :=
  match properties with
  | [] => Return errors
  | (fieldName, fieldSchema) :: rest =>
      present <- js_in fieldName input ;;
      if present
      then
        errors <- check_field w fieldName fieldSchema (js_index input fieldName) errors ;;
        check_properties w rest input errors
      else check_properties w rest input errors
  end.

(** The list [errors] as [validateToolInput] has it before its last test. *)
Definition validation_errors (w : world) (s : schema) (input : jsval)
    : completion (list string) :=
  errors <- (if (0 <? length (required s))%nat
             then check_required (required s) input []
             else Return []) ;;
  check_properties w (properties s) input errors.

(** [validateToolInput(toolName, input)]. *)
Definition validateToolInput (w : world) (toolName : string) (input : jsval)
    : completion bool :=
  match getTool toolName with
  | None => Throw (Error ("Unknown tool: " +:+ toolName))
  | Some tool =>
      errors <- validation_errors w (inputSchema tool) input ;;
      if (0 <? length errors)%nat
      then Throw (Error ("Validation errors: " +:+ join ", " errors))
      else Return true
  end.

(** [args.k] inside the [switch] of [callTool]. *)
Definition arg (args : jsval) (k : string) : upstream jsval := ulift (js_get args k).

(** [overview.overview?.field || fallback], wrapped as [{ result: ... }]. *)
Definition overview_field (overview : jsval) (field fallback : string) : upstream jsval :=
  inner <~ ulift (js_get overview "overview") ;;
  uret (JObj [("result", js_or (js_get_opt inner field) (JStr fallback))]).

(** The [switch] of [callTool]. *)
Definition dispatch (w : world) (client : RezoomexApiClient.t) (toolName : string)
    (args : jsval) : upstream jsval :=
  let call := RezoomexApiClient.invoke w client in
  if String.eqb toolName "list_user_stories" then
    a <~ arg args "project_id" ;; b <~ arg args "persona_id" ;;
    call "getUserStories" [a; b]
  else if String.eqb toolName "get_story_range" then
    a <~ arg args "project_id" ;; b <~ arg args "persona_id" ;;
    c <~ arg args "start_number" ;; d <~ arg args "end_number" ;;
    call "getStoryRange" [a; b; c; d]
  else if String.eqb toolName "get_single_story_details" then
    a <~ arg args "project_id" ;; b <~ arg args "persona_id" ;;
    c <~ arg args "story_number" ;; d <~ arg args "story_id" ;;
    call "getSingleStoryDetails" [a; b; c; d]
  else if String.eqb toolName "get_project_overview" then
    a <~ arg args "project_id" ;; call "getProjectOverview" [a]
  else if String.eqb toolName "get_persona_profile" then
    a <~ arg args "project_id" ;; b <~ arg args "persona_id" ;;
    call "getPersonaProfile" [a; b]
  else if String.eqb toolName "get_user_journey" then
    a <~ arg args "project_id" ;; b <~ arg args "persona_id" ;;
    call "getUserJourney" [a; b]
  else if String.eqb toolName "get_jobs_to_be_done" then
    a <~ arg args "project_id" ;; b <~ arg args "persona_id" ;;
    call "getJobsToBeDone" [a; b]
  else if String.eqb toolName "get_user_info" then
    call "getUserInfo" []
  else if String.eqb toolName "get_project_environment" then
    a <~ arg args "project_id" ;; call "getProjectEnvironment" [a]
  else if String.eqb toolName "check_nda_status" then
    call "checkNdaStatus" []
  else if String.eqb toolName "get_product_info" then
    a <~ arg args "project_id" ;; call "getProductInfo" [a]
  else if String.eqb toolName "list_projects" then
    call "getAllProjects" []
  else if String.eqb toolName "find_project_by_name" then
    a <~ arg args "project_name" ;; call "findProjectByName" [a]
  else if String.eqb toolName "find_persona_by_name" then
    a <~ arg args "project_id" ;;
    findPersonaProjectId <~ call "resolveProjectId" [a] ;;
    b <~ arg args "persona_name" ;;
    call "findPersonaByName" [findPersonaProjectId; b]
  else if String.eqb toolName "get_user_stories_by_name" then
    a <~ arg args "project_name" ;;
    storiesProjectId <~ call "resolveProjectId" [a] ;;
    b <~ arg args "persona_name" ;;
    personaId <~ call "resolvePersonaId" [storiesProjectId; b] ;;
    call "getUserStories" [storiesProjectId; personaId]
  else if String.eqb toolName "get_project_by_name" then
    a <~ arg args "project_name" ;; call "findProjectByName" [a]
  else if String.eqb toolName "get_persona_by_name" then
    a <~ arg args "project_name" ;;
    projectIdForPersona <~ call "resolveProjectId" [a] ;;
    b <~ arg args "persona_name" ;;
    personaIdForProfile <~ call "resolvePersonaId" [projectIdForPersona; b] ;;
    call "getPersonaProfile" [projectIdForPersona; personaIdForProfile]
  else if String.eqb toolName "mcp0_getUserInfo" then
    call "getUserInfo" []
  else if String.eqb toolName "mcp0_fetchPersona" then
    a <~ arg args "projectId" ;; b <~ arg args "personaId" ;;
    call "getPersonaProfile" [a; b]
  else if String.eqb toolName "mcp0_fetchElevatorPitch" then
    a <~ arg args "projectId" ;;
    overview <~ call "getProjectOverview" [a] ;;
    overview_field overview "elevatorPitch" "No elevator pitch available"
  else if String.eqb toolName "mcp0_fetchVisionStatement" then
    a <~ arg args "projectId" ;;
    visionOverview <~ call "getProjectOverview" [a] ;;
    overview_field visionOverview "visionStatement" "No vision statement available"
  else if String.eqb toolName "mcp0_fetchProductInfo" then
    a <~ arg args "projectId" ;; call "getProductInfo" [a]
  else if String.eqb toolName "mcp0_fetchProjectEnvironment" then
    a <~ arg args "projectId" ;; call "getProjectEnvironment" [a]
  else if String.eqb toolName "mcp0_checkNdaStatus" then
    call "checkNdaStatus" []
  else uthrow (Error ("Tool " +:+ toolName +:+ " not implemented")).

(** [callTool(toolName, args, client)]; [client] is [None] for [null]. *)
Definition callTool (w : world) (toolName : string) (args : jsval)
    (client : option RezoomexApiClient.t) : upstream jsval :=
  if negb (hasTools toolName)
  then uthrow (Error ("Unknown tool: " +:+ toolName))
  else
    _ <~ ulift (validateToolInput w toolName args) ;;
    if String.eqb toolName "authenticate"
    then uthrow (Error "Authentication should be handled by the server directly")
    else match client with
         | None => uthrow (Error "Client is required for this tool")
         | Some client => dispatch w client toolName args
         end.

End MCPTools.

(** ** JSON-RPC envelopes *)

Module JsonRpc.

(** [params] of a [tools/call] request: [{ name, arguments }]. *)
Record call_params := {
  name : string;
  arguments : jsval
}.

(** A parsed request body: [{ jsonrpc, id, method, params? }]. *)
Record request := {
  id : jsval;
  method : string;
  params : option call_params
}.

(** The [result] member of a response.  The [text] of a tool result is
    [JSON.stringify(result, null, 2)]; the embedding keeps the value. *)
Inductive result :=
| Initialize (protocolVersion : string) (capabilities : list string) (serverName : string)
| Tools (tools : list MCPTools.tool)
| ToolOutput (result : jsval)
| Authenticated (sessionId : string) (user : jsval).

Inductive response :=
| Result (id : jsval) (r : result)
| Failure (id : jsval) (code : Z) (message : string).

End JsonRpc.

(** ** The in-band server: [POST /sse] *)

Module Server.

Import JsonRpc.

Record request := {
  x_session_id : option string;
  body : JsonRpc.request
}.

(** What a handler leaves behind: the upstream calls it made, the HTTP
    status and body it sent, and the registry afterwards. *)
Record outcome := {
  calls : list call;
  status : Z;
  sent : JsonRpc.response;
  authManager : AuthManager.t
}.

(** [req.headers['x-session-id'] || 'mcp-default']. *)
Definition sessionId_of (req : request) : string :=
  match x_session_id req with
  | Some h => if String.eqb h EmptyString then "mcp-default" else h
  | None => "mcp-default"
  end.

(** [error.response?.data?.error_description || error.message]. *)
Definition describe (w : world) (e : exn) : string :=
  match e with
  | AxiosError m _ (Some (_, data)) =>
      js_to_string w (js_or (js_get_opt data "error_description") (JStr m))
  | _ => message_of e
  end.

(** The [try] block of the [authenticate] branch of [tools/call]. *)
Definition authenticate_tool (w : world) (now : Z) (rid : jsval) (arguments : jsval)
    (am : AuthManager.t) : completion (JsonRpc.response * AuthManager.t) :=
  email <- js_get arguments "email" ;;
  password <- js_get arguments "password" ;;
  if negb (truthy email) || negb (truthy password)
  then Throw (Error "Email and password are required")
  else
    data <- login_request w email password ;;
    access_token <- js_get data "access_token" ;;
    if truthy access_token
    then
      let mcpSessionId := "mcp-default" in
      match AuthManager.authenticateWithToken w now (js_to_string w access_token)
              mcpSessionId am with
      | (Some client, am) =>
          Return (Result rid
                    (Authenticated mcpSessionId
                       (js_or (js_get_opt (RezoomexApiClient.userInfo client) "email")
                              (JStr "Unknown"))),
                  am)
      | (None, _) => Throw (Error "Failed to authenticate with received token")
      end
    else Throw (Error "No access token received").

(** The [catch] of the whole handler: status 500 and [error.message]. *)
Definition failed (tr : list call) (rid : jsval) (e : exn) (am : AuthManager.t) : outcome :=
  {| calls := tr; status := 500;
     sent := Failure (js_or rid JNull) (-32603) (message_of e);
     authManager := am |}.

Definition ok (tr : list call) (r : JsonRpc.response) (am : AuthManager.t) : outcome :=
  {| calls := tr; status := 200; sent := r; authManager := am |}.

(** [app.post('/sse', ...)]. *)
Definition post_sse (w : world) (now : Z) (req : request) (am : AuthManager.t) : outcome :=
  let request := body req in
  let rid := id request in
  if String.eqb (method request) "initialize" then
    ok [] (Result rid (Initialize "2024-11-05" ["tools"; "resources"] "rezoomex-mcp-server")) am
  else if String.eqb (method request) "tools/list" then
    ok [] (Result rid (Tools MCPTools.getToolDefinitions)) am
  else if String.eqb (method request) "tools/call" then
    let sessionId := sessionId_of req in
    match params request with
    | None => failed [] rid TypeError am
    | Some p =>
        if String.eqb (name p) "authenticate" then
          match authenticate_tool w now rid (arguments p) am with
          | Return (r, am) => ok [] r am
          | Throw e =>
              ok [] (Failure rid (-32603) ("Authentication failed: " +:+ describe w e)) am
          end
        else
          match AuthManager.getClient now (Some sessionId) am with
          | (None, am) =>
              ok [] (Failure rid (-32603)
                       ("Not authenticated. Please authenticate first using the "
                        +:+ quoted "authenticate"
                        +:+ " tool with your Rezoomex email and password."))
                 am
          | (Some client, am) =>
              match MCPTools.callTool w (name p) (arguments p) (Some client) with
              | (tr, Return result) => ok tr (Result rid (ToolOutput result)) am
              | (tr, Throw e) => failed tr rid e am
              end
          end
    end
  else
    ok [] (Failure rid (-32601) ("Method not found: " +:+ method request)) am.

(** *** [app.post('/mcp', ...)] *)

(** The same envelope handling as [POST /sse], except that [tools/call]
    demands the [X-Session-ID] header and has no branch for the
    authentication tool. *)
Definition post_mcp (w : world) (now : Z) (req : request) (am : AuthManager.t) : outcome :=
  let request := body req in
  let rid := id request in
  if String.eqb (method request) "initialize" then
    ok [] (Result rid (Initialize "2024-11-05" ["tools"; "resources"] "rezoomex-mcp-server")) am
  else if String.eqb (method request) "tools/list" then
    ok [] (Result rid (Tools MCPTools.getToolDefinitions)) am
  else if String.eqb (method request) "tools/call" then
    match x_session_id req with
    | Some sessionId =>
        if String.eqb sessionId EmptyString
        then ok [] (Failure rid (-32603) "Session ID required in X-Session-ID header") am
        else
          match AuthManager.getClient now (Some sessionId) am with
          | (None, am) =>
              ok [] (Failure rid (-32603) "Not authenticated. Please authenticate first.") am
          | (Some client, am) =>
              match params request with
              | None => failed [] rid TypeError am
              | Some p =>
                  match MCPTools.callTool w (name p) (arguments p) (Some client) with
                  | (tr, Return result) => ok tr (Result rid (ToolOutput result)) am
                  | (tr, Throw e) => failed tr rid e am
                  end
              end
          end
    | None => ok [] (Failure rid (-32603) "Session ID required in X-Session-ID header") am
    end
  else
    ok [] (Failure rid (-32601) ("Method not found: " +:+ method request)) am.

(** *** [executeToolWithProgress] and [app.post('/mcp/execute/:toolName', ...)] *)

(** [!params.k1 || !params.k2 || ...], left to right. *)
Fixpoint any_missing (params : jsval) (keys : list string) : completion bool :=
  match keys with
  | [] => Return false
  | k :: rest =>
      v <- js_get params k ;;
      if truthy v then any_missing params rest else Return true
  end.

(** [if (<one of keys is falsy>) throw new Error(message)]. *)
Definition demand (params : jsval) (keys : list string) (message : string) : upstream unit :=
  match any_missing params keys with
  | Return true => uthrow (Error message)
  | Return false => uret tt
  | Throw e => uthrow e
  end.

(** [parseInt(v)] converts its argument to a string first; [parseInt] is
    the ECMAScript function of that name on the values whose conversion
    does not throw. *)
Definition js_parseInt (parseInt : jsval -> jsval) (v : jsval) : completion jsval :=
  if unprintable v then Throw TypeError else Return (parseInt v).

(** [executeToolWithProgress(client, toolName, params)] as the POST
    endpoint calls it, where the progress callback does nothing; the
    message handed to the callback is rendered all the same. *)
Definition executeToolWithProgress (w : world) (parseInt : jsval -> jsval)
    (client : RezoomexApiClient.t) (toolName : string) (params : jsval) : upstream jsval :=
  let call := RezoomexApiClient.invoke w client in
  let arg := MCPTools.arg params in
  if String.eqb toolName "list_user_stories" then
    _ <~ demand params ["project_id"; "persona_id"] "project_id and persona_id are required" ;;
    a <~ arg "project_id" ;; b <~ arg "persona_id" ;;
    call "getUserStories" [a; b]
  else if String.eqb toolName "get_story_range" then
    _ <~ demand params ["project_id"; "persona_id"; "start_number"; "end_number"]
           "project_id, persona_id, start_number, and end_number are required" ;;
    a <~ arg "project_id" ;; b <~ arg "persona_id" ;;
    c <~ arg "start_number" ;; c <~ ulift (js_parseInt parseInt c) ;;
    d <~ arg "end_number" ;; d <~ ulift (js_parseInt parseInt d) ;;
    call "getStoryRange" [a; b; c; d]
  else if String.eqb toolName "get_single_story_details" then
    _ <~ demand params ["project_id"; "persona_id"] "project_id and persona_id are required" ;;
    a <~ arg "project_id" ;; b <~ arg "persona_id" ;;
    c <~ arg "story_number" ;;
    c <~ (if truthy c then ulift (js_parseInt parseInt c) else uret JNull) ;;
    d <~ arg "story_id" ;;
    call "getSingleStoryDetails" [a; b; c; d]
  else if String.eqb toolName "get_project_overview" then
    _ <~ demand params ["project_id"] "project_id is required" ;;
    a <~ arg "project_id" ;; call "getProjectOverview" [a]
  else if String.eqb toolName "get_persona_profile" then
    _ <~ demand params ["project_id"; "persona_id"] "project_id and persona_id are required" ;;
    a <~ arg "project_id" ;; b <~ arg "persona_id" ;;
    call "getPersonaProfile" [a; b]
  else if String.eqb toolName "get_user_journey" then
    _ <~ demand params ["project_id"; "persona_id"] "project_id and persona_id are required" ;;
    a <~ arg "project_id" ;; b <~ arg "persona_id" ;;
    call "getUserJourney" [a; b]
  else if String.eqb toolName "get_jobs_to_be_done" then
    _ <~ demand params ["project_id"; "persona_id"] "project_id and persona_id are required" ;;
    a <~ arg "project_id" ;; b <~ arg "persona_id" ;;
    call "getJobsToBeDone" [a; b]
  else if String.eqb toolName "get_user_info" then
    call "getUserInfo" []
  else if String.eqb toolName "get_project_environment" then
    _ <~ demand params ["project_id"] "project_id is required" ;;
    a <~ arg "project_id" ;; call "getProjectEnvironment" [a]
  else if String.eqb toolName "check_nda_status" then
    call "checkNdaStatus" []
  else if String.eqb toolName "get_product_info" then
    _ <~ demand params ["project_id"] "project_id is required" ;;
    a <~ arg "project_id" ;; call "getProductInfo" [a]
  else if String.eqb toolName "mcp0_getUserInfo" then
    call "getUserInfo" []
  else if String.eqb toolName "mcp0_fetchPersona" then
    _ <~ demand params ["projectId"; "personaId"] "projectId and personaId are required" ;;
    a <~ arg "projectId" ;; b <~ arg "personaId" ;;
    call "getPersonaProfile" [a; b]
  else if String.eqb toolName "mcp0_fetchElevatorPitch" then
    _ <~ demand params ["projectId"] "projectId is required" ;;
    a <~ arg "projectId" ;;
    overview <~ call "getProjectOverview" [a] ;;
    MCPTools.overview_field overview "elevatorPitch" "No elevator pitch available"
  else if String.eqb toolName "mcp0_fetchVisionStatement" then
    _ <~ demand params ["projectId"] "projectId is required" ;;
    a <~ arg "projectId" ;;
    visionOverview <~ call "getProjectOverview" [a] ;;
    MCPTools.overview_field visionOverview "visionStatement" "No vision statement available"
  else if String.eqb toolName "mcp0_fetchProductInfo" then
    _ <~ demand params ["projectId"] "projectId is required" ;;
    a <~ arg "projectId" ;; call "getProductInfo" [a]
  else if String.eqb toolName "mcp0_fetchProjectEnvironment" then
    _ <~ demand params ["projectId"] "projectId is required" ;;
    a <~ arg "projectId" ;; call "getProjectEnvironment" [a]
  else if String.eqb toolName "mcp0_checkNdaStatus" then
    call "checkNdaStatus" []
  else if String.eqb toolName "list_projects" then
    call "getAllProjects" []
  else if String.eqb toolName "find_project_by_name" then
    _ <~ demand params ["project_name"] "project_name is required" ;;
    a <~ arg "project_name" ;;
    _ <~ ulift (ToString w a) ;;
    a <~ arg "project_name" ;; call "findProjectByName" [a]
  else if String.eqb toolName "find_persona_by_name" then
    _ <~ demand params ["project_id"; "persona_name"]
           "project_id and persona_name are required" ;;
    b <~ arg "persona_name" ;;
    _ <~ ulift (ToString w b) ;;
    a <~ arg "project_id" ;;
    projectId <~ call "resolveProjectId" [a] ;;
    b <~ arg "persona_name" ;;
    call "findPersonaByName" [projectId; b]
  else if String.eqb toolName "get_user_stories_by_name" then
    _ <~ demand params ["project_name"; "persona_name"]
           "project_name and persona_name are required" ;;
    a <~ arg "project_name" ;;
    resolvedProjectId <~ call "resolveProjectId" [a] ;;
    b <~ arg "persona_name" ;;
    resolvedPersonaId <~ call "resolvePersonaId" [resolvedProjectId; b] ;;
    call "getUserStories" [resolvedProjectId; resolvedPersonaId]
  else if String.eqb toolName "get_persona_by_name" then
    _ <~ demand params ["project_name"; "persona_name"]
           "project_name and persona_name are required" ;;
    a <~ arg "project_name" ;;
    projectIdForPersona <~ call "resolveProjectId" [a] ;;
    b <~ arg "persona_name" ;;
    personaIdForProfile <~ call "resolvePersonaId" [projectIdForPersona; b] ;;
    call "getPersonaProfile" [projectIdForPersona; personaIdForProfile]
  else uthrow (Error ("Tool " +:+ toolName +:+ " not implemented")).

(** What a REST handler leaves behind; [reply] is the JSON body without
    its [timestamp]. *)
Record rest := {
  rest_calls : list call;
  rest_status : Z;
  reply : jsval;
  registry : AuthManager.t
}.

Definition rest_error (status : Z) (error message : string) (am : AuthManager.t) : rest :=
  {| rest_calls := []; rest_status := status;
     reply := JObj [("error", JStr error); ("message", JStr message)];
     registry := am |}.

(** [app.post('/mcp/execute/:toolName', ...)]: the path parameter, the
    [X-Session-ID] header and the body.  [validateSession] updates the
    stored handle in place. *)
Definition post_mcp_execute (w : world) (parseInt : jsval -> jsval) (now : Z)
    (toolName : string) (sessionId : option string) (params : jsval)
    (am : AuthManager.t) : rest :=
  if negb (MCPTools.hasTools toolName)
  then rest_error 400 "UNKNOWN_TOOL" ("Unknown tool: " +:+ toolName) am
  else
    match AuthManager.getClient now sessionId am with
    | (None, am) =>
        rest_error 401 "AUTH_REQUIRED"
          "Authentication required. Please authenticate first using /auth/token endpoint." am
    | (Some client, am) =>
        let '(isValid, client) := RezoomexApiClient.validateSession w client in
        let am :=
          AuthManager.set_clients (alter (fun _ => client) (default EmptyString sessionId)) am in
        if isValid then
          match executeToolWithProgress w parseInt client toolName params with
          | (tr, Return result) =>
              {| rest_calls := tr; rest_status := 200;
                 reply := JObj [("success", JBool true); ("result", result)];
                 registry := am |}
          | (tr, Throw e) =>
              {| rest_calls := tr; rest_status := 500;
                 reply := JObj [("error", JStr "EXECUTION_ERROR");
                                ("message", JStr (message_of e))];
                 registry := am |}
          end
        else
          rest_error 401 "SESSION_EXPIRED" "Session expired. Please re-authenticate."
            (AuthManager.clearSession (default EmptyString sessionId) am)
    end.

(** *** The session endpoints *)

(** [app.post('/auth/token', ...)]; [uuid] is the result of [uuidv4()] and
    [loginUrl] the value of
    [process.env.REZOOMEX_LOGIN_URL || 'https://workspace.rezoomex.com/login'].
    The constructor of the handle renders the credential into its
    [Authorization] header, and [authenticateWithToken] answers [null]
    when that throws. *)
Definition post_auth_token (w : world) (now : Z) (uuid loginUrl : string)
    (bearerToken : jsval) (am : AuthManager.t) : rest :=
  if negb (truthy bearerToken)
  then {| rest_calls := []; rest_status := 400;
          reply := JObj [("error", JStr "Bearer token is required")];
          registry := am |}
  else
    let sessionId := uuid in
    match (if unprintable bearerToken then (None, am)
           else AuthManager.authenticateWithToken w now (js_to_string w bearerToken)
                  sessionId am) with
    | (Some client, am) =>
        {| rest_calls := []; rest_status := 200;
           reply := JObj [("message", JStr "Authentication successful");
                          ("sessionId", JStr sessionId);
                          ("user", RezoomexApiClient.userInfo client);
                          ("loginUrl", JStr loginUrl)];
           registry := am |}
    | (None, am) =>
        {| rest_calls := []; rest_status := 401;
           reply := JObj [("error", JStr "Authentication failed: Invalid bearer token");
                          ("loginUrl", JStr loginUrl)];
           registry := am |}
    end.

(** [app.get('/auth/session/:sessionId', ...)]. *)
Definition get_auth_session (now : Z) (sessionId : string) (am : AuthManager.t) : rest :=
  match AuthManager.getClient now (Some sessionId) am with
  | (Some _, am) =>
      {| rest_calls := []; rest_status := 200;
         reply := JObj [("valid", JBool true); ("sessionId", JStr sessionId);
                        ("authenticated", JBool true)];
         registry := am |}
  | (None, am) =>
      {| rest_calls := []; rest_status := 404;
         reply := JObj [("valid", JBool false); ("message", JStr "Session not found")];
         registry := am |}
  end.

(** [app.delete('/auth/session', ...)]: the identifier is
    [req.headers['x-session-id'] || req.cookies.sessionId]. *)
Definition delete_auth_session (header cookie : option string) (am : AuthManager.t) : rest :=
  let sessionId :=
    match header with
    | Some h => if String.eqb h EmptyString then cookie else Some h
    | None => cookie
    end in
  {| rest_calls := []; rest_status := 200;
     reply := JObj [("message", JStr "Session cleared successfully")];
     registry :=
       match sessionId with
       | Some sid => if String.eqb sid EmptyString then am else AuthManager.clearSession sid am
       | None => am
       end |}.

(** *** [app.post('/auth/login', ...)] *)

(** The [try] block of the handler once both fields are present; [uuid]
    is the result of [uuidv4()]. *)
Definition login_with_credentials (w : world) (now : Z) (uuid : string)
    (email password : jsval) (am : AuthManager.t) : completion (jsval * AuthManager.t) :=
  data <- login_request w email password ;;
  access_token <- js_get data "access_token" ;;
  if truthy access_token
  then
    let sessionId := uuid in
    match AuthManager.authenticateWithToken w now (js_to_string w access_token)
            sessionId am with
    | (Some client, am) =>
        Return (JObj [("message", JStr "Authentication successful");
                      ("sessionId", JStr sessionId);
                      ("user", RezoomexApiClient.userInfo client);
                      ("accessToken", access_token)],
                am)
    | (None, _) => Throw (Error "Failed to authenticate with received token")
    end
  else Throw (Error "No access token received").

Definition post_auth_login (w : world) (now : Z) (uuid : string)
    (email password : jsval) (am : AuthManager.t) : rest :=
  if negb (truthy email) || negb (truthy password)
  then {| rest_calls := []; rest_status := 400;
          reply := JObj [("error", JStr "Email and password are required")];
          registry := am |}
  else
    match login_with_credentials w now uuid email password am with
    | Return (body, am) =>
        {| rest_calls := []; rest_status := 200; reply := body; registry := am |}
    | Throw e =>
        {| rest_calls := []; rest_status := 401;
           reply := JObj [("error", JStr ("Authentication failed: " +:+ describe w e))];
           registry := am |}
    end.

(** *** The temporary-token endpoints *)

(** [if (v)] for a query parameter. *)
Definition given (v : option string) : bool :=
  match v with
  | Some s => negb (String.eqb s EmptyString)
  | None => false
  end.

(** Where [GET /auth/callback] sends the browser: [/?error=...],
    [/?token_id=...&success=1] or [/?error=no_token]. *)
Inductive callback_page :=
| LoginFailed (error : string)
| TokenStored (tempTokenId : string)
| NoToken.

(** [app.get('/auth/callback', ...)]: the query parameters [access_token]
    and [error]. *)
Definition get_auth_callback (now : Z) (rnd : string) (access_token error : option string)
    (am : AuthManager.t) : callback_page * AuthManager.t :=
  if given error then (LoginFailed (default EmptyString error), am)
  else if given access_token then
    let tempTokenId := "temp_" +:+ pretty now +:+ "_" +:+ String.substring 2 9 rnd in
    (TokenStored tempTokenId,
     AuthManager.storeTempToken now tempTokenId (default EmptyString access_token) am)
  else (NoToken, am).

(** [app.post('/auth/pickup-token', ...)].  The keys of [tempTokens] are
    strings, so an identifier of another type finds nothing.  The class
    [AuthManager] defines no method [authenticate]: the call on the line
    after the lookup throws a [TypeError], which lands in the [catch]. *)
Definition post_auth_pickup_token (now : Z) (tempTokenId : jsval) (am : AuthManager.t)
    : rest :=
  if negb (truthy tempTokenId)
  then {| rest_calls := []; rest_status := 400;
          reply := JObj [("error", JStr "Temporary token ID is required")];
          registry := am |}
  else
    let '(bearerToken, am) :=
      match tempTokenId with
      | JStr tokenId => AuthManager.getTempToken now tokenId am
      | _ => (None, am)
      end in
    if given bearerToken then
      {| rest_calls := []; rest_status := 401;
         reply := JObj [("error", JStr ("Token pickup failed: " +:+ message_of TypeError))];
         registry := am |}
    else
      {| rest_calls := []; rest_status := 404;
         reply := JObj [("error", JStr "Token not found or expired")];
         registry := am |}.

(** [app.get('/auth/status', ...)].  The class [AuthManager] defines no
    method [isValidSession]: with an identifier the handler throws a
    [TypeError] outside any [try], and the error-handling middleware
    answers. *)
Definition get_auth_status (header cookie : option string) (am : AuthManager.t) : rest :=
  let sessionId :=
    match header with
    | Some h => if String.eqb h EmptyString then cookie else Some h
    | None => cookie
    end in
  if given sessionId then
    {| rest_calls := []; rest_status := 500;
       reply := JObj [("error", JStr "Internal server error");
                      ("message", JStr "An unexpected error occurred")];
       registry := am |}
  else
    {| rest_calls := []; rest_status := 200;
       reply := JObj [("authenticated", JBool false)];
       registry := am |}.


End Server.

(** ** The OAuth2 server: [POST /authenticate], [POST /token], [POST /v1/sse] *)

Module OAuthServer.

Import JsonRpc.

(** The constants read from the environment.  [auth0] is
    [Some AUTH0_CLIENT_ID] when [auth0Provider] is configured (domain,
    client id and secret all set) and [None] when it is [null]. *)
Record config := {
  BASE_URI : string;
  SESSION_TIMEOUT : Z;
  auth0 : option string
}.

(** [parseInt(process.env.SESSION_TIMEOUT) || 300000]. *)
Definition SESSION_TIMEOUT_of (parsed : option Z) : Z := AuthManager.env_or parsed 300000.

(** The mutable state of the process: the [sessionStore] map, the pending
    [setTimeout] callbacks (each deletes one key of [sessionStore] at its
    due time) and the session registry. *)
Record t := {
  sessionStore : gmap string jsval;
  timers : list (Z * string);
  authManager : AuthManager.t
}.

Definition init (am : AuthManager.t) : t :=
  {| sessionStore := ∅; timers := []; authManager := am |}.

Definition store_set (k : string) (v : jsval) (st : t) : t :=
  {| sessionStore := <[k := v]> (sessionStore st);
     timers := timers st;
     authManager := authManager st |}.

Definition store_delete (k : string) (st : t) : t :=
  {| sessionStore := delete k (sessionStore st);
     timers := timers st;
     authManager := authManager st |}.

(** The delay a timer runs with: Node replaces a delay below 1 ms or above
    2147483647 ms by 1 ms ([if (!(after >= 1 && after <= TIMEOUT_MAX))
    after = 1]). *)
Definition TIMEOUT_MAX : Z := 2147483647.

Definition timer_delay (delay : Z) : Z :=
  if (1 <=? delay) && (delay <=? TIMEOUT_MAX) then delay else 1.

(** [setTimeout(() => sessionStore.delete(k), delay)] issued at [now]. *)
Definition setTimeout_delete (now delay : Z) (k : string) (st : t) : t :=
  {| sessionStore := sessionStore st;
     timers := timers st ++ [(now + timer_delay delay, k)];
     authManager := authManager st |}.

Definition set_authManager (am : AuthManager.t) (st : t) : t :=
  {| sessionStore := sessionStore st;
     timers := timers st;
     authManager := am |}.

Definition is_due (now : Z) (tm : Z * string) : bool := fst tm <=? now.

(** The event loop runs every callback whose delay has elapsed before it
    serves a request that arrives at [now]. *)
Definition run_timers (now : Z) (st : t) : t :=
  {| sessionStore :=
       foldl (fun m tm => delete (snd tm) m) (sessionStore st)
             (filter (fun tm => is_due now tm = true) (timers st));
     timers := filter (fun tm => is_due now tm = false) (timers st);
     authManager := authManager st |}.

Inductive payload :=
| Form (fields : list (string * string))
| Rpc (r : JsonRpc.request).

Record request := {
  verb : string;
  path : string;
  authorization : option string;
  body : payload
}.

(** [req.body.k] of a submitted form; [None] is [undefined]. *)
Definition field (req : request) (k : string) : option string :=
  match body req with
  | Form fields => assoc k fields
  | Rpc _ => None
  end.

(** [!v] for such a field. *)
Definition absent (v : option string) : bool :=
  match v with
  | Some s => String.eqb s EmptyString
  | None => true
  end.

(** [v === 'literal']. *)
Definition same (v : option string) (literal : string) : bool :=
  match v with
  | Some s => String.eqb s literal
  | None => false
  end.

Definition js_of (v : option string) : jsval :=
  match v with
  | Some s => JStr s
  | None => JUndefined
  end.

(** [`${v}`] and [v || ''] for such a field. *)
Definition text_of (v : option string) : string := default "undefined" v.
Definition or_empty (v : option string) : string := default EmptyString v.

Inductive page :=
| LoginSuccess (authCode : string)
| LoginError (message state redirect_uri : string).

Inductive response :=
| Json (status : Z) (body : jsval)
| JsonRpcReply (status : Z) (r : JsonRpc.response)
| Redirect (url : string)
| Html (p : page)
| NotFound.

Definition oauth_error (status : Z) (error error_description : string) : response :=
  Json status (JObj [("error", JStr error); ("error_description", JStr error_description)]).

(** *** [RezoomexAuthProvider] *)

(** The [catch] of [authenticateWithCredentials]. *)
Definition credentials_error (e : exn) : exn :=
  match e with
  | AxiosError m code (Some (status, _)) =>
      if status =? 401 then Error "Invalid email or password"
      else if status =? 404 then Error "Authentication endpoint not found"
      else if String.eqb code "ECONNREFUSED" then Error "Cannot connect to Rezoomex API"
      else Error ("Authentication failed: " +:+ m)
  | AxiosError m code None =>
      if String.eqb code "ECONNREFUSED" then Error "Cannot connect to Rezoomex API"
      else Error ("Authentication failed: " +:+ m)
  | _ => Error ("Authentication failed: " +:+ message_of e)
  end.

(** [authenticateWithCredentials(email, password)]: the object
    [{ access_token, token_type }]. *)
Definition authenticateWithCredentials (w : world) (email password : jsval)
    : completion jsval :=
  match login_request w email password with
  | Return data =>
      if truthy data && truthy (js_index data "access_token")
      then Return (JObj [("access_token", js_index data "access_token");
                         ("token_type", JStr "Bearer")])
      else if truthy data && truthy (js_index data "token")
      then Return (JObj [("access_token", js_index data "token");
                         ("token_type", JStr "Bearer")])
      else Throw (credentials_error (Error "No token received from authentication response"))
  | Throw e => Throw (credentials_error e)
  end.

(** [verifyToken(token)]. *)
Definition verifyToken (w : world) (token : jsval) : bool :=
  match me_api w (js_to_string w token) with
  | Return (status, _) => status =? 200
  | Throw _ => false
  end.

(** [verifyAccessToken(token)], reduced to the member [extra.userId] of the
    object it returns. *)
Definition verifyAccessToken (w : world) (token : string) : completion jsval :=
  match me_api w token with
  | Return (_, data) =>
      if truthy data
      then Return (js_or (js_index data "id") (js_index data "userId"))
      else Throw (Error "Invalid access token")
  | Throw _ => Throw (Error "Invalid access token")
  end.

(** *** [app.post("/authenticate", ...)] *)

Definition auth_code_key (code : string) : string := "auth_code:" +:+ code.
Definition auth_session_key (sessionId : string) : string := "auth_session:" +:+ sessionId.

(** [Math.random().toString(36).substring(2, 15)] from the rendering
    [rnd] of the random number. *)
Definition fresh_code (rnd : string) : string := String.substring 2 13 rnd.

Definition with_state (w : world) (state : jsval) (code : string) : string :=
  form_urlencode w
    (("code", code) :: (if truthy state then [("state", js_to_string w state)] else [])).

Definition post_authenticate (cfg : config) (w : world) (now : Z) (rnd : string)
    (req : request) (st : t) : list call * response * t :=
  let email := field req "email" in
  let password := field req "password" in
  let state := field req "state" in
  let redirect_uri := field req "redirect_uri" in
  let form_again (e : exn) :=
    Html (LoginError (message_of e) (or_empty state) (or_empty redirect_uri)) in
  match authenticateWithCredentials w (js_of email) (js_of password) with
  | Throw e => ([], form_again e, st)
  | Return tokenData =>
      let authCode := fresh_code rnd in
      let st := store_set (auth_code_key authCode) (js_index tokenData "access_token") st in
      let st := setTimeout_delete now (SESSION_TIMEOUT cfg) (auth_code_key authCode) st in
      if same state "mcp-auth" then
        match url_session_param w redirect_uri (BASE_URI cfg) with
        | Throw e => ([], form_again e, st)
        | Return sessionId =>
            match (if absent sessionId then None
                   else sessionStore st !! auth_session_key (text_of sessionId)) with
            | Some sessionData =>
                if truthy sessionData then
                  let finalCallbackUrl :=
                    js_to_string w (js_index sessionData "redirectUri") +:+ "?" +:+
                    with_state w (js_index sessionData "originalState") authCode in
                  ([], Redirect finalCallbackUrl,
                   store_delete (auth_session_key (text_of sessionId)) st)
                else ([], Html (LoginSuccess authCode), st)
            | None => ([], Html (LoginSuccess authCode), st)
            end
        end
      else
        ([], Redirect (text_of redirect_uri +:+ "?" +:+ with_state w (js_of state) authCode), st)
  end.

(** *** [app.post("/token", ...)], the first registration *)

Definition token_body (access_token expires_in : jsval) (rest : list (string * jsval)) : jsval :=
  JObj ([("access_token", access_token); ("token_type", JStr "Bearer");
         ("expires_in", expires_in)] ++ rest).

Definition invalid_code : response :=
  oauth_error 400 "invalid_grant" "Authorization code is invalid or expired".

Definition unsupported : response :=
  oauth_error 400 "unsupported_grant_type" "Only authorization_code grant type is supported".

Definition post_token (cfg : config) (w : world) (now : Z) (rnd : string)
    (req : request) (st : t) : list call * response * t :=
  let grant_type := field req "grant_type" in
  let code := field req "code" in
  let redirect_uri := field req "redirect_uri" in
  let client_id := field req "client_id" in
  if negb (same grant_type "authorization_code") then ([], unsupported, st)
  else if absent code then
    ([], oauth_error 400 "invalid_request" "Missing authorization code", st)
  else if match auth0 cfg with
          | Some AUTH0_CLIENT_ID => same client_id AUTH0_CLIENT_ID
          | None => false
          end
  then
    match (tokenData <- auth0_exchange w (text_of code) redirect_uri ;;
           access_token <- js_get tokenData "access_token" ;;
           Return (token_body access_token
                     (js_or (js_index tokenData "expires_in") (JInt 3600))
                     [("scope", js_index tokenData "scope")])) with
    | Return reply => ([], Json 200 reply, st)
    | Throw _ => ([], invalid_code, st)
    end
  else
    match sessionStore st !! auth_code_key (text_of code) with
    | Some authCode =>
        if truthy authCode then
          let st := store_delete (auth_code_key (text_of code)) st in
          ([], Json 200 (token_body (js_index authCode "access_token") (JInt 3600) []), st)
        else ([], invalid_code, st)
    | None => ([], invalid_code, st)
    end.

(** *** [app.post("/token", ...)], the second registration *)

Definition post_token_verified (cfg : config) (w : world) (now : Z) (rnd : string)
    (req : request) (st : t) : list call * response * t :=
  let grant_type := field req "grant_type" in
  let code := field req "code" in
  let client_id := field req "client_id" in
  if negb (same grant_type "authorization_code") then ([], unsupported, st)
  else if absent code || absent client_id then
    ([], oauth_error 400 "invalid_request" "Missing required parameters", st)
  else
    match sessionStore st !! auth_code_key (text_of code) with
    | Some storedToken =>
        if truthy storedToken then
          if verifyToken w storedToken then
            let st := store_delete (auth_code_key (text_of code)) st in
            ([], Json 200 (token_body storedToken (JInt 3600) [("scope", JStr "read write")]), st)
          else
            ([], oauth_error 400 "invalid_grant" "Authorization code token is no longer valid",
             store_delete (auth_code_key (text_of code)) st)
        else ([], invalid_code, st)
    | None => ([], invalid_code, st)
    end.

(** *** [app.post('/v1/sse', ...)] *)

(** The session key of a [tools/call]:
    [`session_${userId || 'anon'}_${Date.now()}_${random.substring(2, 8)}`]. *)
Definition userSpecificSessionId (w : world) (userId : jsval) (now : Z) (rnd : string)
    : string :=
  "session_" +:+ js_to_string w (js_or userId (JStr "anon")) +:+ "_" +:+ pretty now
    +:+ "_" +:+ String.substring 2 6 rnd.

Definition reply (tr : list call) (r : JsonRpc.response) (st : t) : list call * response * t :=
  (tr, JsonRpcReply 200 r, st).

(** [req.body] read as a JSON-RPC request.  A submitted form is an object
    of strings; its nested [params] are not modelled. *)
Definition as_rpc (p : payload) : JsonRpc.request :=
  match p with
  | Rpc r => r
  | Form fields =>
      {| id := js_of (assoc "id" fields);
         method := text_of (assoc "method" fields);
         params := None |}
  end.

Definition post_v1_sse (cfg : config) (w : world) (now : Z) (rnd : string)
    (req : request) (st : t) : list call * response * t :=
  let jsonRpcRequest := as_rpc (body req) in
  let rid := id jsonRpcRequest in
  match authorization req with
  | Some authHeader =>
      if String.prefix "Bearer " authHeader then
        let token := String.substring 7 (String.length authHeader - 7) authHeader in
        match verifyAccessToken w token with
        | Return userId =>
            let method := method jsonRpcRequest in
            if String.eqb method "initialize" then
              reply [] (Result rid (Initialize "2024-11-05"
                                      ["prompts"; "resources"; "tools"; "logging"] "rzmx")) st
            else if String.eqb method "tools/list" then
              let allTools := MCPTools.getToolDefinitions in
              let availableTools :=
                List.filter (fun tool => negb (String.eqb (MCPTools.name tool) "authenticate"))
                            allTools in
              reply [] (Result rid (Tools availableTools)) st
            else if String.eqb method "tools/call" then
              let toolName := option_map name (params jsonRpcRequest) in
              let toolArgs :=
                js_or (default JUndefined (option_map arguments (params jsonRpcRequest)))
                      (JObj []) in
              let key := userSpecificSessionId w userId now rnd in
              match AuthManager.authenticateWithToken w now token key (authManager st) with
              | (None, am) =>
                  reply [] (Failure rid (-32603) "Failed to authenticate with token")
                        (set_authManager am st)
              | (Some client, am) =>
                  let st := set_authManager am st in
                  if same toolName "authenticate" then
                    reply [] (Failure rid (-32603) "Authentication is handled by OAuth2 flow") st
                  else
                    match toolName with
                    | Some toolName =>
                        match MCPTools.callTool w toolName toolArgs (Some client) with
                        | (tr, Return result) => reply tr (Result rid (ToolOutput result)) st
                        | (tr, Throw e) => reply tr (Failure rid (-32603) (message_of e)) st
                        end
                    | None => reply [] (Failure rid (-32603) "Unknown tool: undefined") st
                    end
              end
            else
              reply [] (Failure rid (-32601) ("Method not found: " +:+ method)) st
        | Throw _ =>
            ([], JsonRpcReply 500 (Failure (js_or rid JNull) (-32603) "Internal error"), st)
        end
      else
        ([], JsonRpcReply 401 (Failure (js_or rid JNull) (-32001) "Authentication required"), st)
  | None =>
      ([], JsonRpcReply 401 (Failure (js_or rid JNull) (-32001) "Authentication required"), st)
  end.

(** *** The router *)

Definition handler : Type :=
  config -> world -> Z -> string -> request -> t -> list call * response * t.

(** The registrations of the modelled endpoints, in source order.  Every
    handler ends the response without calling [next()], so express never
    reaches a later registration of the same verb and path. *)
Definition routes : list (string * string * handler) := [
  ("POST", "/authenticate", post_authenticate);
  ("POST", "/token", post_token);
  ("POST", "/token", post_token_verified);
  ("POST", "/v1/sse", post_v1_sse)
].

Definition matches (req : request) (route : string * string * handler) : bool :=
  String.eqb (fst (fst route)) (verb req) && String.eqb (snd (fst route)) (path req).

(** Express hands a request to the first registration that matches. *)
Definition route (table : list (string * string * handler)) : handler :=
  fun cfg w now rnd req st =>
    match List.find (matches req) table with
    | Some (_, _, h) => h cfg w now rnd req st
    | None => ([], NotFound, st)
    end.

Definition app : handler := route routes.

(** One request served at time [now]: the due callbacks run first. *)
Definition serve (cfg : config) (w : world) (now : Z) (rnd : string) (req : request) (st : t)
    : list call * response * t :=
  app cfg w now rnd req (run_timers now st).

(** The repository holds a second OAuth2 server, without Auth0, whose
    handlers for these endpoints are the same text; it registers
    [POST /token] once, with the handler that re-validates. *)
Definition rezoomex_routes : list (string * string * handler) := [
  ("POST", "/authenticate", post_authenticate);
  ("POST", "/token", post_token_verified);
  ("POST", "/v1/sse", post_v1_sse)
].

Definition serve_rezoomex (cfg : config) (w : world) (now : Z) (rnd : string)
    (req : request) (st : t) : list call * response * t :=
  route rezoomex_routes cfg w now rnd req (run_timers now st).

(** *** [app.post("/register", ...)] *)

Definition callback_session_key (sessionId : string) : string :=
  "callback_session:" +:+ sessionId.

(** The handler reads the members [client_name] and [redirect_uris] of
    the body. *)
Definition post_register (cfg : config) (now : Z) (rnd : string)
    (client_name redirect_uris : jsval) (st : t) : response * t :=
  if negb (truthy redirect_uris) || negb (truthy client_name) then
    (oauth_error 400 "invalid_client_metadata"
       "Missing required parameters: redirect_uris and client_name", st)
  else
    let normalizedRedirectUris :=
      match redirect_uris with
      | JArr items => items
      | v => [v]
      end in
    let dynamicCallbackUrl := nth 0 normalizedRedirectUris JUndefined in
    let sessionId := fresh_code rnd in
    let st := store_set (callback_session_key sessionId) dynamicCallbackUrl st in
    let st := setTimeout_delete now (SESSION_TIMEOUT cfg) (callback_session_key sessionId) st in
    (Json 200
       (JObj [("client_id", JStr "rezoomex-mcp-client");
              ("client_secret", JStr "not-used-for-rezoomex");
              ("client_name", client_name);
              ("redirect_uris", JArr [JStr (BASE_URI cfg +:+ "/callback")]);
              ("grant_types", JArr [JStr "authorization_code"; JStr "refresh_token"]);
              ("response_types", JArr [JStr "code"]);
              ("token_endpoint_auth_method", JStr "client_secret_post")]),
     st).

(** *** [app.get("/authorize", ...)], the registration that allocates a session *)

(** What the handler answers: the login form with its two hidden fields,
    or a redirect to [`${BASE_URI}/authorize`] whose query carries
    [state=mcp-auth] and the given [redirect_uri]. *)
Inductive authorize_reply :=
| LoginForm (state redirect_uri : string)
| ToLoginForm (redirect_uri : string).

(** The query parameters [state], [redirect_uri] and [client_id], each a
    string or missing. *)
Definition get_authorize (cfg : config) (now : Z) (rnd : string)
    (state redirect_uri client_id : option string) (st : t) : authorize_reply * t :=
  if same state "mcp-auth" then
    (LoginForm (text_of state)
       (if absent redirect_uri then BASE_URI cfg +:+ "/callback" else text_of redirect_uri),
     st)
  else
    let sessionId := fresh_code rnd in
    let st :=
      store_set (auth_session_key sessionId)
        (JObj [("originalState", js_of state);
               ("redirectUri", js_of redirect_uri);
               ("clientId", js_of client_id)]) st in
    let st := setTimeout_delete now (SESSION_TIMEOUT cfg) (auth_session_key sessionId) st in
    (ToLoginForm (BASE_URI cfg +:+ "/callback?session=" +:+ sessionId), st).

(** *** [app.get("/callback", ...)] *)

(** A redirect to the client, or one of the two closing pages. *)
Inductive callback_reply :=
| ToClient (url : string)
| Complete (direct : bool).

(** The query parameters [state], [code] and [session]; [token] is read
    and not used. *)
Definition get_callback (w : world) (state code session : option string) (st : t)
    : callback_reply * t :=
  let closing := (Complete (same state "mcp-auth"), st) in
  if absent session then closing
  else
    match sessionStore st !! auth_session_key (text_of session) with
    | Some sessionData =>
        if truthy sessionData && negb (absent code) then
          let finalCallbackUrl :=
            js_to_string w (js_index sessionData "redirectUri") +:+ "?" +:+
            with_state w (js_index sessionData "originalState") (text_of code) in
          (ToClient finalCallbackUrl, store_delete (auth_session_key (text_of session)) st)
        else closing
    | None => closing
    end.

(** *** Runs of a server *)

(** The two OAuth2 servers of the repository.  The one with Auth0
    registers [GET /authorize] twice and [POST /token] twice; the other
    registers only the later handler of each pair. *)
Inductive server :=
| Hybrid
| RezoomexOnly.

Definition table_of (s : server) : list (string * string * handler) :=
  match s with
  | Hybrid => routes
  | RezoomexOnly => rezoomex_routes
  end.

Inductive event :=
| Post (w : world) (rnd : string) (req : request)
| Register (rnd : string) (client_name redirect_uris : jsval)
| Authorize (rnd : string) (state redirect_uri client_id : option string)
| Callback (w : world) (state code session : option string).

(** The state after one request served at [now].  On the server with
    Auth0, [GET /authorize] is answered by the first registration, which
    sends a redirect to Auth0 or the login form and touches no state. *)
Definition step (s : server) (cfg : config) (now : Z) (ev : event) (st : t) : t :=
  let st := run_timers now st in
  match ev with
  | Post w rnd req => snd (route (table_of s) cfg w now rnd req st)
  | Register rnd client_name redirect_uris =>
      snd (post_register cfg now rnd client_name redirect_uris st)
  | Authorize rnd state redirect_uri client_id =>
      match s with
      | Hybrid => st
      | RezoomexOnly => snd (get_authorize cfg now rnd state redirect_uri client_id st)
      end
  | Callback w state code session => snd (get_callback w state code session st)
  end.

Definition run (s : server) (cfg : config) (events : list (Z * event)) (st : t) : t :=
  foldl (fun st '(now, ev) => step s cfg now ev st) st events.


End OAuthServer.

(** ** The stdio server ([MCPServer]) *)

Module StdioServer.

Import JsonRpc.

(** The value stored under the key ['current'] of [this.sessions]. *)
Record current := {
  sessionId : string;
  client : RezoomexApiClient.t
}.

(** [this.authManager] and [this.sessions], a map that only ever holds
    the key ['current']. *)
Record t := {
  authManager : AuthManager.t;
  sessions : option current
}.

Definition new (am : AuthManager.t) : t := {| authManager := am; sessions := None |}.

(** [v === 'literal']. *)
Definition equals (v : jsval) (literal : string) : bool :=
  match v with
  | JStr s => String.eqb s literal
  | _ => false
  end.

(** The array literal of [handleToolsList]. *)
Definition tools : list MCPTools.tool := [
  MCPTools.mk "authenticate"
    [("email", MCPTools.str); ("password", MCPTools.str)]
    ["email"; "password"];
  MCPTools.mk "list_user_stories"
    [("project_id", MCPTools.str); ("persona_id", MCPTools.str)]
    ["project_id"; "persona_id"];
  MCPTools.mk "get_user_story"
    [("project_id", MCPTools.str); ("parent_id", MCPTools.str); ("story_id", MCPTools.str)]
    ["project_id"; "parent_id"; "story_id"]
].

(** The [try] block of [handleAuthLogin]; [uuid] is the result of
    [uuidv4()]. *)
Definition login (w : world) (now : Z) (uuid : string) (request : jsval) (st : t)
    : completion (JsonRpc.response * t) :=
  arguments <- js_get (js_index request "params") "arguments" ;;
  email <- js_get arguments "email" ;;
  password <- js_get arguments "password" ;;
  if negb (truthy email) || negb (truthy password)
  then Throw (Error "Email and password are required")
  else
    data <- login_request w email password ;;
    access_token <- js_get data "access_token" ;;
    if truthy access_token
    then
      let sessionId := uuid in
      match AuthManager.authenticateWithToken w now (js_to_string w access_token)
              sessionId (authManager st) with
      | (Some client, am) =>
          Return (Result (js_index request "id")
                    (Authenticated sessionId
                       (js_or (js_get_opt (RezoomexApiClient.userInfo client) "email")
                              (JStr "Unknown"))),
                  {| authManager := am;
                     sessions := Some {| sessionId := sessionId; client := client |} |})
      | (None, _) => Throw (Error "Failed to authenticate with received token")
      end
    else Throw (Error "No access token received").

(** [error.response?.data?.error_description || error.message]. *)
Definition describe (w : world) (e : exn) : string :=
  match e with
  | AxiosError m _ (Some (_, data)) =>
      js_to_string w (js_or (js_get_opt data "error_description") (JStr m))
  | _ => message_of e
  end.

Definition handleAuthLogin (w : world) (now : Z) (uuid : string) (request : jsval) (st : t)
    : list call * JsonRpc.response * t :=
  match login w now uuid request st with
  | Return (r, st) => ([], r, st)
  | Throw e =>
      ([], Failure (js_index request "id") (-32603)
             ("Authentication failed: " +:+ describe w e), st)
  end.

(** The [switch] of [handleToolCall].  The class [RezoomexApiClient]
    defines no method [getUserStory]: that call throws a [TypeError]
    once its arguments are evaluated. *)
Definition dispatch (w : world) (client : RezoomexApiClient.t) (name args : jsval)
    : upstream jsval :=
  if equals name "list_user_stories" then
    a <~ ulift (js_get args "project_id") ;;
    b <~ ulift (js_get args "persona_id") ;;
    RezoomexApiClient.invoke w client "getUserStories" [a; b]
  else if equals name "get_user_story" then
    _ <~ ulift (js_get args "project_id") ;;
    _ <~ ulift (js_get args "parent_id") ;;
    _ <~ ulift (js_get args "story_id") ;;
    uthrow TypeError
  else
    name <~ ulift (ToString w name) ;;
    uthrow (Error ("Unknown tool: " +:+ name)).

Definition handleToolCall (w : world) (now : Z) (uuid : string) (request : jsval) (st : t)
    : list call * JsonRpc.response * t :=
  let rid := js_index request "id" in
  match js_get (js_index request "params") "name",
        js_get (js_index request "params") "arguments" with
  | Return name, Return args =>
      if equals name "authenticate" then handleAuthLogin w now uuid request st
      else
        match sessions st with
        | None =>
            ([], Failure rid (-32603) "Not authenticated. Please call authenticate tool first.",
             st)
        | Some session =>
            match dispatch w (client session) name args with
            | (tr, Return result) => (tr, Result rid (ToolOutput result), st)
            | (tr, Throw e) => (tr, Failure rid (-32603) (message_of e), st)
            end
        end
  | Throw e, _ | _, Throw e => ([], Failure rid (-32603) (message_of e), st)
  end.

(** [handleMessage(message)]: the response written to the output and the
    state afterwards.  [message] is the value that [JSON.parse] returns,
    or [None] when it throws. *)
Definition handleMessage (w : world) (now : Z) (uuid : string) (message : option jsval)
    (st : t) : list call * JsonRpc.response * t :=
  let parse_error := ([], Failure JNull (-32700) "Parse error", st) in
  match message with
  | None => parse_error
  | Some request =>
      match js_get request "method" with
      | Throw _ => parse_error
      | Return method =>
          let rid := js_index request "id" in
          if equals method "initialize" then
            ([], Result rid (Initialize "2024-11-05" ["tools"; "resources"]
                               "rezoomex-mcp-server"), st)
          else if equals method "tools/list" then ([], Result rid (Tools tools), st)
          else if equals method "tools/call" then handleToolCall w now uuid request st
          else if equals method "auth/login" then handleAuthLogin w now uuid request st
          else
            match ToString w method with
            | Return method => ([], Failure rid (-32601) ("Method not found: " +:+ method), st)
            | Throw _ => parse_error
            end
      end
  end.

(** The messages of a run, each with the world, the time and the
    identifier drawn while it is handled. *)
Definition run (messages : list (world * Z * string * option jsval)) (st : t) : t :=
  foldl (fun st '(w, now, uuid, message) => snd (handleMessage w now uuid message st))
        st messages.

End StdioServer.


(** ** Test doubles for the world *)

Module Stub.

(** An account of the upstream identity endpoint. *)
Record account := {
  email : string;
  password : string;
  credential : string
}.

Definition unauthorized : exn :=
  AxiosError "Request failed with status code 401" "ERR_BAD_REQUEST" (Some (401, JNull)).

Definition is_text (s : string) (v : jsval) : bool :=
  match v with
  | JStr s' => String.eqb s s'
  | _ => false
  end.

Definition login (accounts : list account) (e p : jsval) : completion jsval :=
  match List.find (fun a => is_text (email a) e && is_text (password a) p) accounts with
  | Some a => Return (JObj [("access_token", JStr (credential a))])
  | None => Throw unauthorized
  end.

(** [GET /v1/users/me] accepts exactly the credentials in [live]. *)
Definition me (accounts : list account) (live : list string) (tok : string)
    : completion (Z * jsval) :=
  match List.find (fun a => String.eqb (credential a) tok) accounts with
  | Some a =>
      if bool_decide (tok ∈ live)
      then Return (200, JObj [("id", JStr ("user-" +:+ email a)); ("email", JStr (email a))])
      else Throw unauthorized
  | None => Throw unauthorized
  end.

(** Every operation of a handle answers with the credential it was
    invoked with, which tags the handle. *)
Definition tagged (tok op : string) (args : list jsval) : completion jsval :=
  Return (JObj [("servedWith", JStr tok)]).

Definition pairs (l : list (string * string)) : string :=
  MCPTools.join "&" (map (fun kv => fst kv +:+ "=" +:+ snd kv) l).

(** A world with the given accounts in which the credentials in [live]
    pass validation.  Coercions of the runtime that no example exercises
    answer [NaN] and ["[object]"]. *)
Definition world_of (accounts : list account) (live : list string) : world :=
  {| ToNumberOf := fun _ => NNaN;
     ToStringOf := fun _ => "[object]";
     url_session_param := fun _ _ => Return None;
     form_urlencode := pairs;
     login_api := login accounts;
     me_api := me accounts live;
     api_call := tagged;
     auth0_exchange := fun _ _ => Throw (Error "Token exchange failed") |}.

Definition alice : account :=
  {| email := "alice@example.com"; password := "correct horse"; credential := "token-alice" |}.

Definition bob : account :=
  {| email := "bob@example.com"; password := "battery staple"; credential := "token-bob" |}.

(** Both accounts exist and both credentials are live. *)
Definition both_live : world := world_of [alice; bob] ["token-alice"; "token-bob"].

(** Both accounts exist; Alice's credential has been revoked upstream. *)
Definition alice_revoked : world := world_of [alice; bob] ["token-bob"].

Definition cfg : OAuthServer.config :=
  {| OAuthServer.BASE_URI := "http://localhost:3000";
     OAuthServer.SESSION_TIMEOUT := OAuthServer.SESSION_TIMEOUT_of None;
     OAuthServer.auth0 := None |}.


End Stub.

(** ** Requests and predicates used in the statements *)

(** The registry invariant: a session entry exists exactly for the session
    identifiers that have a handle. *)
Definition same_keys (am : AuthManager.t) : Prop :=
  dom (AuthManager.sessions am) = dom (AuthManager.clients am).

(** The upstream validation of a credential fails: the request fails, or
    it answers with a status other than 200. *)
Definition validation_fails (w : world) (bearerToken : string) : Prop :=
  match me_api w bearerToken with
  | Return (status, _) => status ≠ 200
  | Throw _ => True
  end.

(** A value that a declared field must not have: one of the wrong
    primitive type, below the declared minimum or above the declared
    maximum. *)
Definition wrong_value (w : world) (fs : MCPTools.fieldSchema) (v : jsval) : Prop :=
  (MCPTools.type fs = "string" ∧ is_string v = false)
  ∨ (MCPTools.type fs = "integer" ∧ Number_isInteger v = false)
  ∨ (∃ m, MCPTools.minimum fs = Some m ∧ js_lt_bound w v m = Return true)
  ∨ (∃ m, MCPTools.maximum fs = Some m ∧ js_gt_bound w v m = Return true).

(** Follows the spec's words: an argument object that validation must
    reject against a schema: a required field that is missing, [null] or
    [undefined]; or a declared field that is present with a value of the
    wrong primitive type, below the declared minimum or above the declared
    maximum. *)
Definition violates (w : world) (s : MCPTools.schema) (input : list (string * jsval)) : Prop :=
  (∃ f, f ∈ MCPTools.required s ∧
        (assoc f input = None ∨ assoc f input = Some JNull ∨ assoc f input = Some JUndefined))
  ∨ (∃ f fs v, (f, fs) ∈ MCPTools.properties s ∧ assoc f input = Some v ∧
        ((MCPTools.type fs = "string" ∧ is_string v = false)
         ∨ (MCPTools.type fs = "integer" ∧ Number_isInteger v = false)
         ∨ (∃ m, MCPTools.minimum fs = Some m ∧ js_lt_bound w v m = Return true)
         ∨ (∃ m, MCPTools.maximum fs = Some m ∧ js_gt_bound w v m = Return true))).

(** The parameters that [executeToolWithProgress] converts to a string
    (in a progress message, or as the argument of [parseInt]) before its
    first upstream call. *)
Definition converted (toolName : string) : list string :=
  if String.eqb toolName "get_story_range" then ["start_number"; "end_number"]
  else if String.eqb toolName "get_single_story_details" then ["story_number"]
  else if String.eqb toolName "find_project_by_name" then ["project_name"]
  else if String.eqb toolName "find_persona_by_name" then ["persona_name"]
  else [].

(** An argument object on which a bound cannot be evaluated: a declared
    field with a [minimum] or a [maximum] is present with a value whose
    conversion to a number throws. *)
Definition unorderable (s : MCPTools.schema) (input : list (string * jsval)) : Prop :=
  ∃ f fs v, (f, fs) ∈ MCPTools.properties s ∧ assoc f input = Some v ∧
    (is_Some (MCPTools.minimum fs) ∨ is_Some (MCPTools.maximum fs)) ∧
    unprintable v = true.

(** Follows the spec's words: the catalogue without the authentication tool. *)
Definition catalog_without_authenticate : list MCPTools.tool :=
  List.filter (fun t => negb (String.eqb (MCPTools.name t) "authenticate")) MCPTools.toolDefinitions.

(** A [tools/list] request body. *)
Definition tools_list (rid : jsval) : JsonRpc.request :=
  {| JsonRpc.id := rid; JsonRpc.method := "tools/list"; JsonRpc.params := None |}.

(** A [tools/call] request body. *)
Definition tools_call (rid : jsval) (name : string) (arguments : jsval) : JsonRpc.request :=
  {| JsonRpc.id := rid; JsonRpc.method := "tools/call";
     JsonRpc.params := Some {| JsonRpc.name := name; JsonRpc.arguments := arguments |} |}.

(** [POST /token] with [grant_type=authorization_code], the code and an
    optional [client_id]. *)
Definition redeem (code : string) (client_id : option string) : OAuthServer.request :=
  {| OAuthServer.verb := "POST";
     OAuthServer.path := "/token";
     OAuthServer.authorization := None;
     OAuthServer.body :=
       OAuthServer.Form
         ([("grant_type", "authorization_code"); ("code", code)]
          ++ match client_id with
             | Some c => [("client_id", c)]
             | None => []
             end) |}.

(** [POST /authenticate] with the fields of the credential form. *)
Definition submit (email password state redirect_uri : string) : OAuthServer.request :=
  {| OAuthServer.verb := "POST";
     OAuthServer.path := "/authenticate";
     OAuthServer.authorization := None;
     OAuthServer.body :=
       OAuthServer.Form
         [("email", email); ("password", password); ("state", state);
          ("redirect_uri", redirect_uri)] |}.

(** [POST /v1/sse] with a bearer credential. *)
Definition v1_sse (bearer : string) (r : JsonRpc.request) : OAuthServer.request :=
  {| OAuthServer.verb := "POST";
     OAuthServer.path := "/v1/sse";
     OAuthServer.authorization := Some ("Bearer " +:+ bearer);
     OAuthServer.body := OAuthServer.Rpc r |}.

(** The request is not one that [POST /token] hands to Auth0. *)
Definition not_for_auth0 (cfg : OAuthServer.config) (client_id : option string) : Prop :=
  match OAuthServer.auth0 cfg with
  | Some AUTH0_CLIENT_ID => client_id ≠ Some AUTH0_CLIENT_ID
  | None => True
  end.


(** The OAuth error [invalid_grant]. *)
Definition invalid_grant (r : OAuthServer.response) : Prop :=
  ∃ description, r = OAuthServer.oauth_error 400 "invalid_grant" description.


(** The [access_token] member of a response body. *)
Definition access_token_of (r : OAuthServer.response) : jsval :=
  match r with
  | OAuthServer.Json _ body => js_index body "access_token"
  | _ => JUndefined
  end.

(** [POST /sse] without an [X-Session-ID] header. *)
Definition sse (r : JsonRpc.request) : Server.request :=
  {| Server.x_session_id := None; Server.body := r |}.

(** The in-band login of an account: [tools/call] of [authenticate]. *)
Definition sse_login (rid : jsval) (a : Stub.account) : Server.request :=
  sse (tools_call rid "authenticate"
         (JObj [("email", JStr (Stub.email a)); ("password", JStr (Stub.password a))])).

(** Every call of a trace went through a handle built from [bearer]. *)
Definition all_via (bearer : string) (tr : list call) : Prop :=
  Forall (fun c => via c = bearer) tr.

(** Whether one pass that deletes the keys of the entries satisfying [P]
    deletes the key [k]. *)
Definition pruned {A} (P : A -> bool) (l : list (string * A)) (k : string) : bool :=
  existsb (fun e => String.eqb (fst e) k && P (snd e)) l.

(** The operation registers a handle under [sid]. *)
Definition registers (sid : string) (o : AuthManager.op) : Prop :=
  match o with
  | AuthManager.AuthenticateWithToken _ _ _ sessionId => sessionId = sid
  | _ => False
  end.

(** A value that is neither an object nor an array. *)
Definition primitive (v : jsval) : bool :=
  match v with
  | JObj _ | JArr _ => false
  | _ => true
  end.

(** Every entry of the session store has a deletion pending. *)
Definition covered (st : OAuthServer.t) : Prop :=
  ∀ k, is_Some (OAuthServer.sessionStore st !! k) →
       ∃ due, (due, k) ∈ OAuthServer.timers st.

(** Every pending deletion is due by [bound]. *)
Definition due_by (bound : Z) (st : OAuthServer.t) : Prop :=
  ∀ tm, tm ∈ OAuthServer.timers st → fst tm ≤ bound.

(** A handler that leaves the pending deletions in place, schedules
    further ones at [due] and adds no entry without scheduling its
    deletion. *)
Definition extends (due : Z) (st st' : OAuthServer.t) : Prop :=
  ∃ extra,
    OAuthServer.timers st' = OAuthServer.timers st ++ extra
    ∧ (∀ tm, tm ∈ extra → fst tm = due)
    ∧ ∀ k, is_Some (OAuthServer.sessionStore st' !! k) →
           is_Some (OAuthServer.sessionStore st !! k) ∨ (due, k) ∈ extra.


(** No authorization session is on record. *)
Definition no_auth_session (st : OAuthServer.t) : Prop :=
  ∀ sessionId,
    OAuthServer.sessionStore st !! OAuthServer.auth_session_key sessionId = None.

(** The [session] parameter of a URL whose query is [session=<value>]. *)
Definition session_param (uri : option string) (base : string)
    : completion (option string) :=
  match uri with
  | Some u =>
      match String.index 0 "?session=" u with
      | Some i => Return (Some (String.substring (i + 9) (String.length u - (i + 9)) u))
      | None => Return None
      end
  | None => Return None
  end.

(** A world whose URL library reads that parameter. *)
Definition reading_session (w : world) : world :=
  {| ToNumberOf := ToNumberOf w;
     ToStringOf := ToStringOf w;
     url_session_param := session_param;
     form_urlencode := form_urlencode w;
     login_api := login_api w;
     me_api := me_api w;
     api_call := api_call w;
     auth0_exchange := auth0_exchange w |}.


(** * Properties *)

(** Decide the comparisons of string literals that stand in the goal. *)
Ltac string_tests :=
  repeat match goal with
         | |- context [String.eqb ?a ?b] =>
             let r := eval vm_compute in (String.eqb a b) in
             match r with
             | true => change (String.eqb a b) with true
             | false => change (String.eqb a b) with false
             end
         end;
  cbv iota.

(** ** The session registry *)

Section registry.

Import AuthManager.

Implicit Types (am : AuthManager.t) (w : world) (now : Z).

Lemma same_keys_new s1 s2 : same_keys (new s1 s2).
Proof. unfold same_keys. simpl. by rewrite !dom_empty_L. Qed.

Lemma same_keys_authenticateWithToken w now tok sid am :
  same_keys am → same_keys (snd (authenticateWithToken w now tok sid am)).
Proof.
  unfold same_keys, authenticateWithToken. intros Hinv.
  destruct (RezoomexApiClient.validateSession w _) as [[|] c]; simpl; [|done].
  rewrite !dom_insert_L. by rewrite Hinv.
Qed.

Lemma same_keys_getClient now sid am :
  same_keys am → same_keys (snd (getClient now sid am)).
Proof.
  unfold same_keys, getClient. intros Hinv.
  destruct sid as [sid|]; [|done].
  destruct (String.eqb sid EmptyString); [done|].
  destruct (clients am !! sid) as [c|] eqn:Hc; [|done]. simpl.
  rewrite dom_insert_L, Hinv.
  apply subseteq_union_1_L, singleton_subseteq_l, elem_of_dom. eauto.
Qed.

Lemma same_keys_clearSession sid am : same_keys am → same_keys (clearSession sid am).
Proof.
  unfold same_keys, clearSession. simpl. intros Hinv.
  by rewrite !dom_delete_L, Hinv.
Qed.

Lemma same_keys_cleanupExpiredSessions now am :
  same_keys am → same_keys (cleanupExpiredSessions now am).
Proof.
  unfold cleanupExpiredSessions.
  generalize (map_to_list (sessions am)). intros entries. revert am.
  induction entries as [|[sid s] entries IH]; intros am Hinv; [done|].
  simpl. apply IH.
  destruct (expired now (sessionTimeout am) s); [|done].
  unfold same_keys in *. simpl. by rewrite !dom_delete_L, Hinv.
Qed.

Lemma same_keys_validateOne w acc entry :
  same_keys (snd acc) → same_keys (snd (validateOne w acc entry)).
Proof.
  destruct acc as [results am], entry as [sid c]. simpl. intros Hinv.
  destruct (RezoomexApiClient.validateSession w c) as [isValid c'].
  assert (same_keys (set_clients (alter (λ _, c') sid) am)) as Hinv'.
  { unfold same_keys in *. simpl. by rewrite dom_alter_L. }
  destruct isValid; simpl; [done|]. by apply same_keys_clearSession.
Qed.

Lemma same_keys_validateAllSessions w am :
  same_keys am → same_keys (snd (validateAllSessions w am)).
Proof.
  unfold validateAllSessions. intros Hinv.
  assert (same_keys (snd (@nil (string * bool), am))) as Hacc by done.
  revert Hacc. generalize (@nil (string * bool), am).
  induction (map_to_list (clients am)) as [|entry entries IH]; intros acc Hacc; [done|].
  simpl. apply IH. by apply same_keys_validateOne.
Qed.

Lemma same_keys_cleanup am : same_keys (cleanup am).
Proof. unfold same_keys. simpl. by rewrite !dom_empty_L. Qed.

Lemma same_keys_step am o : same_keys am → same_keys (step am o).
Proof.
  intros Hinv. destruct o; simpl.
  - by apply same_keys_authenticateWithToken.
  - by apply same_keys_getClient.
  - by apply same_keys_clearSession.
  - by apply same_keys_cleanupExpiredSessions.
  - by apply same_keys_validateAllSessions.
  - apply same_keys_cleanup.
Qed.

Lemma same_keys_run ops am : same_keys am → same_keys (run ops am).
Proof.
  unfold run. revert am.
  induction ops as [|o ops IH]; intros am Hinv; [done|].
  simpl. apply IH. by apply same_keys_step.
Qed.

(** C10. Whatever sequence of [authenticateWithToken], [getClient],
    [clearSession], [cleanupExpiredSessions], [validateAllSessions] and
    [cleanup] has run on a freshly constructed registry, the key set of
    [sessions] equals the key set of [clients]. *)
Theorem sessions_and_clients_share_keys (ops : list op) (s1 s2 : option Z) :
  dom (sessions (run ops (new s1 s2))) = dom (clients (run ops (new s1 s2))).
Proof. apply same_keys_run, same_keys_new. Qed.

(** A handle is validated by [GET /v1/users/me] answering 200. *)
Lemma validateSession_false w c :
  validation_fails w (RezoomexApiClient.bearerToken c) →
  fst (RezoomexApiClient.validateSession w c) = false.
Proof.
  unfold validation_fails, RezoomexApiClient.validateSession.
  destruct (me_api w _) as [[status data]|e]; [|done].
  intros Hne. destruct (status =? 200) eqn:E; [lia|done].
Qed.

(** C6. When the upstream validation of the bearer credential fails (its
    request fails, or answers with a status other than 200),
    [authenticateWithToken] returns [null] and leaves the registry as it
    was: neither [sessions] nor [clients] gains an entry. *)
Theorem authenticateWithToken_failure_stores_nothing
    w now (bearerToken sessionId : string) am :
  validation_fails w bearerToken →
  authenticateWithToken w now bearerToken sessionId am = (None, am).
Proof.
  intros Hfail. unfold authenticateWithToken.
  pose proof (validateSession_false w (RezoomexApiClient.new bearerToken) Hfail) as Hv.
  destruct (RezoomexApiClient.validateSession w _) as [isValid c].
  simpl in Hv. by subst isValid.
Qed.

Lemma authenticateWithToken_failure_witness :
  validation_fails Stub.alice_revoked "token-alice" ∧
  authenticateWithToken Stub.alice_revoked 1000 "token-alice" "s1" (new None None)
  = (None, new None None).
Proof.
  split.
  - exact I.
  - apply (authenticateWithToken_failure_stores_nothing
             Stub.alice_revoked 1000 "token-alice" "s1" (new None None)).
    exact I.
Defined.

(** An identifier without a handle resolves to [null]. *)
Lemma getClient_unregistered now (sid : string) am :
  clients am !! sid = None → getClient now (Some sid) am = (None, am).
Proof.
  intros Hnone. unfold getClient.
  destruct (String.eqb sid EmptyString); [done|]. by rewrite Hnone.
Qed.

(** [getClient] never looks at [createdAt]: any registered handle is
    returned, and its session is stamped with the current time. *)
Lemma getClient_registered now (sid : string) am c :
  sid ≠ EmptyString → clients am !! sid = Some c →
  getClient now (Some sid) am
  = (Some c, set_sessions <[sid := {| createdAt := now |}]> am).
Proof.
  intros Hne Hc. unfold getClient.
  destruct (String.eqb_spec sid EmptyString); [done|]. by rewrite Hc.
Qed.

End registry.

(** C5 (the code departs from the claim).  A session registered at time 0
    with the default timeout of 24 hours is past its time to live one
    millisecond after the 24 hours: the sweep run at that instant removes
    it.  As long as the sweep has not run, [getClient] at that same instant
    returns the handle, and stamps the session as new so that the next
    sweep keeps it. *)
Theorem getClient_returns_session_past_its_timeout :
  let am := snd (AuthManager.authenticateWithToken Stub.both_live 0 "token-alice" "s1"
                   (AuthManager.new None None)) in
  let now := 86400000 + 1 in
  AuthManager.sessions am !! "s1" = Some {| AuthManager.createdAt := 0 |}
  ∧ AuthManager.expired now (AuthManager.sessionTimeout am) {| AuthManager.createdAt := 0 |} = true
  ∧ AuthManager.clients (AuthManager.cleanupExpiredSessions now am) !! "s1" = None
  ∧ RezoomexApiClient.bearerToken <$> fst (AuthManager.getClient now (Some "s1") am)
    = Some "token-alice"
  ∧ AuthManager.clients
      (AuthManager.cleanupExpiredSessions now (snd (AuthManager.getClient now (Some "s1") am)))
      !! "s1" ≠ None.
Proof. vm_compute. repeat split; congruence. Qed.

(** The sibling read path of the temporary tokens does check the age of
    the entry it reads: a token older than its timeout is not returned. *)
Lemma getTempToken_expired now tokenId am tokenData :
  AuthManager.tempTokens am !! tokenId = Some tokenData →
  now - AuthManager.tokenCreatedAt tokenData > AuthManager.tempTokenTimeout am →
  fst (AuthManager.getTempToken now tokenId am) = None.
Proof.
  intros Hsome Hold. unfold AuthManager.getTempToken. rewrite Hsome.
  destruct (Z.gtb_spec (now - AuthManager.tokenCreatedAt tokenData)
                       (AuthManager.tempTokenTimeout am)); [done|lia].
Qed.

(** ** Argument validation and dispatch *)

Section validation.

Import MCPTools.

Implicit Types (w : world) (errors : list string) (input : jsval).

Lemma check_type_grows f fs v errors :
  (length errors ≤ length (check_type f fs v errors))%nat.
Proof.
  unfold check_type.
  repeat case_match; rewrite ?length_app; simpl; lia.
Qed.

Lemma check_type_clean f fs v errors :
  ¬ (type fs = "string" ∧ is_string v = false) →
  ¬ (type fs = "integer" ∧ Number_isInteger v = false) →
  check_type f fs v errors = errors.
Proof.
  intros Hstr Hint. unfold check_type.
  destruct (String.eqb_spec (type fs) "integer") as [Ei|Ei];
    destruct (Number_isInteger v) eqn:Hi; simpl; try tauto.
  - destruct (String.eqb_spec (type fs) "string"); [congruence|done].
  - destruct (String.eqb_spec (type fs) "string") as [Es|Es];
      destruct (is_string v) eqn:Hs; simpl; tauto.
  - destruct (String.eqb_spec (type fs) "string") as [Es|Es];
      destruct (is_string v) eqn:Hs; simpl; tauto.
Qed.

Lemma check_type_rejects f fs v errors :
  (type fs = "string" ∧ is_string v = false)
  ∨ (type fs = "integer" ∧ Number_isInteger v = false) →
  length (check_type f fs v errors) = S (length errors).
Proof.
  unfold check_type.
  intros [[Ht Hv]|[Ht Hv]]; rewrite Ht, Hv; simpl; rewrite length_app; simpl; lia.
Qed.

(** The conversion to a number throws exactly on the values whose
    conversion to a primitive throws. *)
Lemma ToNumber_result w v :
  match ToNumber w v with
  | Return _ => unprintable v = false
  | Throw e => e = TypeError ∧ unprintable v = true
  end.
Proof.
  destruct v as [| |b|n|s|items|fields]; try done;
    unfold ToNumber; by destruct (unprintable _).
Qed.

(** A bound is compared whatever the type test found: the comparison
    throws a [TypeError] on a value that cannot be converted, and adds an
    error exactly for a value beyond the bound. *)
Lemma check_minimum_result w f fs v errors :
  match check_minimum w f fs v errors with
  | Return errors' =>
      (length errors ≤ length errors')%nat
      ∧ ((∃ m, minimum fs = Some m ∧ js_lt_bound w v m = Return true) →
         length errors' = S (length errors))
      ∧ (¬ (∃ m, minimum fs = Some m ∧ js_lt_bound w v m = Return true) → errors' = errors)
      ∧ ¬ (is_Some (minimum fs) ∧ unprintable v = true)
  | Throw e => e = TypeError ∧ is_Some (minimum fs) ∧ unprintable v = true
  end.
Proof.
  pose proof (ToNumber_result w v) as Hnum.
  unfold check_minimum, js_lt_bound.
  destruct (minimum fs) as [m|].
  - destruct (ToNumber w v) as [n|e]; cbn [bind]; [|by destruct Hnum].
    destruct (jsnum_lt n (NFin (inject_Z m))) eqn:Hlt.
    + rewrite length_app. simpl. split; [lia|]. split; [intros _; lia|]. split.
      * intros Hno. exfalso. apply Hno. exists m. split; [done|].
        exact (f_equal Return Hlt).
      * intros [_ Hu]. congruence.
    + split; [lia|]. split.
      * intros (m' & [= <-] & [= Hm']).
        change (jsnum_lt n (NFin (inject_Z m)) = true) in Hm'. congruence.
      * split; [done|]. intros [_ Hu]. congruence.
  - split; [lia|]. split; [by intros (m & ? & _)|]. split; [done|].
    intros [[m Hm] _]. done.
Qed.

Lemma check_maximum_result w f fs v errors :
  match check_maximum w f fs v errors with
  | Return errors' =>
      (length errors ≤ length errors')%nat
      ∧ ((∃ m, maximum fs = Some m ∧ js_gt_bound w v m = Return true) →
         length errors' = S (length errors))
      ∧ (¬ (∃ m, maximum fs = Some m ∧ js_gt_bound w v m = Return true) → errors' = errors)
      ∧ ¬ (is_Some (maximum fs) ∧ unprintable v = true)
  | Throw e => e = TypeError ∧ is_Some (maximum fs) ∧ unprintable v = true
  end.
Proof.
  pose proof (ToNumber_result w v) as Hnum.
  unfold check_maximum, js_gt_bound.
  destruct (maximum fs) as [m|].
  - destruct (ToNumber w v) as [n|e]; cbn [bind]; [|by destruct Hnum].
    destruct (jsnum_lt (NFin (inject_Z m)) n) eqn:Hgt.
    + rewrite length_app. simpl. split; [lia|]. split; [intros _; lia|]. split.
      * intros Hno. exfalso. apply Hno. exists m. split; [done|].
        exact (f_equal Return Hgt).
      * intros [_ Hu]. congruence.
    + split; [lia|]. split.
      * intros (m' & [= <-] & [= Hm']).
        change (jsnum_lt (NFin (inject_Z m)) n = true) in Hm'. congruence.
      * split; [done|]. intros [_ Hu]. congruence.
  - split; [lia|]. split; [by intros (m & ? & _)|]. split; [done|].
    intros [[m Hm] _]. done.
Qed.

(** One declared field that is present: the checks throw a [TypeError]
    exactly when the field has a bound and its value cannot be converted;
    otherwise they never drop an error, add one for a value of the wrong
    type or beyond a bound, and add none for a good value. *)
Lemma check_field_result w f fs v errors :
  match check_field w f fs v errors with
  | Return errors' =>
      (length errors ≤ length errors')%nat
      ∧ (wrong_value w fs v → (length errors < length errors')%nat)
      ∧ (¬ wrong_value w fs v → errors' = errors)
      ∧ ¬ ((is_Some (minimum fs) ∨ is_Some (maximum fs)) ∧ unprintable v = true)
  | Throw e =>
      e = TypeError
      ∧ (is_Some (minimum fs) ∨ is_Some (maximum fs)) ∧ unprintable v = true
  end.
Proof.
  pose proof (check_type_grows f fs v errors) as Hgrow.
  pose proof (check_type_clean f fs v errors) as Hclean.
  pose proof (check_type_rejects f fs v errors) as Hrej.
  pose proof (check_minimum_result w f fs v (check_type f fs v errors)) as Hmin.
  unfold check_field, wrong_value.
  destruct (check_minimum w f fs v (check_type f fs v errors)) as [e1|e]; simpl;
    [|destruct Hmin as (-> & Hb & Hu); by eauto].
  destruct Hmin as (Hle1 & Hlt1 & Heq1 & Hno1).
  pose proof (check_maximum_result w f fs v e1) as Hmax.
  destruct (check_maximum w f fs v e1) as [e2|e];
    [|destruct Hmax as (-> & Hb & Hu); by eauto].
  destruct Hmax as (Hle2 & Hlt2 & Heq2 & Hno2).
  split; [lia|]. split; [|split].
  - intros [Hs|[Hi|[Hm|Hm]]].
    + specialize (Hrej (or_introl Hs)). lia.
    + specialize (Hrej (or_intror Hi)). lia.
    + specialize (Hlt1 Hm). lia.
    + specialize (Hlt2 Hm). lia.
  - intros Hgood. rewrite Heq2, Heq1, Hclean; tauto.
  - intros [[Hb|Hb] Hu]; tauto.
Qed.

Lemma js_in_object k fields :
  js_in k (JObj fields) = Return (bool_decide (is_Some (assoc k fields))).
Proof. reflexivity. Qed.

(** On an argument object the first loop does not throw, never drops an
    error, and adds one when a required field is missing or nullish. *)
Lemma check_required_object required fields errors :
  ∃ errors', check_required required (JObj fields) errors = Return errors'
    ∧ (length errors ≤ length errors')%nat
    ∧ ((∃ f, f ∈ required ∧
             (assoc f fields = None ∨ assoc f fields = Some JNull
              ∨ assoc f fields = Some JUndefined)) →
       (length errors < length errors')%nat).
Proof.
  revert errors. induction required as [|f rest IH]; intros errors.
  - exists errors. split; [done|]. split; [lia|].
    intros (f & Hin & _). by apply elem_of_nil in Hin.
  - simpl.
    destruct (negb (bool_decide (is_Some (assoc f fields)))
              || is_nullish (default JUndefined (assoc f fields))) eqn:Hmiss.
    + destruct (IH (errors ++ ["Missing required field: " +:+ f]))
        as (errors' & -> & Hle & _).
      rewrite length_app in Hle. simpl in Hle.
      exists errors'. split; [done|]. split; [lia|]. intros _. lia.
    + destruct (IH errors) as (errors' & -> & Hle & Hlt).
      exists errors'. split; [done|]. split; [lia|].
      intros (g & Hin & Hg). apply elem_of_cons in Hin as [->|Hin].
      * exfalso. destruct Hg as [Hg|[Hg|Hg]]; rewrite Hg in Hmiss; simpl in Hmiss; done.
      * apply Hlt. eauto.
Qed.

Lemma check_required_clean required fields errors :
  (∀ f, f ∈ required → ∃ v, assoc f fields = Some v ∧ is_nullish v = false) →
  check_required required (JObj fields) errors = Return errors.
Proof.
  revert errors. induction required as [|f rest IH]; intros errors Hall; [done|].
  simpl. destruct (Hall f) as (v & Hv & Hnn); [by left|].
  rewrite Hv. simpl. rewrite Hnn. simpl.
  apply IH. intros g Hg. apply Hall. by right.
Qed.

(** On an argument object the second loop throws a [TypeError] exactly
    when a bound cannot be evaluated; otherwise it never drops an error,
    adds one when a declared field is present with a bad value, and adds
    none when there is no such field. *)
Lemma check_properties_result w properties fields errors :
  match check_properties w properties (JObj fields) errors with
  | Return errors' =>
      (length errors ≤ length errors')%nat
      ∧ ((∃ f fs v, (f, fs) ∈ properties ∧ assoc f fields = Some v ∧ wrong_value w fs v) →
         (length errors < length errors')%nat)
      ∧ (¬ (∃ f fs v, (f, fs) ∈ properties ∧ assoc f fields = Some v ∧ wrong_value w fs v) →
         errors' = errors)
      ∧ ¬ (∃ f fs v, (f, fs) ∈ properties ∧ assoc f fields = Some v ∧
             (is_Some (minimum fs) ∨ is_Some (maximum fs)) ∧ unprintable v = true)
  | Throw e =>
      e = TypeError
      ∧ ∃ f fs v, (f, fs) ∈ properties ∧ assoc f fields = Some v ∧
          (is_Some (minimum fs) ∨ is_Some (maximum fs)) ∧ unprintable v = true
  end.
Proof.
  revert errors. induction properties as [|[f fs] rest IH]; intros errors.
  - simpl. split; [lia|]. split; [|split].
    + intros (f & fs & v & Hin & _). by apply elem_of_nil in Hin.
    + done.
    + intros (f & fs & v & Hin & _). by apply elem_of_nil in Hin.
  - simpl. destruct (assoc f fields) as [v|] eqn:Hv; simpl.
    + pose proof (check_field_result w f fs v errors) as Hfield.
      destruct (check_field w f fs v errors) as [e1|e]; simpl.
      * destruct Hfield as (Hle1 & Hlt1 & Heq1 & Hno1).
        specialize (IH e1).
        destruct (check_properties w rest (JObj fields) e1) as [e2|e].
        -- destruct IH as (Hle2 & Hlt2 & Heq2 & Hno2).
           split; [lia|]. split; [|split].
           ++ intros (g & gs & u & Hin & Hu & Hbad).
              apply elem_of_cons in Hin as [[= -> ->]|Hin].
              ** assert (u = v) as -> by congruence. specialize (Hlt1 Hbad). lia.
              ** assert (length e1 < length e2)%nat; [|lia]. apply Hlt2. eauto 10.
           ++ intros Hgood. rewrite Heq2, Heq1; [done| |].
              ** intros Hbad. apply Hgood. exists f, fs, v. split; [by left|done].
              ** intros (g & gs & u & Hin & Hrest). apply Hgood.
                 exists g, gs, u. split; [by right|done].
           ++ intros (g & gs & u & Hin & Hu & Hb & Hun).
              apply elem_of_cons in Hin as [[= -> ->]|Hin].
              ** assert (u = v) as -> by congruence. by apply Hno1.
              ** apply Hno2. eauto 10.
        -- destruct IH as (-> & g & gs & u & Hin & Hrest).
           split; [done|]. exists g, gs, u. split; [by right|done].
      * destruct Hfield as (-> & Hb & Hun).
        split; [done|]. exists f, fs, v. split; [by left|done].
    + specialize (IH errors).
      destruct (check_properties w rest (JObj fields) errors) as [e2|e].
      * destruct IH as (Hle2 & Hlt2 & Heq2 & Hno2).
        split; [lia|]. split; [|split].
        -- intros (g & gs & u & Hin & Hu & Hbad).
           apply elem_of_cons in Hin as [[= -> ->]|Hin]; [congruence|].
           apply Hlt2. eauto 10.
        -- intros Hgood. apply Heq2.
           intros (g & gs & u & Hin & Hrest). apply Hgood.
           exists g, gs, u. split; [by right|done].
        -- intros (g & gs & u & Hin & Hu & Hrest).
           apply elem_of_cons in Hin as [[= -> ->]|Hin]; [congruence|].
           apply Hno2. eauto 10.
      * destruct IH as (-> & g & gs & u & Hin & Hrest).
        split; [done|]. exists g, gs, u. split; [by right|done].
Qed.

(** The refinement: on an argument object, [errors] is left non-empty
    by what the spec's words reject and empty by everything else, unless
    a bound cannot be evaluated, which throws a [TypeError]. *)
Lemma validation_errors_result w s fields :
  match validation_errors w s (JObj fields) with
  | Return errors =>
      (violates w s fields → (0 < length errors)%nat)
      ∧ (¬ violates w s fields → errors = [])
      ∧ ¬ unorderable s fields
  | Throw e => e = TypeError ∧ unorderable s fields
  end.
Proof.
  unfold validation_errors.
  destruct (check_required_object (required s) fields []) as (e1 & He1 & _ & Hlt1).
  assert (∃ e1', (if (0 <? length (required s))%nat
                  then check_required (required s) (JObj fields) []
                  else Return []) = Return e1'
                 ∧ ((∃ f, f ∈ required s ∧
                       (assoc f fields = None ∨ assoc f fields = Some JNull
                        ∨ assoc f fields = Some JUndefined)) →
                    (0 < length e1')%nat)
                 ∧ (¬ (∃ f, f ∈ required s ∧
                         (assoc f fields = None ∨ assoc f fields = Some JNull
                          ∨ assoc f fields = Some JUndefined)) →
                    e1' = [])) as (e1' & -> & Hreq & Hreq').
  { destruct (required s) as [|r rs] eqn:Hr.
    - exists []. split; [done|]. split; [|done].
      intros (f & Hin & _). by apply elem_of_nil in Hin.
    - exists e1. split; [done|]. split.
      + intros Hex. specialize (Hlt1 Hex). simpl in Hlt1. lia.
      + intros Hnone. rewrite check_required_clean in He1; [congruence|].
        intros f Hf. destruct (assoc f fields) as [v|] eqn:Hv.
        * exists v. split; [done|].
          destruct v; try done; exfalso; apply Hnone; exists f; eauto.
        * exfalso. apply Hnone. exists f. eauto. }
  simpl.
  pose proof (check_properties_result w (properties s) fields e1') as Hprops.
  destruct (check_properties w (properties s) (JObj fields) e1') as [e2|e]; [|exact Hprops].
  destruct Hprops as (Hle2 & Hlt2 & Heq2 & Hno2).
  split; [|split; [|exact Hno2]].
  - intros [Hmissing|Hvalue].
    + specialize (Hreq Hmissing). lia.
    + specialize (Hlt2 Hvalue). lia.
  - intros Hgood. rewrite Heq2, Hreq'; [done| |].
    + intros Hmissing. apply Hgood. by left.
    + intros Hvalue. apply Hgood. by right.
Qed.

Lemma validateToolInput_returns_true w toolName input b :
  validateToolInput w toolName input = Return b → b = true.
Proof.
  unfold validateToolInput.
  destruct (getTool toolName) as [tool|]; [|done].
  destruct (validation_errors w (inputSchema tool) input) as [errors|e]; simpl; [|done].
  destruct (0 <? length errors)%nat; [done|]. congruence.
Qed.

(** What [validateToolInput] does with an argument object: it returns
    [true], throws the validation [Error] that lists what it found, or
    throws a [TypeError] from a comparison. *)
Lemma validateToolInput_result w toolName tool fields :
  getTool toolName = Some tool →
  match validateToolInput w toolName (JObj fields) with
  | Return b =>
      b = true ∧ ¬ violates w (inputSchema tool) fields
      ∧ ¬ unorderable (inputSchema tool) fields
  | Throw TypeError => unorderable (inputSchema tool) fields
  | Throw (Error message) =>
      ¬ ¬ violates w (inputSchema tool) fields ∧ ¬ unorderable (inputSchema tool) fields
      ∧ ∃ errors, message = "Validation errors: " +:+ join ", " errors
  | Throw _ => False
  end.
Proof.
  intros Htool. unfold validateToolInput. rewrite Htool.
  pose proof (validation_errors_result w (inputSchema tool) fields) as Hresult.
  destruct (validation_errors w (inputSchema tool) (JObj fields)) as [errors|e]; simpl.
  - destruct Hresult as (Hbad & Hgood & Hord).
    destruct (Nat.ltb_spec 0 (length errors)) as [Hpos|Hzero].
    + split; [|split; [done|by eexists]].
      intros Hv. rewrite (Hgood Hv) in Hpos. simpl in Hpos. lia.
    + split; [done|]. split; [|done]. intros Hv. specialize (Hbad Hv). lia.
  - by destruct Hresult as (-> & Hord).
Qed.

(** A validation that throws ends [callTool] before any operation of the
    handle is invoked. *)
Lemma callTool_stops_at_validation w toolName input client e :
  validateToolInput w toolName input = Throw e →
  callTool w toolName input client = ([], Throw e).
Proof.
  intros Hthrow. unfold callTool.
  destruct (hasTools toolName) eqn:Hhas; simpl.
  - by rewrite Hthrow.
  - unfold validateToolInput, hasTools, getTool in *.
    destruct (assoc toolName tools); [done|]. by injection Hthrow as <-.
Qed.

(** C7. In [callTool], argument validation comes before every operation of
    the upstream handle: whenever the handle is invoked at all,
    [validateToolInput] has returned [true] on the same arguments; and an
    argument object that lacks a required field, or holds a value of the
    wrong primitive type or outside a declared [minimum]/[maximum], makes
    [callTool] throw without a single upstream call.  What it throws is
    the validation [Error], unless a bound is compared with a value that
    cannot be converted to a number, which throws a [TypeError] first. *)
Theorem callTool_validates_before_upstream w (toolName : string) input
    (client : option RezoomexApiClient.t) :
  (fst (callTool w toolName input client) ≠ [] →
   validateToolInput w toolName input = Return true)
  ∧ (∀ tool fields,
       input = JObj fields →
       getTool toolName = Some tool →
       violates w (inputSchema tool) fields →
       ∃ e, callTool w toolName input client = ([], Throw e)
            ∧ (unorderable (inputSchema tool) fields → e = TypeError)
            ∧ (¬ unorderable (inputSchema tool) fields → ∃ message, e = Error message)).
Proof.
  split.
  - intros Hcalls.
    destruct (validateToolInput w toolName input) as [b|e] eqn:Hv.
    + by rewrite (validateToolInput_returns_true _ _ _ _ Hv).
    + rewrite (callTool_stops_at_validation w toolName input client e Hv) in Hcalls. done.
  - intros tool fields -> Htool Hbad.
    pose proof (validateToolInput_result w toolName tool fields Htool) as Hresult.
    destruct (validateToolInput w toolName (JObj fields)) as [b|e] eqn:Hv.
    + by destruct Hresult as (_ & Hgood & _).
    + exists e. split; [by apply callTool_stops_at_validation|].
      destruct e as [message| |m c r]; [|done..].
      destruct Hresult as (_ & Hord & _). split; [done|eauto].
Qed.

End validation.

Lemma callTool_validates_before_upstream_witness :
  let c := RezoomexApiClient.new "token-alice" in
  (fst (MCPTools.callTool Stub.both_live "get_user_info" (JObj []) (Some c)) ≠ []
   ∧ MCPTools.validateToolInput Stub.both_live "get_user_info" (JObj []) = Return true)
  ∧ (violates Stub.both_live
       (MCPTools.inputSchema (MCPTools.mk "get_project_overview"
                                [("project_id", MCPTools.str)] ["project_id"])) []
     ∧ ∃ message,
         MCPTools.callTool Stub.both_live "get_project_overview" (JObj []) (Some c)
         = ([], Throw (Error message))).
Proof.
  intros c. split.
  - assert (fst (MCPTools.callTool Stub.both_live "get_user_info" (JObj []) (Some c)) ≠ [])
      as Hcalls by (vm_compute; discriminate).
    split; [exact Hcalls|].
    exact (proj1 (callTool_validates_before_upstream
                    Stub.both_live "get_user_info" (JObj []) (Some c)) Hcalls).
  - assert (violates Stub.both_live
              (MCPTools.inputSchema (MCPTools.mk "get_project_overview"
                                       [("project_id", MCPTools.str)] ["project_id"])) [])
      as Hbad.
    { left. exists "project_id". split; [apply list_elem_of_here|by left]. }
    split; [exact Hbad|].
    destruct (proj2 (callTool_validates_before_upstream
                       Stub.both_live "get_project_overview" (JObj []) (Some c))
                _ [] eq_refl eq_refl Hbad) as (e & Hcall & _ & Herror).
    destruct Herror as [message ->].
    { intros (f & fs & v & _ & Hv & _). done. }
    by exists message.
Defined.

(** ** The tool list *)

Lemma getToolDefinitions_is_the_literal :
  MCPTools.getToolDefinitions = MCPTools.toolDefinitions.
Proof. reflexivity. Qed.

Lemma substring_whole (s : string) : String.substring 0 (String.length s) s = s.
Proof. induction s as [|a s IH]; simpl; [done|]. by rewrite IH. Qed.

(** The bearer credential that [POST /v1/sse] extracts from its header. *)
Lemma bearer_of_header (bearer : string) :
  String.prefix "Bearer " ("Bearer " +:+ bearer) = true
  ∧ String.substring 7 (String.length ("Bearer " +:+ bearer) - 7) ("Bearer " +:+ bearer)
    = bearer.
Proof.
  split.
  - simpl. by destruct bearer.
  - simpl. rewrite Nat.sub_0_r. apply substring_whole.
Qed.

(** C8 (counterexample).  On the in-band server, [POST /sse] answers
    [tools/list] with the whole catalogue: 25 tools, the authentication
    tool among them, where the catalogue without it has 24.  On the
    OAuth2 server, [POST /v1/sse] answers [tools/list] with no tool list
    at all unless the request carries a bearer credential that
    [verifyAccessToken] accepts: without an [Authorization] header the
    answer is 401 with error -32001, and with a credential the upstream
    does not know it is 500 with error -32603. *)
Lemma sse_tools_list_keeps_authenticate :
  (Server.sent (Server.post_sse Stub.both_live 0 (sse (tools_list (JInt 1)))
                  (AuthManager.new None None))
   = JsonRpc.Result (JInt 1) (JsonRpc.Tools MCPTools.getToolDefinitions)
   ∧ MCPTools.getToolDefinitions ≠ catalog_without_authenticate
   ∧ length MCPTools.getToolDefinitions = 25%nat
   ∧ length catalog_without_authenticate = 24%nat)
  ∧ snd (fst (OAuthServer.serve Stub.cfg Stub.both_live 0 "0.1"
                {| OAuthServer.verb := "POST";
                   OAuthServer.path := "/v1/sse";
                   OAuthServer.authorization := None;
                   OAuthServer.body := OAuthServer.Rpc (tools_list (JInt 1)) |}
                (OAuthServer.init (AuthManager.new None None))))
    = OAuthServer.JsonRpcReply 401
        (JsonRpc.Failure (JInt 1) (-32001) "Authentication required")
  ∧ snd (fst (OAuthServer.serve Stub.cfg Stub.both_live 0 "0.1"
                (v1_sse "token-mallory" (tools_list (JInt 1)))
                (OAuthServer.init (AuthManager.new None None))))
    = OAuthServer.JsonRpcReply 500 (JsonRpc.Failure (JInt 1) (-32603) "Internal error").
Proof. repeat split. vm_compute. discriminate. Qed.

(** C8 (amended).  [tools/list] on [POST /v1/sse], sent with a bearer
    credential that [verifyAccessToken] accepts, returns the catalogue
    with the authentication tool removed, one tool fewer than the
    catalogue; [tools/list] on [POST /sse] returns the whole catalogue. *)
Theorem tools_list_by_transport cfg w now rnd (rid : jsval) (bearer : string) st
    (userId : jsval) (header : option string) am :
  OAuthServer.verifyAccessToken w bearer = Return userId →
  (OAuthServer.serve cfg w now rnd (v1_sse bearer (tools_list rid)) st
   = ([], OAuthServer.JsonRpcReply 200
            (JsonRpc.Result rid (JsonRpc.Tools catalog_without_authenticate)),
      OAuthServer.run_timers now st)
   ∧ length catalog_without_authenticate = (length MCPTools.getToolDefinitions - 1)%nat)
  ∧ Server.sent (Server.post_sse w now
                   {| Server.x_session_id := header; Server.body := tools_list rid |} am)
    = JsonRpc.Result rid (JsonRpc.Tools MCPTools.getToolDefinitions).
Proof.
  intros Hverified. split; [split|]; [|reflexivity|reflexivity].
  unfold OAuthServer.serve, OAuthServer.app, OAuthServer.route. simpl List.find.
  cbv iota beta.
  unfold OAuthServer.post_v1_sse.
  cbn [v1_sse OAuthServer.authorization OAuthServer.body OAuthServer.as_rpc].
  destruct (bearer_of_header bearer) as [-> ->].
  rewrite Hverified, getToolDefinitions_is_the_literal.
  cbn [tools_list JsonRpc.method JsonRpc.id].
  string_tests. unfold OAuthServer.reply, catalog_without_authenticate.
  exact eq_refl.
Qed.

Lemma tools_list_by_transport_witness :
  OAuthServer.verifyAccessToken Stub.both_live "token-alice"
  = Return (JStr "user-alice@example.com")
  ∧ OAuthServer.serve Stub.cfg Stub.both_live 5 "0.4fzyo82mvyr"
      (v1_sse "token-alice" (tools_list (JInt 7)))
      (OAuthServer.init (AuthManager.new None None))
    = ([], OAuthServer.JsonRpcReply 200
             (JsonRpc.Result (JInt 7) (JsonRpc.Tools catalog_without_authenticate)),
       OAuthServer.run_timers 5 (OAuthServer.init (AuthManager.new None None))).
Proof.
  split; [reflexivity|].
  exact (proj1 (proj1 (tools_list_by_transport Stub.cfg Stub.both_live 5 "0.4fzyo82mvyr"
                         (JInt 7) "token-alice"
                         (OAuthServer.init (AuthManager.new None None))
                         (JStr "user-alice@example.com") None (AuthManager.new None None)
                         eq_refl))).
Defined.

(** ** Session keys *)

(** On [POST /v1/sse] the session key of a [tools/call] starts with the
    verified user id. *)
Lemma userSpecificSessionId_starts_with_user_id w (userId : string) now rnd :
  userId ≠ EmptyString →
  ∃ nonce, OAuthServer.userSpecificSessionId w (JStr userId) now rnd
           = "session_" +:+ userId +:+ nonce.
Proof.
  intros Hne. unfold OAuthServer.userSpecificSessionId, js_or. simpl.
  destruct (String.eqb_spec userId EmptyString); [done|]. simpl. eauto.
Qed.

(** On [POST /sse] the key under which a login stores its handle is the
    constant ["mcp-default"], whoever logs in. *)
Lemma sse_login_stores_under_mcp_default w now rid arguments am r am' :
  Server.authenticate_tool w now rid arguments am = Return (r, am') →
  ∃ client, AuthManager.clients am' !! "mcp-default" = Some client
            ∧ ∀ sid, sid ≠ "mcp-default" →
                     AuthManager.clients am' !! sid = AuthManager.clients am !! sid.
Proof.
  unfold Server.authenticate_tool. intros Hret.
  destruct (js_get arguments "email") as [email|]; simpl in Hret; [|done].
  destruct (js_get arguments "password") as [password|]; simpl in Hret; [|done].
  destruct (negb (truthy email) || negb (truthy password)); [done|].
  destruct (login_request w email password) as [data|]; simpl in Hret; [|done].
  destruct (js_get data "access_token") as [access_token|]; simpl in Hret; [|done].
  destruct (truthy access_token); [|done].
  unfold AuthManager.authenticateWithToken in Hret.
  destruct (RezoomexApiClient.validateSession w _) as [[|] c]; [|done].
  injection Hret as _ <-. simpl. exists c. split.
  - apply lookup_insert_eq.
  - intros sid Hsid. by rewrite lookup_insert_ne.
Qed.

(** C1 (the code departs from the claim).  Alice and then Bob log in over
    [POST /sse]; both are told the session ["mcp-default"].  Alice's next
    [tools/call] reaches the handle built from Bob's credential. *)
Theorem sse_logins_share_one_session :
  let am0 := AuthManager.new None None in
  let alice_in := Server.post_sse Stub.both_live 1000 (sse_login (JInt 1) Stub.alice) am0 in
  let bob_in :=
    Server.post_sse Stub.both_live 2000 (sse_login (JInt 1) Stub.bob)
      (Server.authManager alice_in) in
  let alice_calls :=
    Server.post_sse Stub.both_live 3000 (sse (tools_call (JInt 2) "get_user_info" (JObj [])))
      (Server.authManager bob_in) in
  Server.sent alice_in
  = JsonRpc.Result (JInt 1) (JsonRpc.Authenticated "mcp-default" (JStr "alice@example.com"))
  ∧ Server.sent bob_in
    = JsonRpc.Result (JInt 1) (JsonRpc.Authenticated "mcp-default" (JStr "bob@example.com"))
  ∧ Server.calls alice_calls
    = [{| via := "token-bob"; operation := "getUserInfo"; inputs := [] |}]
  ∧ Server.sent alice_calls
    = JsonRpc.Result (JInt 2) (JsonRpc.ToolOutput (JObj [("servedWith", JStr "token-bob")])).
Proof. vm_compute. repeat split. Qed.

Section isolation.

Implicit Types (w : world) (bearer : string).

Lemma ubind_all_via {A B} bearer (m : upstream A) (k : A -> upstream B) :
  all_via bearer (fst m) → (∀ a, all_via bearer (fst (k a))) →
  all_via bearer (fst (ubind m k)).
Proof.
  intros Hm Hk. destruct m as [t1 [a|e]]; simpl in *; [|done].
  specialize (Hk a). destruct (k a) as [t2 r]. simpl in *.
  by apply Forall_app.
Qed.

Lemma invoke_all_via w client op args :
  all_via (RezoomexApiClient.bearerToken client)
    (fst (RezoomexApiClient.invoke w client op args)).
Proof. by repeat constructor. Qed.

Lemma arg_all_via bearer args k : all_via bearer (fst (MCPTools.arg args k)).
Proof. constructor. Qed.

Lemma overview_field_all_via bearer overview field fallback :
  all_via bearer (fst (MCPTools.overview_field overview field fallback)).
Proof.
  unfold MCPTools.overview_field. apply ubind_all_via; [constructor|].
  intros inner. constructor.
Qed.

Ltac via_step :=
  first [ apply invoke_all_via
        | apply arg_all_via
        | apply overview_field_all_via
        | apply ubind_all_via; [|intros ?]
        | by constructor ].

(** Every operation that [callTool] invokes goes through the handle it
    was given. *)
Lemma dispatch_all_via w client toolName args :
  all_via (RezoomexApiClient.bearerToken client)
    (fst (MCPTools.dispatch w client toolName args)).
Proof.
  unfold MCPTools.dispatch.
  repeat (match goal with
          | |- context [String.eqb toolName ?l] => destruct (String.eqb toolName l)
          end; [solve [repeat via_step]|]).
  constructor.
Qed.

Lemma callTool_all_via w client toolName args :
  all_via (RezoomexApiClient.bearerToken client)
    (fst (MCPTools.callTool w toolName args (Some client))).
Proof.
  unfold MCPTools.callTool.
  destruct (negb (MCPTools.hasTools toolName)); [constructor|].
  apply ubind_all_via; [constructor|]. intros _.
  destruct (String.eqb toolName "authenticate"); [constructor|].
  apply dispatch_all_via.
Qed.

Lemma authenticateWithToken_handle w now bearer sid am client am' :
  AuthManager.authenticateWithToken w now bearer sid am = (Some client, am') →
  RezoomexApiClient.bearerToken client = bearer.
Proof.
  unfold AuthManager.authenticateWithToken, RezoomexApiClient.validateSession.
  simpl. destruct (me_api w bearer) as [[status data]|e].
  - destruct (status =? 200); [|done]. by intros [= <- _].
  - done.
Qed.


End isolation.

(** ** Authorization codes *)

Section codes.

Import OAuthServer.

Implicit Types (cfg : config) (w : world) (now : Z) (st : OAuthServer.t) (k code : string).


Lemma fired_lookup_none (fired : list (Z * string)) (m : gmap string jsval) k :
  m !! k = None → foldl (fun m tm => delete (snd tm) m) m fired !! k = None.
Proof.
  revert m. induction fired as [|[due k'] fired IH]; intros m Hnone; [done|].
  simpl. apply IH. destruct (decide (k' = k)) as [->|Hne].
  - apply lookup_delete_eq.
  - by rewrite lookup_delete_ne.
Qed.

Lemma fired_lookup_hit (fired : list (Z * string)) (m : gmap string jsval) k due :
  (due, k) ∈ fired → foldl (fun m tm => delete (snd tm) m) m fired !! k = None.
Proof.
  revert m. induction fired as [|[due' k'] fired IH]; intros m Hin.
  - by apply elem_of_nil in Hin.
  - simpl. apply elem_of_cons in Hin as [[= <- <-]|Hin].
    + apply fired_lookup_none, lookup_delete_eq.
    + by apply IH.
Qed.


(** A key one of whose callbacks is due has no entry afterwards. *)
Lemma run_timers_deletes now st k due :
  (due, k) ∈ timers st → due ≤ now →
  sessionStore (run_timers now st) !! k = None.
Proof.
  intros Hin Hdue. simpl. apply (fired_lookup_hit _ _ _ due).
  apply list_elem_of_filter. split; [|done].
  unfold is_due. simpl. lia.
Qed.

(** Callbacks only delete: an absent key stays absent. *)
Lemma run_timers_absent now st k :
  sessionStore st !! k = None → sessionStore (run_timers now st) !! k = None.
Proof. intros Hnone. simpl. by apply fired_lookup_none. Qed.

Lemma run_timers_pending now st tm :
  tm ∈ timers (run_timers now st) → tm ∈ timers st ∧ now < fst tm.
Proof.
  simpl. intros Hin. apply list_elem_of_filter in Hin as [Hdue Hin].
  split; [done|]. unfold is_due in Hdue. lia.
Qed.

(** [POST /token] is served by the first registration. *)
Lemma app_redeem cfg w now rnd code cid st :
  app cfg w now rnd (redeem code cid) st = post_token cfg w now rnd (redeem code cid) st.
Proof. reflexivity. Qed.

Lemma field_redeem_client_id code cid : field (redeem code cid) "client_id" = cid.
Proof. by destruct cid. Qed.

(** The first registration on a redemption that is not handed to Auth0:
    a lookup, a truthiness test, and a deletion. *)
Lemma post_token_redeem cfg w now rnd code cid st :
  code ≠ EmptyString → not_for_auth0 cfg cid →
  post_token cfg w now rnd (redeem code cid) st
  = match sessionStore st !! auth_code_key code with
    | Some authCode =>
        if truthy authCode
        then ([], Json 200 (token_body (js_index authCode "access_token") (JInt 3600) []),
              store_delete (auth_code_key code) st)
        else ([], invalid_code, st)
    | None => ([], invalid_code, st)
    end.
Proof.
  intros Hcode Hauth0. unfold post_token.
  rewrite field_redeem_client_id.
  change (field (redeem code cid) "grant_type") with (Some "authorization_code").
  change (field (redeem code cid) "code") with (Some code).
  change (same (Some "authorization_code") "authorization_code") with true.
  cbn [negb absent text_of default]. cbv iota.
  destruct (String.eqb_spec code EmptyString); [done|].
  assert (match auth0 cfg with
          | Some AUTH0_CLIENT_ID => same cid AUTH0_CLIENT_ID
          | None => false
          end = false) as ->.
  { unfold not_for_auth0 in Hauth0. destruct (auth0 cfg) as [AUTH0_CLIENT_ID|]; [|done].
    destruct cid as [c|]; simpl; [|done].
    destruct (String.eqb_spec c AUTH0_CLIENT_ID); [congruence|done]. }
  reflexivity.
Qed.





End codes.



Section expiry.

Import OAuthServer.

Implicit Types (cfg : config) (w : world) (now : Z) (st : OAuthServer.t).

Lemma auth_session_key_differs sessionId code :
  auth_session_key sessionId ≠ auth_code_key code.
Proof.
  unfold auth_session_key, auth_code_key. intros Heq.
  injection Heq. intros. discriminate.
Qed.


Lemma app_submit cfg w now rnd email password state redirect_uri st :
  app cfg w now rnd (submit email password state redirect_uri) st
  = post_authenticate cfg w now rnd (submit email password state redirect_uri) st.
Proof. reflexivity. Qed.



End expiry.



(** ** What the token exchange returns *)

Section exchange.

Import OAuthServer.

Implicit Types (cfg : config) (w : world) (now : Z) (st : OAuthServer.t).

(** The exchange that serves [POST /token] never consults the upstream:
    its answer is the same in every world. *)
Lemma serve_redeem_ignores_world cfg w w' now rnd code cid st :
  code ≠ EmptyString → not_for_auth0 cfg cid →
  serve cfg w now rnd (redeem code cid) st = serve cfg w' now rnd (redeem code cid) st.
Proof.
  intros Hcode Hauth0. unfold serve.
  by rewrite !app_redeem, !post_token_redeem.
Qed.

(** The second registration of [POST /token], which no request reaches
    on this server, refuses a credential that fails [verifyToken]. *)
Lemma post_token_verified_revalidates cfg w now rnd code (c : string) st storedToken :
  code ≠ EmptyString → c ≠ EmptyString →
  sessionStore st !! auth_code_key code = Some storedToken →
  truthy storedToken = true →
  verifyToken w storedToken = false →
  invalid_grant (snd (fst (post_token_verified cfg w now rnd (redeem code (Some c)) st))).
Proof.
  intros Hcode Hc Hstored Htruthy Hdead. unfold post_token_verified.
  change (field (redeem code (Some c)) "grant_type") with (Some "authorization_code").
  change (field (redeem code (Some c)) "code") with (Some code).
  change (field (redeem code (Some c)) "client_id") with (Some c).
  change (same (Some "authorization_code") "authorization_code") with true.
  cbn [negb absent text_of default]. cbv iota.
  destruct (String.eqb_spec code EmptyString); [done|].
  destruct (String.eqb_spec c EmptyString); [done|].
  cbn [orb]. cbv iota.
  change (auth_code_key (id code)) with (auth_code_key code).
  rewrite Hstored, Htruthy, Hdead. simpl. by eexists.
Qed.

(** The exchange that serves [POST /token] reads the member
    [access_token] of the stored value; the stored value is the credential
    itself, a string, which has no such member. *)
Lemma serve_redeem_string_credential cfg w now rnd code cid st (credential : string) :
  code ≠ EmptyString → not_for_auth0 cfg cid → credential ≠ EmptyString →
  sessionStore (run_timers now st) !! auth_code_key code = Some (JStr credential) →
  snd (fst (serve cfg w now rnd (redeem code cid) st))
  = Json 200 (token_body JUndefined (JInt 3600) []).
Proof.
  intros Hcode Hauth0 Hcred Hstored. unfold serve.
  rewrite app_redeem, post_token_redeem by done.
  rewrite Hstored. simpl.
  by destruct (String.eqb_spec credential EmptyString).
Qed.

(** On the server that registers only the re-validating handler, a code
    whose credential fails [verifyToken] at redemption is refused. *)
Lemma serve_rezoomex_revalidates cfg w now rnd code (c : string) st storedToken :
  code ≠ EmptyString → c ≠ EmptyString →
  sessionStore (run_timers now st) !! auth_code_key code = Some storedToken →
  truthy storedToken = true →
  verifyToken w storedToken = false →
  invalid_grant (snd (fst (serve_rezoomex cfg w now rnd (redeem code (Some c)) st))).
Proof.
  intros Hcode Hc Hstored Htruthy Hdead.
  change (serve_rezoomex cfg w now rnd (redeem code (Some c)) st)
    with (post_token_verified cfg w now rnd (redeem code (Some c)) (run_timers now st)).
  by eapply post_token_verified_revalidates.
Qed.

(** On that server the exchange of a code whose credential is still live
    returns the credential on record. *)
Lemma serve_rezoomex_returns_credential cfg w now rnd code (c : string) st storedToken :
  code ≠ EmptyString → c ≠ EmptyString →
  sessionStore (run_timers now st) !! auth_code_key code = Some storedToken →
  truthy storedToken = true →
  verifyToken w storedToken = true →
  access_token_of (snd (fst (serve_rezoomex cfg w now rnd (redeem code (Some c)) st)))
  = storedToken.
Proof.
  intros Hcode Hc Hstored Htruthy Hlive.
  change (serve_rezoomex cfg w now rnd (redeem code (Some c)) st)
    with (post_token_verified cfg w now rnd (redeem code (Some c)) (run_timers now st)).
  unfold post_token_verified.
  change (field (redeem code (Some c)) "grant_type") with (Some "authorization_code").
  change (field (redeem code (Some c)) "code") with (Some code).
  change (field (redeem code (Some c)) "client_id") with (Some c).
  change (same (Some "authorization_code") "authorization_code") with true.
  cbn [negb absent text_of default]. cbv iota.
  destruct (String.eqb_spec code EmptyString); [done|].
  destruct (String.eqb_spec c EmptyString); [done|].
  cbn [orb]. cbv iota.
  change (auth_code_key (id code)) with (auth_code_key code).
  by rewrite Hstored, Htruthy, Hlive.
Qed.

End exchange.

(** C2 (the code departs from the claim).  Alice obtains an authorization
    code while her credential is live; the credential is then revoked
    upstream, so that [verifyToken] fails when the code is redeemed.  The
    exchange that serves [POST /token] answers 200 with a token response
    all the same; the second registration of the route, which would have
    answered [invalid_grant], is never reached. *)
Theorem token_exchange_skips_revalidation :
  let rnd := "0.k3j5h7x9q2a" in
  let code := OAuthServer.fresh_code rnd in
  let st1 :=
    snd (OAuthServer.serve Stub.cfg Stub.both_live 0 rnd
           (submit "alice@example.com" "correct horse" "mcp-auth"
              "http://localhost:3000/callback")
           (OAuthServer.init (AuthManager.new None None))) in
  OAuthServer.sessionStore st1 !! OAuthServer.auth_code_key code = Some (JStr "token-alice")
  ∧ OAuthServer.verifyToken Stub.alice_revoked (JStr "token-alice") = false
  ∧ snd (fst (OAuthServer.serve Stub.cfg Stub.alice_revoked 1000 "0.1"
                (redeem code (Some "ide")) st1))
    = OAuthServer.Json 200 (OAuthServer.token_body JUndefined (JInt 3600) [])
  ∧ snd (fst (OAuthServer.post_token_verified Stub.cfg Stub.alice_revoked 1000 "0.1"
                (redeem code (Some "ide")) (OAuthServer.run_timers 1000 st1)))
    = OAuthServer.oauth_error 400 "invalid_grant" "Authorization code token is no longer valid".
Proof. vm_compute. repeat split. Qed.

(** C4 (the code departs from the claim).  Alice submits valid credentials
    and the code is minted with her credential on record; the exchange
    that follows at once answers 200 with a body whose [access_token] is
    [undefined], not the credential.  The second registration of the
    route, which no request reaches, would have returned it. *)
Theorem token_exchange_omits_the_credential :
  let rnd := "0.k3j5h7x9q2a" in
  let code := OAuthServer.fresh_code rnd in
  let authenticated :=
    OAuthServer.serve Stub.cfg Stub.both_live 0 rnd
      (submit "alice@example.com" "correct horse" "mcp-auth" EmptyString)
      (OAuthServer.init (AuthManager.new None None)) in
  let st1 := snd authenticated in
  let exchanged :=
    OAuthServer.serve Stub.cfg Stub.both_live 0 "0.1" (redeem code (Some "ide")) st1 in
  snd (fst authenticated) = OAuthServer.Html (OAuthServer.LoginSuccess code)
  ∧ OAuthServer.sessionStore st1 !! OAuthServer.auth_code_key code = Some (JStr "token-alice")
  ∧ snd (fst exchanged)
    = OAuthServer.Json 200 (OAuthServer.token_body JUndefined (JInt 3600) [])
  ∧ access_token_of (snd (fst exchanged)) = JUndefined
  ∧ access_token_of
      (snd (fst (OAuthServer.post_token_verified Stub.cfg Stub.both_live 0 "0.1"
                   (redeem code (Some "ide")) (OAuthServer.run_timers 0 st1))))
    = JStr "token-alice".
Proof. vm_compute. repeat split. Qed.

(** * Further properties *)

(** ** The session registry: sweeps, reads and revocation *)

Section registry_sweeps.

Import AuthManager.

Implicit Types (am : AuthManager.t) (w : world) (now : Z).

Lemma prune_lookup {V A} (P : A -> bool) (l : list (string * A)) (m : gmap string V) k :
  foldl (fun m '(i, a) => if P a then delete i m else m) m l !! k
  = if pruned P l k then None else m !! k.
Proof.
  revert m. induction l as [|[i a] l IH]; intros m; [done|].
  simpl. rewrite IH. destruct (pruned P l k); [by rewrite orb_true_r|].
  rewrite orb_false_r. destruct (P a); [|by rewrite andb_false_r].
  rewrite andb_true_r. destruct (String.eqb_spec i k) as [->|Hne].
  - apply lookup_delete_eq.
  - by apply lookup_delete_ne.
Qed.

Lemma pruned_map_to_list {A} (P : A -> bool) (m : gmap string A) k :
  pruned P (map_to_list m) k = match m !! k with Some a => P a | None => false end.
Proof.
  unfold pruned.
  destruct (existsb _ _) eqn:Hex.
  - apply existsb_exists in Hex as ([i a] & Hin & Hia). simpl in Hia.
    apply andb_prop in Hia as [Hi Ha]. apply String.eqb_eq in Hi as ->.
    apply list_elem_of_In, elem_of_map_to_list in Hin. by rewrite Hin.
  - destruct (m !! k) as [a|] eqn:Hk; [|done].
    destruct (P a) eqn:Ha; [|done]. exfalso.
    assert (existsb (fun e => String.eqb (fst e) k && P (snd e)) (map_to_list m) = true)
      as Htrue; [|congruence].
    apply existsb_exists. exists (k, a). split.
    + by apply list_elem_of_In, elem_of_map_to_list.
    + simpl. by rewrite String.eqb_refl, Ha.
Qed.

(** The sweep as two prunings, one per map. *)
Lemma sweep_fold now (l : list (string * session)) am :
  let am' :=
    foldl (fun am '(sessionId, s) =>
             if expired now (sessionTimeout am) s
             then set_clients (delete sessionId) (set_sessions (delete sessionId) am)
             else am) am l in
  sessionTimeout am' = sessionTimeout am
  ∧ tempTokens am' = tempTokens am
  ∧ sessions am'
    = foldl (fun m '(i, s) => if expired now (sessionTimeout am) s then delete i m else m)
            (sessions am) l
  ∧ clients am'
    = foldl (fun m '(i, s) => if expired now (sessionTimeout am) s then delete i m else m)
            (clients am) l.
Proof.
  revert am. induction l as [|[i s] l IH]; intros am; [done|].
  simpl. destruct (expired now (sessionTimeout am) s) eqn:Hs.
  - destruct (IH (set_clients (delete i) (set_sessions (delete i) am)))
      as (HT & Htmp & Hsess & Hcl).
    simpl in *. by rewrite HT, Htmp, Hsess, Hcl.
  - apply IH.
Qed.

Lemma cleanupExpiredSessions_lookup now am sid :
  sessions (cleanupExpiredSessions now am) !! sid
  = match sessions am !! sid with
    | Some s => if expired now (sessionTimeout am) s then None else Some s
    | None => None
    end
  ∧ clients (cleanupExpiredSessions now am) !! sid
    = match sessions am !! sid with
      | Some s => if expired now (sessionTimeout am) s then None else clients am !! sid
      | None => clients am !! sid
      end.
Proof.
  unfold cleanupExpiredSessions.
  destruct (sweep_fold now (map_to_list (sessions am)) am) as (_ & _ & -> & ->).
  rewrite !(prune_lookup (expired now (sessionTimeout am))), pruned_map_to_list.
  destruct (sessions am !! sid) as [s|]; [|done].
  by destruct (expired now (sessionTimeout am) s).
Qed.

(** X1. [cleanupExpiredSessions] removes exactly the sessions whose age
    exceeds the timeout, from both maps, and leaves every other entry of
    [sessions] and [clients] as it was. *)
Theorem cleanupExpiredSessions_removes_exactly_the_expired now am (sid : string) :
  sessions (cleanupExpiredSessions now am) !! sid
  = match sessions am !! sid with
    | Some s => if now - createdAt s >? sessionTimeout am then None else Some s
    | None => None
    end
  ∧ clients (cleanupExpiredSessions now am) !! sid
    = match sessions am !! sid with
      | Some s => if now - createdAt s >? sessionTimeout am then None else clients am !! sid
      | None => clients am !! sid
      end.
Proof.
  unfold cleanupExpiredSessions.
  destruct (sweep_fold now (map_to_list (sessions am)) am) as (_ & _ & -> & ->).
  rewrite !(prune_lookup (expired now (sessionTimeout am))), pruned_map_to_list.
  unfold expired.
  destruct (sessions am !! sid) as [s|]; [|done].
  by destruct (now - createdAt s >? sessionTimeout am).
Qed.

(** X2. Sliding expiry: a session read through [getClient] at [now]
    survives every sweep that runs within the timeout after that read,
    however old the session was when it was read. *)
Theorem getClient_defers_the_sweep now later am (sid : string) c :
  sid ≠ EmptyString →
  clients am !! sid = Some c →
  later - now ≤ sessionTimeout am →
  let am' := cleanupExpiredSessions later (snd (getClient now (Some sid) am)) in
  clients am' !! sid = Some c
  ∧ sessions am' !! sid = Some {| createdAt := now |}.
Proof.
  intros Hsid Hc Hsoon am'. subst am'.
  rewrite (getClient_registered now sid am c Hsid Hc). simpl.
  destruct (cleanupExpiredSessions_lookup later
              (set_sessions <[sid := {| createdAt := now |}]> am) sid) as [-> ->].
  simpl. rewrite lookup_insert_eq. unfold expired. simpl.
  destruct (Z.gtb_spec (later - now) (sessionTimeout am)); [lia|done].
Qed.

Lemma getClient_defers_the_sweep_witness :
  let c := {| RezoomexApiClient.bearerToken := "token-alice";
              RezoomexApiClient.authenticated := true;
              RezoomexApiClient.userInfo := JNull |} in
  let am := set_sessions <["s1" := {| createdAt := 0 |}]>
              (set_clients <["s1" := c]> (new None None)) in
  "s1" ≠ EmptyString
  ∧ clients am !! "s1" = Some c
  ∧ 172000000 - 86000000 ≤ sessionTimeout am
  ∧ clients (cleanupExpiredSessions 172000000 (snd (getClient 86000000 (Some "s1") am)))
      !! "s1" = Some c.
Proof.
  intros c am.
  assert ("s1" ≠ EmptyString) as H1 by discriminate.
  assert (clients am !! "s1" = Some c) as H2 by apply lookup_insert_eq.
  assert (172000000 - 86000000 ≤ sessionTimeout am) as H3 by (vm_compute; discriminate).
  repeat (split; [assumption|]).
  exact (proj1 (getClient_defers_the_sweep 86000000 172000000 am "s1" c H1 H2 H3)).
Defined.

End registry_sweeps.

Section registry_lifecycle.

Import AuthManager.

Implicit Types (am : AuthManager.t) (w : world) (now : Z).

Lemma validateOne_keeps_absent w acc entry sid :
  clients (snd acc) !! sid = None →
  clients (snd (validateOne w acc entry)) !! sid = None.
Proof.
  destruct acc as [results am], entry as [k c]. simpl. intros Hnone.
  destruct (RezoomexApiClient.validateSession w c) as [[|] c']; simpl.
  - apply lookup_alter_None. done.
  - apply lookup_delete_None. right. apply lookup_alter_None. done.
Qed.

Lemma validateAllSessions_keeps_absent w am sid :
  clients am !! sid = None → clients (snd (validateAllSessions w am)) !! sid = None.
Proof.
  unfold validateAllSessions. intros Hnone.
  assert (clients (snd (@nil (string * bool), am)) !! sid = None) as Hacc by done.
  revert Hacc. generalize (@nil (string * bool), am).
  induction (map_to_list (clients am)) as [|entry entries IH]; intros acc Hacc; [done|].
  simpl. apply IH. by apply validateOne_keeps_absent.
Qed.

(** Only [authenticateWithToken] on that very identifier gives an
    identifier a handle. *)
Lemma step_keeps_absent am o sid :
  ¬ registers sid o → clients am !! sid = None → clients (step am o) !! sid = None.
Proof.
  intros Hno Hnone. destruct o; simpl in *.
  - unfold authenticateWithToken.
    destruct (RezoomexApiClient.validateSession w _) as [[|] c]; simpl; [|done].
    by rewrite lookup_insert_ne.
  - unfold getClient. destruct sessionId as [k|]; [|done].
    destruct (String.eqb k EmptyString); [done|].
    by destruct (clients am !! k).
  - apply lookup_delete_None. by right.
  - destruct (cleanupExpiredSessions_lookup now am sid) as [_ ->].
    destruct (sessions am !! sid) as [s|]; [|done].
    by destruct (expired now (sessionTimeout am) s).
  - by apply validateAllSessions_keeps_absent.
  - done.
Qed.

Lemma run_keeps_absent ops am sid :
  Forall (fun o => ¬ registers sid o) ops →
  clients am !! sid = None → clients (run ops am) !! sid = None.
Proof.
  unfold run. intros Hno. revert am.
  induction Hno as [|o ops Ho Hops IH]; intros am Hnone; [done|].
  simpl. apply IH. by apply step_keeps_absent.
Qed.

(** X3. Revocation is idempotent and final: clearing a session twice is
    the same as clearing it once, and once cleared, the identifier
    resolves to no handle after any sequence of reads, sweeps, other
    logins and revalidations, until [authenticateWithToken] registers that
    same identifier again. *)
Theorem clearSession_is_final (sid : string) am (ops : list op) now :
  Forall (fun o => ¬ registers sid o) ops →
  clearSession sid (clearSession sid am) = clearSession sid am
  ∧ fst (getClient now (Some sid) (run ops (clearSession sid am))) = None.
Proof.
  intros Hno. split.
  - unfold clearSession, set_sessions, set_clients. simpl.
    by rewrite !delete_delete_eq.
  - assert (clients (run ops (clearSession sid am)) !! sid = None) as Hnone.
    { apply run_keeps_absent; [done|]. simpl. apply lookup_delete_eq. }
    unfold getClient. destruct (String.eqb sid EmptyString); [done|].
    by rewrite Hnone.
Qed.

Lemma clearSession_is_final_witness :
  let am := snd (authenticateWithToken Stub.both_live 0 "token-alice" "s1" (new None None)) in
  let ops := [GetClient 10 (Some "s1");
              AuthenticateWithToken Stub.both_live 20 "token-bob" "s2";
              CleanupExpiredSessions 30;
              ValidateAllSessions Stub.both_live] in
  Forall (fun o => ¬ registers "s1" o) ops
  ∧ fst (getClient 40 (Some "s1") (run ops (clearSession "s1" am))) = None.
Proof.
  intros am ops.
  assert (Forall (fun o => ¬ registers "s1" o) ops) as Hno.
  { repeat constructor; simpl; try tauto. discriminate. }
  split; [exact Hno|].
  exact (proj2 (clearSession_is_final "s1" am ops 40 Hno)).
Defined.

(** X4. A login round trip: when the upstream accepts the credential,
    [authenticateWithToken] registers a handle that [getClient] returns
    for that identifier: built from that credential, marked
    authenticated, carrying the profile the upstream answered; and the
    handle of any other identifier is untouched. *)
Theorem authenticateWithToken_then_getClient w now later
    (bearerToken sessionId : string) (data : jsval) am :
  sessionId ≠ EmptyString →
  me_api w bearerToken = Return (200, data) →
  let am' := snd (authenticateWithToken w now bearerToken sessionId am) in
  fst (getClient later (Some sessionId) am')
  = Some {| RezoomexApiClient.bearerToken := bearerToken;
            RezoomexApiClient.authenticated := true;
            RezoomexApiClient.userInfo := data |}
  ∧ ∀ other, other ≠ sessionId →
             fst (getClient later (Some other) am') = fst (getClient later (Some other) am).
Proof.
  intros Hsid Hme am'. subst am'.
  unfold authenticateWithToken, RezoomexApiClient.validateSession. simpl.
  rewrite Hme. simpl. split.
  - unfold getClient. destruct (String.eqb_spec sessionId EmptyString); [done|].
    simpl. by rewrite lookup_insert_eq.
  - intros other Hother. unfold getClient.
    destruct (String.eqb other EmptyString); [done|].
    simpl. rewrite lookup_insert_ne by done.
    by destruct (clients am !! other).
Qed.

Lemma authenticateWithToken_then_getClient_witness :
  "s1" ≠ EmptyString
  ∧ me_api Stub.both_live "token-alice"
    = Return (200, JObj [("id", JStr "user-alice@example.com");
                         ("email", JStr "alice@example.com")])
  ∧ fst (getClient 5 (Some "s1")
           (snd (authenticateWithToken Stub.both_live 0 "token-alice" "s1" (new None None))))
    = Some {| RezoomexApiClient.bearerToken := "token-alice";
              RezoomexApiClient.authenticated := true;
              RezoomexApiClient.userInfo :=
                JObj [("id", JStr "user-alice@example.com");
                      ("email", JStr "alice@example.com")] |}.
Proof.
  assert ("s1" ≠ EmptyString) as H1 by discriminate.
  assert (me_api Stub.both_live "token-alice"
          = Return (200, JObj [("id", JStr "user-alice@example.com");
                               ("email", JStr "alice@example.com")])) as H2 by reflexivity.
  repeat (split; [assumption|]).
  exact (proj1 (authenticateWithToken_then_getClient Stub.both_live 0 5
                  "token-alice" "s1" _ (new None None) H1 H2)).
Defined.

End registry_lifecycle.

Section registry_revalidation.

Import AuthManager.

Implicit Types (am : AuthManager.t) (w : world) (now : Z).

Lemma validateOne_other w acc (k : string) c sid :
  sid ≠ k →
  clients (snd (validateOne w acc (k, c))) !! sid = clients (snd acc) !! sid
  ∧ sessions (snd (validateOne w acc (k, c))) !! sid = sessions (snd acc) !! sid.
Proof.
  destruct acc as [results am]. simpl. intros Hne.
  destruct (RezoomexApiClient.validateSession w c) as [[|] c']; simpl.
  - by rewrite lookup_alter_ne.
  - by rewrite !lookup_delete_ne, lookup_alter_ne.
Qed.

Lemma validateOne_same w acc (k : string) c :
  let '(isValid, c') := RezoomexApiClient.validateSession w c in
  if isValid
  then clients (snd (validateOne w acc (k, c))) !! k = (fun _ => c') <$> clients (snd acc) !! k
       ∧ sessions (snd (validateOne w acc (k, c))) !! k = sessions (snd acc) !! k
  else clients (snd (validateOne w acc (k, c))) !! k = None
       ∧ sessions (snd (validateOne w acc (k, c))) !! k = None.
Proof.
  destruct acc as [results am]. simpl.
  destruct (RezoomexApiClient.validateSession w c) as [[|] c']; simpl.
  - by rewrite lookup_alter_eq.
  - by rewrite !lookup_delete_eq.
Qed.

Lemma validateOne_results w acc entry :
  fst (validateOne w acc entry)
  = fst acc ++ [(fst entry, fst (RezoomexApiClient.validateSession w (snd entry)))].
Proof.
  destruct acc as [results am], entry as [k c]. simpl.
  by destruct (RezoomexApiClient.validateSession w c) as [[|] c'].
Qed.

Lemma validate_fold w (l : list (string * client)) :
  NoDup l.*1 →
  ∀ acc,
    let res := foldl (validateOne w) acc l in
    fst res
    = fst acc ++ map (fun e => (fst e, fst (RezoomexApiClient.validateSession w (snd e)))) l
    ∧ ∀ sid,
        (sid ∉ l.*1 →
         clients (snd res) !! sid = clients (snd acc) !! sid
         ∧ sessions (snd res) !! sid = sessions (snd acc) !! sid)
        ∧ (∀ c, (sid, c) ∈ l →
             let '(isValid, c') := RezoomexApiClient.validateSession w c in
             if isValid
             then clients (snd res) !! sid = (fun _ => c') <$> clients (snd acc) !! sid
                  ∧ sessions (snd res) !! sid = sessions (snd acc) !! sid
             else clients (snd res) !! sid = None ∧ sessions (snd res) !! sid = None).
Proof.
  induction l as [|[k c0] l IH]; intros Hnodup acc.
  - simpl. split; [by rewrite app_nil_r|]. intros sid. split; [done|].
    intros c Hin. by apply elem_of_nil in Hin.
  - simpl in Hnodup. apply NoDup_cons in Hnodup as [Hk Hnodup].
    simpl. destruct (IH Hnodup (validateOne w acc (k, c0))) as [Hres Hmaps].
    split.
    + rewrite Hres, validateOne_results. simpl. by rewrite <- app_assoc.
    + intros sid. destruct (Hmaps sid) as [Hout Hin]. split.
      * intros Hnot. apply not_elem_of_cons in Hnot as [Hne Hnot].
        destruct (Hout Hnot) as [-> ->]. by apply validateOne_other.
      * intros c Hc. apply elem_of_cons in Hc as [[= -> ->]|Hc].
        -- destruct (Hout Hk) as [-> ->]. apply validateOne_same.
        -- assert (sid ≠ k) as Hne.
           { intros ->. apply Hk. apply list_elem_of_fmap. by exists (k, c). }
           specialize (Hin c Hc).
           destruct (validateOne_other w acc k c0 sid Hne) as [Hc1 Hs1].
           destruct (RezoomexApiClient.validateSession w c) as [[|] c'].
           ++ by rewrite <- Hc1, <- Hs1.
           ++ done.
Qed.

(** X5. [validateAllSessions] re-checks every registered handle once: a
    handle whose validation succeeds stays registered (refreshed with the
    profile just read, its session untouched), a handle whose validation
    fails is removed together with its session, and the report has one
    line per registered handle. *)
Theorem validateAllSessions_keeps_exactly_the_valid w am (sid : string) c :
  clients am !! sid = Some c →
  let '(results, am') := validateAllSessions w am in
  (sid, fst (RezoomexApiClient.validateSession w c)) ∈ results
  ∧ length results = size (clients am)
  ∧ if fst (RezoomexApiClient.validateSession w c)
    then clients am' !! sid = Some (snd (RezoomexApiClient.validateSession w c))
         ∧ sessions am' !! sid = sessions am !! sid
    else clients am' !! sid = None ∧ sessions am' !! sid = None.
Proof.
  intros Hc. unfold validateAllSessions.
  destruct (validate_fold w (map_to_list (clients am))
              (NoDup_fst_map_to_list (clients am)) ([], am)) as [Hres Hmaps].
  destruct (foldl (validateOne w) ([], am) (map_to_list (clients am)))
    as [results am'] eqn:Hfold.
  simpl in Hres, Hmaps.
  assert ((sid, c) ∈ map_to_list (clients am)) as Hin by by apply elem_of_map_to_list.
  split; [|split].
  - rewrite Hres. apply list_elem_of_fmap. by exists (sid, c).
  - by rewrite Hres, length_map, length_map_to_list.
  - destruct (Hmaps sid) as [_ Hsid]. specialize (Hsid c Hin).
    destruct (RezoomexApiClient.validateSession w c) as [[|] c']; simpl; [|done].
    by rewrite Hc in Hsid.
Qed.

Lemma validateAllSessions_keeps_exactly_the_valid_witness :
  let am :=
    snd (authenticateWithToken Stub.both_live 0 "token-bob" "s2"
           (snd (authenticateWithToken Stub.both_live 0 "token-alice" "s1" (new None None)))) in
  let c := {| RezoomexApiClient.bearerToken := "token-alice";
              RezoomexApiClient.authenticated := true;
              RezoomexApiClient.userInfo :=
                JObj [("id", JStr "user-alice@example.com");
                      ("email", JStr "alice@example.com")] |} in
  clients am !! "s1" = Some c
  ∧ clients (snd (validateAllSessions Stub.alice_revoked am)) !! "s1" = None.
Proof.
  intros am c.
  assert (clients am !! "s1" = Some c) as H1 by (vm_compute; reflexivity).
  split; [exact H1|].
  pose proof (validateAllSessions_keeps_exactly_the_valid Stub.alice_revoked am "s1" c H1)
    as Hall.
  destruct (validateAllSessions Stub.alice_revoked am) as [results am'].
  exact (proj1 (proj2 (proj2 Hall))).
Defined.

(** X6. The two counters agree on every registry reached from a fresh
    one: [getSessionCount] (the size of [sessions]) is the number of
    identifiers that [getAllSessions] lists (the keys of [clients]), and
    the listed identifiers are exactly those with a session. *)
Theorem getSessionCount_counts_getAllSessions (ops : list op) (s1 s2 : option Z) :
  let am := run ops (new s1 s2) in
  getSessionCount am = length (getAllSessions am)
  ∧ ∀ sid, sid ∈ getAllSessions am ↔ is_Some (sessions am !! sid).
Proof.
  intros am.
  pose proof (same_keys_run ops (new s1 s2) (same_keys_new s1 s2)) as Hkeys.
  fold am in Hkeys. unfold same_keys in Hkeys.
  unfold getSessionCount, getAllSessions. split.
  - rewrite length_fmap, length_map_to_list.
    by rewrite <- (size_dom (sessions am)), Hkeys, size_dom.
  - intros sid. rewrite <- elem_of_dom, Hkeys, elem_of_dom.
    split.
    + intros Hin. apply list_elem_of_fmap in Hin as ([k c] & -> & Hin).
      apply elem_of_map_to_list in Hin. simpl. eauto.
    + intros [c Hc]. apply list_elem_of_fmap. exists (sid, c).
      split; [done|]. by apply elem_of_map_to_list.
Qed.

End registry_revalidation.

(** ** Temporary tokens *)

Section temp_tokens.

Import AuthManager.

Implicit Types (am : AuthManager.t) (now : Z).

(** X7. A temporary token can be read back, any number of times, until
    its age exceeds the timeout; from then on the read yields [null] and
    drops the entry.  [removeTempToken] reports whether there was an entry
    and leaves none behind. *)
Theorem temp_token_round_trip (t0 now : Z) (tokenId bearerToken : string) am :
  let am1 := storeTempToken t0 tokenId bearerToken am in
  (now - t0 ≤ tempTokenTimeout am → getTempToken now tokenId am1 = (Some bearerToken, am1))
  ∧ (now - t0 > tempTokenTimeout am →
     fst (getTempToken now tokenId am1) = None
     ∧ tempTokens (snd (getTempToken now tokenId am1)) !! tokenId = None)
  ∧ fst (removeTempToken tokenId am1) = true
  ∧ fst (getTempToken now tokenId (snd (removeTempToken tokenId am1))) = None
  ∧ fst (removeTempToken tokenId (snd (removeTempToken tokenId am1))) = false.
Proof.
  intros am1. subst am1. unfold getTempToken, removeTempToken, storeTempToken. simpl.
  rewrite !lookup_insert_eq. simpl.
  split; [|split; [|split; [|split]]].
  - intros Hlive.
    by destruct (Z.gtb_spec (now - t0) (tempTokenTimeout am)); [lia|].
  - intros Hold.
    destruct (Z.gtb_spec (now - t0) (tempTokenTimeout am)); [|lia].
    simpl. split; [done|]. apply lookup_delete_eq.
  - done.
  - by rewrite lookup_delete_eq.
  - rewrite lookup_delete_eq. done.
Qed.

Lemma temp_sweep_fold now (l : list (string * tempToken)) am :
  let am' :=
    foldl (fun am '(tokenId, tokenData) =>
             if now - tokenCreatedAt tokenData >? tempTokenTimeout am
             then set_tempTokens (delete tokenId) am
             else am) am l in
  tempTokenTimeout am' = tempTokenTimeout am
  ∧ sessions am' = sessions am
  ∧ clients am' = clients am
  ∧ tempTokens am'
    = foldl (fun m '(i, d) =>
               if now - tokenCreatedAt d >? tempTokenTimeout am then delete i m else m)
            (tempTokens am) l.
Proof.
  revert am. induction l as [|[i d] l IH]; intros am; [done|].
  simpl. destruct (now - tokenCreatedAt d >? tempTokenTimeout am) eqn:Hd.
  - destruct (IH (set_tempTokens (delete i) am)) as (HT & Hs & Hc & Ht).
    simpl in *. by rewrite HT, Hs, Hc, Ht.
  - apply IH.
Qed.

Lemma cleanupExpiredTempTokens_lookup now am tokenId :
  tempTokens (cleanupExpiredTempTokens now am) !! tokenId
  = match tempTokens am !! tokenId with
    | Some d => if now - tokenCreatedAt d >? tempTokenTimeout am then None else Some d
    | None => None
    end
  ∧ tempTokenTimeout (cleanupExpiredTempTokens now am) = tempTokenTimeout am.
Proof.
  unfold cleanupExpiredTempTokens.
  destruct (temp_sweep_fold now (map_to_list (tempTokens am)) am) as (-> & _ & _ & ->).
  split; [|done].
  rewrite (prune_lookup (fun d => now - tokenCreatedAt d >? tempTokenTimeout am)),
    pruned_map_to_list.
  destruct (tempTokens am !! tokenId) as [d|]; [|done].
  by destruct (now - tokenCreatedAt d >? tempTokenTimeout am).
Qed.

(** X8. The periodic sweep of the temporary tokens never changes what a
    later read returns: [cleanupExpiredTempTokens] removes exactly the
    entries that [getTempToken] would already refuse, touches neither
    [sessions] nor [clients], and a read at [now] gives the same answer
    whether or not a sweep ran at an earlier instant. *)
Theorem temp_token_sweep_agrees_with_read (swept now : Z) (tokenId : string) am :
  swept ≤ now →
  fst (getTempToken now tokenId (cleanupExpiredTempTokens swept am))
  = fst (getTempToken now tokenId am)
  ∧ sessions (cleanupExpiredTempTokens swept am) = sessions am
  ∧ clients (cleanupExpiredTempTokens swept am) = clients am.
Proof.
  intros Hle. split.
  - unfold getTempToken.
    destruct (cleanupExpiredTempTokens_lookup swept am tokenId) as [-> ->].
    destruct (tempTokens am !! tokenId) as [d|]; [|done].
    destruct (Z.gtb_spec (swept - tokenCreatedAt d) (tempTokenTimeout am)).
    + destruct (Z.gtb_spec (now - tokenCreatedAt d) (tempTokenTimeout am)); [done|lia].
    + by destruct (now - tokenCreatedAt d >? tempTokenTimeout am).
  - unfold cleanupExpiredTempTokens.
    by destruct (temp_sweep_fold swept (map_to_list (tempTokens am)) am) as (_ & -> & -> & _).
Qed.

Lemma temp_token_sweep_agrees_with_read_witness :
  let am := storeTempToken 0 "temp_1" "token-alice" (new None None) in
  60000 ≤ 400000
  ∧ fst (getTempToken 400000 "temp_1" (cleanupExpiredTempTokens 60000 am))
    = fst (getTempToken 400000 "temp_1" am).
Proof.
  intros am.
  assert (60000 ≤ 400000) as H1 by lia.
  split; [exact H1|].
  exact (proj1 (temp_token_sweep_agrees_with_read 60000 400000 "temp_1" am H1)).
Defined.

End temp_tokens.

Lemma temp_token_round_trip_witness :
  let am := AuthManager.new None None in
  let am1 := AuthManager.storeTempToken 0 "temp_1" "token-alice" am in
  (1000 - 0 ≤ AuthManager.tempTokenTimeout am
   ∧ AuthManager.getTempToken 1000 "temp_1" am1 = (Some "token-alice", am1))
  ∧ (300001 - 0 > AuthManager.tempTokenTimeout am
     ∧ fst (AuthManager.getTempToken 300001 "temp_1" am1) = None).
Proof.
  intros am am1.
  assert (1000 - 0 ≤ AuthManager.tempTokenTimeout am) as H1 by (vm_compute; discriminate).
  assert (300001 - 0 > AuthManager.tempTokenTimeout am) as H2 by reflexivity.
  split.
  - split; [exact H1|].
    exact (proj1 (temp_token_round_trip 0 1000 "temp_1" "token-alice" am) H1).
  - split; [exact H2|].
    exact (proj1 (proj1 (proj2 (temp_token_round_trip 0 300001 "temp_1" "token-alice" am))
                    H2)).
Defined.

(** ** Argument validation: what is accepted *)

Section validation_exact.

Import MCPTools.

Implicit Types (w : world) (errors : list string) (input : jsval).

(** Every field of the catalogue is declared a string or an integer. *)
Lemma catalogue_types (toolName : string) tool f fs :
  getTool toolName = Some tool →
  (f, fs) ∈ properties (inputSchema tool) →
  type fs = "string" ∨ type fs = "integer".
Proof.
  intros Htool Hin.
  assert (forallb (fun t => forallb (fun p => String.eqb (type (snd p)) "string"
                                              || String.eqb (type (snd p)) "integer")
                                    (properties (inputSchema (snd t))))
                  tools = true) as Hall by (vm_compute; reflexivity).
  assert ((toolName, tool) ∈ tools) as Htools.
  { unfold getTool in Htool. revert Htool. generalize tools.
    induction l as [|[k t] l IH]; simpl; [done|].
    destruct (String.eqb_spec k toolName) as [->|_].
    - intros [= ->]. by left.
    - intros Hl. right. by apply IH. }
  rewrite forallb_forall in Hall.
  specialize (Hall (toolName, tool) (proj1 (list_elem_of_In _ _) Htools)). simpl in Hall.
  rewrite forallb_forall in Hall.
  specialize (Hall (f, fs) (proj1 (list_elem_of_In _ _) Hin)). simpl in Hall.
  apply orb_prop in Hall as [H%String.eqb_eq|H%String.eqb_eq]; eauto.
Qed.

(** In the catalogue a value that cannot be converted is a value of the
    wrong type. *)
Lemma catalogue_unorderable_violates w (toolName : string) tool fields :
  getTool toolName = Some tool →
  unorderable (inputSchema tool) fields → violates w (inputSchema tool) fields.
Proof.
  intros Htool (f & fs & v & Hin & Hv & _ & Hun).
  right. exists f, fs, v. split; [done|]. split; [done|].
  destruct (catalogue_types toolName tool f fs Htool Hin) as [Ht|Ht].
  - left. split; [done|]. by destruct v.
  - right. left. split; [done|]. by destruct v.
Qed.

(** X9. On an argument object, [validateToolInput] accepts exactly the
    inputs that satisfy the schema: it returns [true] when every required
    field is present and not nullish and every declared field that is
    present has the declared primitive type and lies within the declared
    bounds.  In every other case it throws: a [TypeError] when a field
    with a bound holds a value that cannot be converted to a number (an
    object with a member [toString], or an array holding one), because
    the bound is compared even after the type test has failed; and the
    validation [Error] that lists what it found otherwise. *)
Theorem validateToolInput_accepts_exactly_the_valid w (toolName : string) tool
    (fields : list (string * jsval)) :
  getTool toolName = Some tool →
  (validateToolInput w toolName (JObj fields) = Return true
   ↔ ¬ violates w (inputSchema tool) fields)
  ∧ (unorderable (inputSchema tool) fields →
     validateToolInput w toolName (JObj fields) = Throw TypeError)
  ∧ (violates w (inputSchema tool) fields →
     ¬ unorderable (inputSchema tool) fields →
     ∃ errors, errors ≠ []
       ∧ validateToolInput w toolName (JObj fields)
         = Throw (Error ("Validation errors: " +:+ join ", " errors))).
Proof.
  intros Htool.
  pose proof (validateToolInput_result w toolName tool fields Htool) as Hresult.
  pose proof (catalogue_unorderable_violates w toolName tool fields Htool) as Htyped.
  split; [split|split].
  - intros Hok. rewrite Hok in Hresult. tauto.
  - intros Hgood.
    destruct (validateToolInput w toolName (JObj fields)) as [b|[message| |m c r]];
      [|tauto..].
    by destruct Hresult as (-> & _).
  - intros Hun.
    destruct (validateToolInput w toolName (JObj fields)) as [b|[message| |m c r]];
      [tauto|tauto|done|done].
  - intros Hbad Hord. unfold validateToolInput in *. rewrite Htool in *.
    pose proof (validation_errors_result w (inputSchema tool) fields) as Herrors.
    destruct (validation_errors w (inputSchema tool) (JObj fields)) as [errors|e]; simpl.
    + destruct Herrors as (Hpos & _). specialize (Hpos Hbad).
      exists errors. split; [by destruct errors; simpl in Hpos; [lia|]|].
      by destruct (Nat.ltb_spec 0 (length errors)); [|lia].
    + by destruct Herrors as (_ & Hun).
Qed.

Lemma validateToolInput_accepts_exactly_the_valid_witness :
  let tool := mk "get_story_range"
                [("start_number", int_min 1); ("end_number", int_min 1);
                 ("project_id", str); ("persona_id", str)]
                ["start_number"; "end_number"; "project_id"; "persona_id"] in
  let fields := [("start_number", JInt 0); ("end_number", JInt 5);
                 ("project_id", JStr "39SQ"); ("persona_id", JStr "39SQ-P-003")] in
  let unconvertible := [("start_number", JObj [("toString", JNull)]); ("end_number", JInt 5);
                        ("project_id", JStr "39SQ"); ("persona_id", JStr "39SQ-P-003")] in
  getTool "get_story_range" = Some tool
  ∧ violates Stub.both_live (inputSchema tool) fields
  ∧ ¬ unorderable (inputSchema tool) fields
  ∧ unorderable (inputSchema tool) unconvertible
  ∧ (∃ errors, errors ≠ []
       ∧ validateToolInput Stub.both_live "get_story_range" (JObj fields)
         = Throw (Error ("Validation errors: " +:+ join ", " errors)))
  ∧ validateToolInput Stub.both_live "get_story_range" (JObj unconvertible) = Throw TypeError.
Proof.
  intros tool fields unconvertible.
  assert (getTool "get_story_range" = Some tool) as H1 by reflexivity.
  assert (violates Stub.both_live (inputSchema tool) fields) as H2.
  { right. exists "start_number", (int_min 1), (JInt 0).
    split; [by left|]. split; [done|]. right. right. left. by exists 1. }
  assert (¬ unorderable (inputSchema tool) fields) as H3.
  { intros (f & fs & v & Hin & Hv & _ & Hun). simpl in Hin.
    repeat (apply elem_of_cons in Hin as [[= -> ->]|Hin];
            [vm_compute in Hv; injection Hv as <-; done|]).
    by apply elem_of_nil in Hin. }
  assert (unorderable (inputSchema tool) unconvertible) as H4.
  { exists "start_number", (int_min 1), (JObj [("toString", JNull)]).
    split; [by left|]. split; [done|]. split; [left; by eexists|done]. }
  split; [exact H1|]. split; [exact H2|]. split; [exact H3|]. split; [exact H4|].
  split.
  - exact (proj2 (proj2 (validateToolInput_accepts_exactly_the_valid Stub.both_live
                           "get_story_range" tool fields H1)) H2 H3).
  - exact (proj1 (proj2 (validateToolInput_accepts_exactly_the_valid Stub.both_live
                           "get_story_range" tool unconvertible H1)) H4).
Defined.

(** X10. Arguments that are not an object (a call without arguments, or
    with a string, a number, a boolean or [null]) make [validateToolInput]
    throw a [TypeError] for every tool whose schema names a field, and
    pass for the tools whose schema names none. *)
Theorem validateToolInput_on_a_primitive w (toolName : string) tool input :
  getTool toolName = Some tool →
  primitive input = true →
  validateToolInput w toolName input
  = match required (inputSchema tool), properties (inputSchema tool) with
    | [], [] => Return true
    | _, _ => Throw TypeError
    end.
Proof.
  intros Htool Hprim. unfold validateToolInput, validation_errors. rewrite Htool.
  assert (∀ k, js_in k input = Throw TypeError) as Hin
    by (intros k; by destruct input).
  destruct (required (inputSchema tool)) as [|r rs]; simpl.
  - destruct (properties (inputSchema tool)) as [|[f fs] ps]; simpl; [done|].
    by rewrite Hin.
  - by rewrite Hin.
Qed.

Lemma validateToolInput_on_a_primitive_witness :
  getTool "get_user_info" = Some (mk "get_user_info" [] [])
  ∧ primitive JUndefined = true
  ∧ validateToolInput Stub.both_live "get_user_info" JUndefined = Return true.
Proof.
  assert (getTool "get_user_info" = Some (mk "get_user_info" [] [])) as H1 by reflexivity.
  assert (primitive JUndefined = true) as H2 by reflexivity.
  repeat (split; [assumption|]).
  exact (validateToolInput_on_a_primitive Stub.both_live "get_user_info" _ JUndefined H1 H2).
Defined.

End validation_exact.

(** ** The dispatcher: what reaches the upstream handle *)

Section dispatcher.

Import MCPTools.

Implicit Types (w : world) (input : jsval).

(** X11. [callTool] never invokes the upstream handle for the
    authentication tool, for a name that is not in the catalogue, or when
    it is given no handle: each of these calls throws with no upstream
    operation made. *)
Theorem callTool_never_reaches_upstream_without_cause w (toolName : string) input
    (client : option RezoomexApiClient.t) :
  toolName = "authenticate" ∨ hasTools toolName = false ∨ client = None →
  ∃ e, callTool w toolName input client = ([], Throw e).
Proof.
  intros Hcause. unfold callTool.
  destruct (hasTools toolName) eqn:Hhas; simpl; [|eauto].
  destruct (validateToolInput w toolName input) as [b|e]; simpl; [|eauto].
  destruct Hcause as [-> | [Hno | ->]]; [|done|].
  - simpl. eauto.
  - destruct (String.eqb toolName "authenticate"); eauto.
Qed.

Lemma callTool_never_reaches_upstream_without_cause_witness :
  hasTools "drop_database" = false
  ∧ ∃ e, callTool Stub.both_live "drop_database" (JObj [])
           (Some (RezoomexApiClient.new "token-alice")) = ([], Throw e).
Proof.
  assert (hasTools "drop_database" = false) as H1 by reflexivity.
  split; [exact H1|].
  exact (callTool_never_reaches_upstream_without_cause Stub.both_live "drop_database"
           (JObj []) (Some (RezoomexApiClient.new "token-alice")) (or_intror (or_introl H1))).
Defined.

Lemma ubind_arg_calls {B} fields key (k : jsval -> upstream B) :
  fst (ubind (arg (JObj fields) key) k) = fst (k (default JUndefined (assoc key fields))).
Proof.
  unfold arg, ulift, ubind. simpl.
  by destruct (k (default JUndefined (assoc key fields))).
Qed.

Lemma ubind_invoke_calls {B} w c op args (k : jsval -> upstream B) :
  fst (ubind (RezoomexApiClient.invoke w c op args) k) ≠ [].
Proof.
  unfold RezoomexApiClient.invoke, ubind.
  destruct (api_call w _ op args) as [a|e]; [|done].
  by destruct (k a).
Qed.

Lemma invoke_calls w c op args : fst (RezoomexApiClient.invoke w c op args) ≠ [].
Proof. done. Qed.

(** The names of the catalogue. *)
Lemma hasTools_names (toolName : string) :
  hasTools toolName = true →
  In toolName (map name toolDefinitions).
Proof.
  unfold hasTools.
  let t := eval vm_compute in tools in change tools with t.
  cbn [assoc].
  repeat (match goal with
          | |- context [String.eqb ?l toolName] =>
              destruct (String.eqb_spec l toolName) as [<-|_];
              [intros _; vm_compute; tauto|]
          end).
  done.
Qed.

(** X12. Every tool of the catalogue other than the authentication tool
    is implemented by the dispatcher: given an argument object that passes
    validation and a handle, [callTool] invokes the handle at least once,
    and every operation it invokes goes through that handle. *)
Theorem callTool_dispatches_every_catalogue_tool w (toolName : string)
    (fields : list (string * jsval)) (client : RezoomexApiClient.t) :
  hasTools toolName = true →
  toolName ≠ "authenticate" →
  validateToolInput w toolName (JObj fields) = Return true →
  fst (callTool w toolName (JObj fields) (Some client)) ≠ []
  ∧ all_via (RezoomexApiClient.bearerToken client)
      (fst (callTool w toolName (JObj fields) (Some client))).
Proof.
  intros Hhas Hname Hvalid. split; [|apply callTool_all_via].
  unfold callTool. rewrite Hhas, Hvalid. simpl.
  assert (fst (dispatch w client toolName (JObj fields)) ≠ []) as Hcalls.
  { apply hasTools_names in Hhas. simpl in Hhas.
    repeat (destruct Hhas as [<-|Hhas];
            [first [ done
                   | unfold dispatch; string_tests;
                     rewrite ?ubind_arg_calls;
                     first [ apply ubind_invoke_calls | apply invoke_calls ] ]|]).
    done. }
  destruct (String.eqb_spec toolName "authenticate"); [done|].
  destruct (dispatch w client toolName (JObj fields)) as [tr r]. exact Hcalls.
Qed.

Lemma callTool_dispatches_every_catalogue_tool_witness :
  let c := RezoomexApiClient.new "token-alice" in
  let fields := [("project_name", JStr "Talentally Yours")] in
  hasTools "get_project_by_name" = true
  ∧ "get_project_by_name" ≠ "authenticate"
  ∧ validateToolInput Stub.both_live "get_project_by_name" (JObj fields) = Return true
  ∧ fst (callTool Stub.both_live "get_project_by_name" (JObj fields) (Some c)) ≠ [].
Proof.
  intros c fields.
  assert (hasTools "get_project_by_name" = true) as H1 by reflexivity.
  assert ("get_project_by_name" ≠ "authenticate") as H2 by discriminate.
  assert (validateToolInput Stub.both_live "get_project_by_name" (JObj fields) = Return true)
    as H3 by reflexivity.
  repeat (split; [assumption|]).
  exact (proj1 (callTool_dispatches_every_catalogue_tool Stub.both_live
                  "get_project_by_name" fields c H1 H2 H3)).
Defined.

End dispatcher.

(** ** The REST execution endpoint *)

Section rest_execution.

Import Server.

Implicit Types (w : world) (parseInt : jsval -> jsval) (now : Z) (am : AuthManager.t).

Lemma any_missing_object fields keys :
  any_missing (JObj fields) keys
  = Return (negb (forallb (fun k => truthy (default JUndefined (assoc k fields))) keys)).
Proof.
  induction keys as [|k keys IH]; [done|].
  simpl. destruct (truthy (default JUndefined (assoc k fields))); [|done].
  by rewrite IH.
Qed.

(** A guarded branch runs its body when every key is truthy, and throws
    without an upstream call otherwise. *)
Lemma guarded fields keys message (k : unit -> upstream jsval) :
  ubind (demand (JObj fields) keys message) k
  = if forallb (fun k => truthy (default JUndefined (assoc k fields))) keys
    then k tt else ([], Throw (Error message)).
Proof.
  unfold demand. rewrite any_missing_object.
  destruct (forallb _ keys); simpl; [|done].
  by destruct (k tt).
Qed.

Lemma some_falsy fields (keys : list string) :
  (∃ f, f ∈ keys ∧ truthy (default JUndefined (assoc f fields)) = false)
  ↔ forallb (fun k => truthy (default JUndefined (assoc k fields))) keys = false.
Proof.
  induction keys as [|k keys IH]; simpl.
  - split; [|done]. intros (f & Hin & _). by apply elem_of_nil in Hin.
  - destruct (truthy (default JUndefined (assoc k fields))) eqn:Hk; simpl.
    + rewrite <- IH. split.
      * intros (f & Hin & Hf). apply elem_of_cons in Hin as [->|Hin]; [congruence|eauto].
      * intros (f & Hin & Hf). exists f. split; [by right|done].
    + split; [done|]. intros _. exists k. split; [by left|done].
Qed.

Lemma some_unprintable fields (keys : list string) :
  (∃ f, f ∈ keys ∧ unprintable (default JUndefined (assoc f fields)) = true)
  ↔ existsb (fun k => unprintable (default JUndefined (assoc k fields))) keys = true.
Proof.
  rewrite existsb_exists. split.
  - intros (f & Hin%list_elem_of_In & Hf). eauto.
  - intros (f & Hin%list_elem_of_In & Hf). eauto.
Qed.

(** Only an object or an array can fail to convert, and both are truthy. *)
Lemma unprintable_truthy v : unprintable v = true → truthy v = true.
Proof. by destruct v. Qed.

Ltac by_value :=
  repeat match goal with
         | |- context [unprintable ?v] =>
             let H := fresh "Hun" in
             destruct (unprintable v) eqn:H;
             [rewrite ?(unprintable_truthy v H)|]
         end;
  repeat match goal with
         | |- context [truthy ?v] => destruct (truthy v)
         end.

Ltac by_tool Htool :=
  vm_compute in Htool; injection Htool as <-;
  unfold executeToolWithProgress, converted; string_tests;
  cbn [MCPTools.required MCPTools.inputSchema];
  rewrite ?guarded; split;
  [ rewrite some_falsy, some_unprintable; cbn [forallb existsb]
  | intros Hreq; rewrite some_unprintable; cbn [forallb existsb];
    repeat match goal with
           | |- context [truthy (default JUndefined (assoc ?k ?fields))] =>
               rewrite (Hreq k)
                 by (repeat first [apply list_elem_of_here | apply list_elem_of_further])
           end ];
  unfold MCPTools.arg, js_parseInt, ToString, ulift, uret, ubind,
    RezoomexApiClient.invoke, js_get;
  by_value; simpl;
  repeat match goal with
         | |- context [api_call ?w ?b ?o ?a] => destruct (api_call w b o a)
         | |- context [MCPTools.overview_field ?a ?f ?d] =>
             destruct (MCPTools.overview_field a f d)
         end;
  simpl; intuition congruence.

(** X13. [executeToolWithProgress] against the catalogue.  It has no
    branch for two catalogue tools, [authenticate] and
    [get_project_by_name]: for them it throws "not implemented" without
    an upstream call, whatever the parameters.  For every other catalogue
    tool, given a parameter object, it makes no upstream call exactly
    when one of the fields the catalogue marks as required is falsy
    (missing, empty, zero, [null]), or one of the fields it renders in a
    progress message or hands to [parseInt] holds a value that cannot be
    converted to a string (an object with a member [toString], or an
    array holding one); when every required field is truthy and such a
    field cannot be converted, what it throws is a [TypeError]. *)
Theorem executeToolWithProgress_against_the_catalogue w parseInt
    (client : RezoomexApiClient.t) (toolName : string) tool (fields : list (string * jsval)) :
  MCPTools.getTool toolName = Some tool →
  (toolName = "authenticate" ∨ toolName = "get_project_by_name" →
   ∀ params, executeToolWithProgress w parseInt client toolName params
             = ([], Throw (Error ("Tool " +:+ toolName +:+ " not implemented"))))
  ∧ (toolName ≠ "authenticate" → toolName ≠ "get_project_by_name" →
     (fst (executeToolWithProgress w parseInt client toolName (JObj fields)) = []
      ↔ (∃ f, f ∈ MCPTools.required (MCPTools.inputSchema tool)
              ∧ truthy (default JUndefined (assoc f fields)) = false)
        ∨ (∃ f, f ∈ converted toolName
                ∧ unprintable (default JUndefined (assoc f fields)) = true))
     ∧ ((∀ f, f ∈ MCPTools.required (MCPTools.inputSchema tool) →
              truthy (default JUndefined (assoc f fields)) = true) →
        (∃ f, f ∈ converted toolName
              ∧ unprintable (default JUndefined (assoc f fields)) = true) →
        executeToolWithProgress w parseInt client toolName (JObj fields)
        = ([], Throw TypeError))).
Proof.
  intros Htool. split.
  - intros [-> | ->] params; unfold executeToolWithProgress; string_tests; reflexivity.
  - intros Hauth Hbyname.
    assert (MCPTools.hasTools toolName = true) as Hhas
      by (unfold MCPTools.hasTools, MCPTools.getTool in *; by rewrite Htool).
    apply hasTools_names in Hhas. simpl in Hhas.
    repeat (destruct Hhas as [<-|Hhas]; [first [ done | by_tool Htool ]|]).
    done.
Qed.

Lemma executeToolWithProgress_against_the_catalogue_witness :
  let c := RezoomexApiClient.new "token-alice" in
  let fields := [("project_name", JObj [("toString", JStr "Talentally Yours")])] in
  MCPTools.getTool "find_project_by_name"
  = Some (MCPTools.mk "find_project_by_name" [("project_name", MCPTools.str)] ["project_name"])
  ∧ "find_project_by_name" ≠ "authenticate"
  ∧ "find_project_by_name" ≠ "get_project_by_name"
  ∧ (∀ f, f ∈ ["project_name"] → truthy (default JUndefined (assoc f fields)) = true)
  ∧ (∃ f, f ∈ converted "find_project_by_name"
          ∧ unprintable (default JUndefined (assoc f fields)) = true)
  ∧ executeToolWithProgress Stub.both_live (fun v => v) c "find_project_by_name" (JObj fields)
    = ([], Throw TypeError).
Proof.
  intros c fields.
  assert (MCPTools.getTool "find_project_by_name"
          = Some (MCPTools.mk "find_project_by_name" [("project_name", MCPTools.str)]
                    ["project_name"])) as H1 by reflexivity.
  assert ("find_project_by_name" ≠ "authenticate") as H2 by discriminate.
  assert ("find_project_by_name" ≠ "get_project_by_name") as H3 by discriminate.
  assert (∀ f, f ∈ ["project_name"] → truthy (default JUndefined (assoc f fields)) = true)
    as H4 by (by intros f ->%list_elem_of_singleton).
  assert (∃ f, f ∈ converted "find_project_by_name"
               ∧ unprintable (default JUndefined (assoc f fields)) = true) as H5
    by (exists "project_name"; split; [apply list_elem_of_here|reflexivity]).
  split; [exact H1|]. split; [exact H2|]. split; [exact H3|]. split; [exact H4|].
  split; [exact H5|].
  exact (proj2 (proj2 (executeToolWithProgress_against_the_catalogue Stub.both_live
                         (fun v => v) c "find_project_by_name" _ fields H1) H2 H3) H4 H5).
Defined.

Lemma ulift_all_via {A} bearer (c : completion A) : all_via bearer (fst (ulift c)).
Proof. constructor. Qed.

Lemma demand_all_via bearer params keys message :
  all_via bearer (fst (demand params keys message)).
Proof.
  unfold demand. destruct (any_missing params keys) as [[|]|e]; constructor.
Qed.

Lemma executeToolWithProgress_all_via w parseInt client toolName params :
  all_via (RezoomexApiClient.bearerToken client)
    (fst (executeToolWithProgress w parseInt client toolName params)).
Proof.
  unfold executeToolWithProgress.
  repeat (match goal with
          | |- context [String.eqb toolName ?l] => destruct (String.eqb toolName l)
          end;
          [solve [repeat first [ apply invoke_all_via
                               | apply arg_all_via
                               | apply demand_all_via
                               | apply overview_field_all_via
                               | apply ulift_all_via
                               | apply ubind_all_via; [|intros ?]
                               | match goal with
                                 | |- context [truthy ?v] => destruct (truthy v)
                                 end ]]|]).
  constructor.
Qed.

Lemma validateSession_keeps_the_credential w c :
  RezoomexApiClient.bearerToken (snd (RezoomexApiClient.validateSession w c))
  = RezoomexApiClient.bearerToken c.
Proof.
  unfold RezoomexApiClient.validateSession.
  destruct (me_api w _) as [[status data]|e]; [|done].
  by destruct (status =? 200).
Qed.

(** X14. [POST /mcp/execute/:toolName] invokes a data operation of an API
    handle only for a registered session whose credential the upstream
    has just accepted, and every operation it invokes carries that
    session's credential.  (The request that validates the credential is
    sent for every registered session, accepted or not; it is not a data
    operation of the handle.) *)
Theorem post_mcp_execute_calls_as_the_session w parseInt now (toolName : string)
    (sessionId : option string) (params : jsval) am (c : call) :
  c ∈ rest_calls (post_mcp_execute w parseInt now toolName sessionId params am) →
  ∃ sid client,
    sessionId = Some sid
    ∧ AuthManager.clients am !! sid = Some client
    ∧ fst (RezoomexApiClient.validateSession w client) = true
    ∧ via c = RezoomexApiClient.bearerToken client.
Proof.
  unfold post_mcp_execute.
  destruct (negb (MCPTools.hasTools toolName)); [by intros ?%elem_of_nil|].
  destruct sessionId as [sid|]; [|by intros ?%elem_of_nil].
  unfold AuthManager.getClient.
  destruct (String.eqb sid EmptyString); [by intros ?%elem_of_nil|].
  destruct (AuthManager.clients am !! sid) as [client|] eqn:Hc; [|by intros ?%elem_of_nil].
  pose proof (validateSession_keeps_the_credential w client) as Hkeep.
  destruct (RezoomexApiClient.validateSession w client) as [[|] client'] eqn:Hv;
    [|by intros ?%elem_of_nil].
  simpl in Hkeep. cbv beta iota.
  pose proof (executeToolWithProgress_all_via w parseInt client' toolName params) as Hvia.
  unfold all_via in Hvia. rewrite Forall_forall in Hvia. rewrite Hkeep in Hvia.
  intros Hin. exists sid, client.
  split; [done|]. split; [done|]. split; [by rewrite Hv|].
  apply Hvia.
  by destruct (executeToolWithProgress w parseInt client' toolName params) as [tr [result|e]].
Qed.

Lemma post_mcp_execute_calls_as_the_session_witness :
  let c := {| via := "token-alice"; operation := "getUserInfo"; inputs := [] |} in
  let am := snd (AuthManager.authenticateWithToken Stub.both_live 0 "token-alice" "s1"
                   (AuthManager.new None None)) in
  c ∈ rest_calls (post_mcp_execute Stub.both_live (fun v => v) 5 "get_user_info" (Some "s1")
                    (JObj []) am)
  ∧ ∃ sid client,
      Some "s1" = Some sid
      ∧ AuthManager.clients am !! sid = Some client
      ∧ fst (RezoomexApiClient.validateSession Stub.both_live client) = true
      ∧ via c = RezoomexApiClient.bearerToken client.
Proof.
  intros c am.
  assert (c ∈ rest_calls (post_mcp_execute Stub.both_live (fun v => v) 5 "get_user_info"
                            (Some "s1") (JObj []) am)) as Hin
    by (vm_compute; apply list_elem_of_here).
  split; [exact Hin|].
  exact (post_mcp_execute_calls_as_the_session Stub.both_live (fun v => v) 5 "get_user_info"
           (Some "s1") (JObj []) am c Hin).
Defined.

(** X15. Revocation is noticed on use.  When the upstream no longer
    accepts the credential of a registered session, a request to
    [POST /mcp/execute/:toolName] for a known tool is answered 401
    [SESSION_EXPIRED] without any tool operation, the session is removed
    and the other sessions are left alone; whatever is asked on that
    session afterwards is answered 401 [AUTH_REQUIRED]. *)
Theorem post_mcp_execute_drops_a_revoked_session w parseInt now (toolName sid : string)
    (params : jsval) am client :
  MCPTools.hasTools toolName = true →
  sid ≠ EmptyString →
  AuthManager.clients am !! sid = Some client →
  validation_fails w (RezoomexApiClient.bearerToken client) →
  let r := post_mcp_execute w parseInt now toolName (Some sid) params am in
  rest_status r = 401
  ∧ js_get_opt (reply r) "error" = JStr "SESSION_EXPIRED"
  ∧ rest_calls r = []
  ∧ AuthManager.clients (registry r) = delete sid (AuthManager.clients am)
  ∧ AuthManager.sessions (registry r) = delete sid (AuthManager.sessions am)
  ∧ ∀ w' parseInt' now' toolName' params',
      MCPTools.hasTools toolName' = true →
      let r' := post_mcp_execute w' parseInt' now' toolName' (Some sid) params' (registry r) in
      rest_status r' = 401
      ∧ js_get_opt (reply r') "error" = JStr "AUTH_REQUIRED"
      ∧ rest_calls r' = []
      ∧ registry r' = registry r.
Proof.
  intros Hknown Hsid Hclient Hfail r.
  assert (r = rest_error 401 "SESSION_EXPIRED" "Session expired. Please re-authenticate."
                (AuthManager.clearSession sid
                   (AuthManager.set_clients
                      (alter (fun _ => snd (RezoomexApiClient.validateSession w client)) sid)
                      (AuthManager.set_sessions <[sid := {| AuthManager.createdAt := now |}]>
                         am)))) as ->.
  { subst r. unfold post_mcp_execute. rewrite Hknown. simpl negb. cbv iota.
    rewrite (getClient_registered now sid am client Hsid Hclient).
    pose proof (validateSession_false w client Hfail) as Hv.
    destruct (RezoomexApiClient.validateSession w client) as [isValid client'].
    simpl in Hv. subst isValid. reflexivity. }
  assert (AuthManager.clients
            (AuthManager.clearSession sid
               (AuthManager.set_clients
                  (alter (fun _ => snd (RezoomexApiClient.validateSession w client)) sid)
                  (AuthManager.set_sessions <[sid := {| AuthManager.createdAt := now |}]> am)))
          = delete sid (AuthManager.clients am)) as Hclients.
  { destruct am. simpl. apply map_eq. intros k.
    destruct (decide (k = sid)) as [->|Hne].
    - by rewrite !lookup_delete_eq.
    - by rewrite !lookup_delete_ne, lookup_alter_ne. }
  repeat split; try done.
  - destruct am. simpl. apply map_eq. intros k.
    destruct (decide (k = sid)) as [->|Hne].
    + by rewrite !lookup_delete_eq.
    + by rewrite !lookup_delete_ne, lookup_insert_ne.
  - unfold post_mcp_execute. rewrite H. simpl negb. cbv iota.
    rewrite getClient_unregistered; [done|].
    unfold rest_error, registry. rewrite Hclients. apply lookup_delete_eq.
  - unfold post_mcp_execute. rewrite H. simpl negb. cbv iota.
    rewrite getClient_unregistered; [done|].
    unfold rest_error, registry. rewrite Hclients. apply lookup_delete_eq.
  - unfold post_mcp_execute. rewrite H. simpl negb. cbv iota.
    rewrite getClient_unregistered; [done|].
    unfold rest_error, registry. rewrite Hclients. apply lookup_delete_eq.
  - unfold post_mcp_execute. rewrite H. simpl negb. cbv iota.
    rewrite getClient_unregistered; [done|].
    unfold rest_error, registry. rewrite Hclients. apply lookup_delete_eq.
Qed.

Lemma post_mcp_execute_drops_a_revoked_session_witness :
  let client := {| RezoomexApiClient.bearerToken := "token-alice";
                   RezoomexApiClient.authenticated := true;
                   RezoomexApiClient.userInfo := JNull |} in
  let am := AuthManager.set_sessions <["s1" := {| AuthManager.createdAt := 0 |}]>
              (AuthManager.set_clients <["s1" := client]> (AuthManager.new None None)) in
  MCPTools.hasTools "get_user_info" = true
  ∧ "s1" ≠ EmptyString
  ∧ AuthManager.clients am !! "s1" = Some client
  ∧ validation_fails Stub.alice_revoked "token-alice"
  ∧ rest_status (post_mcp_execute Stub.alice_revoked (fun v => v) 5 "get_user_info"
                   (Some "s1") (JObj []) am) = 401.
Proof.
  intros client am.
  assert (MCPTools.hasTools "get_user_info" = true) as H1 by reflexivity.
  assert ("s1" ≠ EmptyString) as H2 by discriminate.
  assert (AuthManager.clients am !! "s1" = Some client) as H3 by apply lookup_insert_eq.
  assert (validation_fails Stub.alice_revoked (RezoomexApiClient.bearerToken client)) as H4
    by exact I.
  split; [exact H1|]. split; [exact H2|]. split; [exact H3|]. split; [exact H4|].
  exact (proj1 (post_mcp_execute_drops_a_revoked_session Stub.alice_revoked (fun v => v) 5
                  "get_user_info" "s1" (JObj []) am client H1 H2 H3 H4)).
Defined.

End rest_execution.

(** ** The JSON-RPC endpoint [POST /mcp] *)

Section json_rpc_endpoint.

Import Server.

Implicit Types (w : world) (now : Z) (am : AuthManager.t).

(** X16. [POST /mcp] never registers or removes a client, and it calls
    the upstream service only on behalf of the session named in the
    [X-Session-ID] header: every call carries the credential registered
    under that identifier, and a request without the header, or with an
    identifier that is not registered, makes no call at all. *)
Theorem post_mcp_acts_for_the_named_session w now (req : request) am :
  let r := post_mcp w now req am in
  AuthManager.clients (authManager r) = AuthManager.clients am
  ∧ ∀ c, c ∈ calls r →
      ∃ sid client,
        x_session_id req = Some sid
        ∧ AuthManager.clients am !! sid = Some client
        ∧ via c = RezoomexApiClient.bearerToken client.
Proof.
  unfold post_mcp.
  destruct (String.eqb _ "initialize"); [by split; [|intros c ?%elem_of_nil]|].
  destruct (String.eqb _ "tools/list"); [by split; [|intros c ?%elem_of_nil]|].
  destruct (String.eqb _ "tools/call"); [|by split; [|intros c ?%elem_of_nil]].
  destruct (x_session_id req) as [sid|]; [|by split; [|intros c ?%elem_of_nil]].
  destruct (String.eqb_spec sid EmptyString) as [|Hsid];
    [by split; [|intros c ?%elem_of_nil]|].
  destruct (AuthManager.clients am !! sid) as [client|] eqn:Hclient.
  - rewrite (getClient_registered now sid am client Hsid Hclient).
    destruct (JsonRpc.params (body req)) as [p|];
      [|by split; [by destruct am|intros c ?%elem_of_nil]].
    pose proof (callTool_all_via w client (JsonRpc.name p) (JsonRpc.arguments p)) as Hvia.
    unfold all_via in Hvia. rewrite Forall_forall in Hvia.
    destruct (MCPTools.callTool w _ _ (Some client)) as [tr [result|e]]; simpl in *.
    + split; [by destruct am|]. intros c Hin. exists sid, client. eauto.
    + split; [by destruct am|]. intros c Hin. exists sid, client. eauto.
  - rewrite (getClient_unregistered now sid am Hclient).
    by split; [|intros c ?%elem_of_nil].
Qed.

End json_rpc_endpoint.

(** ** The session endpoints *)

Section session_endpoints.

Import Server.

Implicit Types (w : world) (now : Z) (am : AuthManager.t).

(** X17. The session endpoints compose.  When [POST /auth/token]
    answers 200, its body names the fresh identifier and the registry
    holds a handle for it that carries the posted credential.  On the
    registry as the login left it, [GET /auth/session/:sessionId] answers
    200 for that identifier whatever the clock shows; the hourly sweep is
    what ends the session: after a sweep that runs within the session
    timeout of the login the lookup still answers 200, and after a sweep
    that runs later than that it answers 404.  After
    [DELETE /auth/session] with that identifier in the header the lookup
    answers 404.  When [POST /auth/token] answers anything else, the
    registry is as it was. *)
Theorem session_endpoints_round_trip w now (uuid loginUrl : string) (bearerToken : jsval) am :
  uuid ≠ EmptyString →
  let r := post_auth_token w now uuid loginUrl bearerToken am in
  (rest_status r = 200 →
   js_get_opt (reply r) "sessionId" = JStr uuid
   ∧ (∃ client, AuthManager.clients (registry r) !! uuid = Some client
                ∧ RezoomexApiClient.bearerToken client = js_to_string w bearerToken)
   ∧ (∀ later, rest_status (get_auth_session later uuid (registry r)) = 200)
   ∧ (∀ sweep later,
        rest_status (get_auth_session later uuid
                       (AuthManager.cleanupExpiredSessions sweep (registry r)))
        = if sweep - now >? AuthManager.sessionTimeout am then 404 else 200)
   ∧ (∀ later cookie,
        rest_status (get_auth_session later uuid
                       (registry (delete_auth_session (Some uuid) cookie (registry r))))
        = 404))
  ∧ (rest_status r ≠ 200 → registry r = am).
Proof.
  intros Huuid r. subst r. unfold post_auth_token.
  destruct (negb (truthy bearerToken)); [by split|].
  cbv zeta.
  destruct (unprintable bearerToken); [by split|].
  pose proof (authenticateWithToken_handle w now (js_to_string w bearerToken) uuid am) as Hhandle.
  unfold AuthManager.authenticateWithToken in *.
  destruct (RezoomexApiClient.validateSession w _) as [[|] client]; [|by split].
  split; [|done]. intros _.
  specialize (Hhandle client _ eq_refl).
  split; [done|]. split.
  { exists client. split; [|done]. destruct am. apply lookup_insert_eq. }
  split; [|split].
  - intros later. unfold get_auth_session.
    rewrite (getClient_registered later uuid _ client Huuid); [done|].
    destruct am. apply lookup_insert_eq.
  - intros sweep later. unfold get_auth_session. cbn [registry].
    set (am1 := AuthManager.set_sessions _ _).
    destruct (cleanupExpiredSessions_lookup sweep am1 uuid) as [_ Hclients].
    assert (AuthManager.sessions am1 !! uuid = Some {| AuthManager.createdAt := now |})
      as Hsession by (destruct am; apply lookup_insert_eq).
    assert (AuthManager.clients am1 !! uuid = Some client) as Hclient
      by (destruct am; apply lookup_insert_eq).
    assert (AuthManager.sessionTimeout am1 = AuthManager.sessionTimeout am) as Htimeout
      by by destruct am.
    rewrite Hsession, Hclient, Htimeout in Hclients.
    unfold AuthManager.expired in Hclients. cbn [AuthManager.createdAt] in Hclients.
    destruct (sweep - now >? AuthManager.sessionTimeout am).
    + by rewrite getClient_unregistered.
    + by rewrite (getClient_registered later uuid _ client Huuid).
  - intros later cookie. unfold get_auth_session, delete_auth_session.
    rewrite getClient_unregistered; [done|].
    assert (String.eqb uuid EmptyString = false) as Hne by by apply String.eqb_neq.
    cbv beta iota zeta. cbn [registry]. rewrite Hne. cbv beta iota. rewrite Hne.
    destruct am. apply lookup_delete_eq.
Qed.

Lemma session_endpoints_round_trip_witness :
  let r := post_auth_token Stub.both_live 0 "s1" "https://workspace.rezoomex.com/login"
             (JStr "token-alice") (AuthManager.new None None) in
  "s1" ≠ EmptyString
  ∧ rest_status r = 200
  ∧ rest_status (get_auth_session 86400002 "s1"
                   (AuthManager.cleanupExpiredSessions 86400000 (registry r))) = 200
  ∧ rest_status (get_auth_session 86400002 "s1"
                   (AuthManager.cleanupExpiredSessions 86400001 (registry r))) = 404.
Proof.
  intros r.
  assert ("s1" ≠ EmptyString) as H1 by discriminate.
  assert (rest_status r = 200) as H2 by reflexivity.
  pose proof (proj1 (proj2 (proj2 (proj2 (proj1 (session_endpoints_round_trip Stub.both_live 0
                  "s1" "https://workspace.rezoomex.com/login" (JStr "token-alice")
                  (AuthManager.new None None) H1) H2))))) as Hsweep.
  split; [exact H1|]. split; [exact H2|]. split.
  - exact (Hsweep 86400000 86400002).
  - exact (Hsweep 86400001 86400002).
Defined.

End session_endpoints.

(** ** The session store of the OAuth2 servers *)

Section session_store.

Import OAuthServer.

Implicit Types (cfg : config) (w : world) (now : Z) (st : OAuthServer.t) (s : server).

Lemma extends_refl due st : extends due st st.
Proof.
  exists []. split; [by rewrite app_nil_r|]. split; [by intros tm ?%elem_of_nil|].
  intros k Hk. by left.
Qed.

Lemma extends_set now delay k v st :
  extends (now + timer_delay delay) st (setTimeout_delete now delay k (store_set k v st)).
Proof.
  exists [(now + timer_delay delay, k)]. split; [done|]. split.
  - by intros tm ->%list_elem_of_singleton.
  - intros k' Hk'. simpl in Hk'. destruct (decide (k' = k)) as [->|Hne].
    + right. by apply list_elem_of_singleton.
    + left. by rewrite lookup_insert_ne in Hk'.
Qed.

Lemma extends_delete due k st st' :
  extends due st st' → extends due st (store_delete k st').
Proof.
  intros (extra & Htimers & Hdue & Hkeys). exists extra.
  split; [done|]. split; [done|].
  intros k' Hk'. apply Hkeys. simpl in Hk'.
  destruct (decide (k' = k)) as [->|Hne].
  - rewrite lookup_delete_eq in Hk'. by destruct Hk'.
  - by rewrite lookup_delete_ne in Hk'.
Qed.

Lemma extends_authManager due am st st' :
  extends due st st' → extends due st (set_authManager am st').
Proof. intros (extra & ? & ? & ?). by exists extra. Qed.

Create HintDb store.
#[local] Hint Resolve extends_refl extends_set extends_delete extends_authManager : store.

Lemma post_authenticate_extends cfg w now rnd req st :
  extends (now + timer_delay (SESSION_TIMEOUT cfg)) st (snd (post_authenticate cfg w now rnd req st)).
Proof.
  unfold post_authenticate.
  repeat case_match; simpl; auto with store.
Qed.

Lemma post_token_extends cfg w now rnd req st :
  extends (now + timer_delay (SESSION_TIMEOUT cfg)) st (snd (post_token cfg w now rnd req st)).
Proof.
  unfold post_token.
  repeat case_match; simpl; auto with store.
Qed.

Lemma post_token_verified_extends cfg w now rnd req st :
  extends (now + timer_delay (SESSION_TIMEOUT cfg)) st (snd (post_token_verified cfg w now rnd req st)).
Proof.
  unfold post_token_verified.
  repeat case_match; simpl; auto with store.
Qed.

Lemma post_v1_sse_extends cfg w now rnd req st :
  extends (now + timer_delay (SESSION_TIMEOUT cfg)) st (snd (post_v1_sse cfg w now rnd req st)).
Proof.
  unfold post_v1_sse, reply.
  repeat case_match; simpl; auto with store.
Qed.

Lemma route_extends s cfg w now rnd req st :
  extends (now + timer_delay (SESSION_TIMEOUT cfg)) st (snd (route (table_of s) cfg w now rnd req st)).
Proof.
  unfold route.
  destruct (find (matches req) (table_of s)) as [[[v p] h]|] eqn:Hfind;
    [|apply extends_refl].
  apply find_some in Hfind as [Hin _].
  destruct s; simpl in Hin;
    repeat (destruct Hin as [[= <- <- <-]|Hin];
            [first [ apply post_authenticate_extends | apply post_token_extends
                   | apply post_token_verified_extends | apply post_v1_sse_extends ]|]);
    done.
Qed.

Lemma step_extends s cfg now ev st :
  extends (now + timer_delay (SESSION_TIMEOUT cfg)) (run_timers now st) (step s cfg now ev st).
Proof.
  unfold step. destruct ev as [w rnd req|rnd n u|rnd state uri cid|w state code session].
  - apply route_extends.
  - unfold post_register. repeat case_match; simpl; auto with store.
  - destruct s; [apply extends_refl|].
    unfold get_authorize. repeat case_match; simpl; auto with store.
  - unfold get_callback. repeat case_match; simpl; auto with store.
Qed.

(** A due callback deletes; the entries that remain are those whose
    callbacks are all pending. *)
Lemma run_timers_covered now st : covered st → covered (run_timers now st).
Proof.
  intros Hcov k Hk.
  destruct (sessionStore st !! k) as [v|] eqn:Hstored.
  - destruct (Hcov k) as [due Hin]; [by rewrite Hstored|].
    exists due. simpl. apply list_elem_of_filter. split; [|done].
    destruct (is_due now (due, k)) eqn:Hdue; [|done].
    exfalso. unfold is_due in Hdue. simpl in Hdue.
    rewrite (run_timers_deletes now st k due) in Hk; [by destruct Hk|done|lia].
  - rewrite run_timers_absent in Hk by done. by destruct Hk.
Qed.

Lemma run_timers_due_by bound now st : due_by bound st → due_by bound (run_timers now st).
Proof.
  intros Hdue tm Hin. apply run_timers_pending in Hin as [Hin _]. by apply Hdue.
Qed.

Lemma extends_covered due st st' : extends due st st' → covered st → covered st'.
Proof.
  intros (extra & Htimers & _ & Hkeys) Hcov k Hk. rewrite Htimers.
  destruct (Hkeys k Hk) as [Hold|Hnew].
  - destruct (Hcov k Hold) as [d Hin]. exists d. apply elem_of_app. by left.
  - exists due. apply elem_of_app. by right.
Qed.

Lemma extends_due_by bound due st st' :
  due ≤ bound → extends due st st' → due_by bound st → due_by bound st'.
Proof.
  intros Hle (extra & Htimers & Hdue & _) Hby tm Hin. rewrite Htimers in Hin.
  apply elem_of_app in Hin as [Hin|Hin]; [by apply Hby|].
  rewrite (Hdue tm Hin). done.
Qed.

Lemma run_covered s cfg bound (events : list (Z * event)) st :
  (∀ t ev, (t, ev) ∈ events → t + timer_delay (SESSION_TIMEOUT cfg) ≤ bound) →
  covered st → due_by bound st →
  covered (run s cfg events st) ∧ due_by bound (run s cfg events st).
Proof.
  revert st. induction events as [|[t ev] events IH]; intros st Hbound Hcov Hby; [done|].
  simpl. apply IH.
  - intros t' ev' Hin. apply (Hbound t' ev'). by right.
  - eapply extends_covered; [apply step_extends|]. by apply run_timers_covered.
  - eapply extends_due_by; [|apply step_extends|by apply run_timers_due_by].
    apply (Hbound t ev). by left.
Qed.

(** The delay that Node gives a timer is observable.  With a timeout of
    3000000000 ms, above the largest delay, the code that a login mints
    is deleted one millisecond later; with a negative timeout it is
    still on record at the time of the login and deleted one millisecond
    later. *)
Lemma clamped_timeouts :
  let login := submit "alice@example.com" "correct horse" "xyz" "http://127.0.0.1:33418" in
  let minted (ms : Z) :=
    snd (serve {| BASE_URI := "http://localhost:3000";
                  SESSION_TIMEOUT := SESSION_TIMEOUT_of (Some ms);
                  auth0 := None |}
           Stub.both_live 1000 "0.k3j5h7x9q2a" login (init (AuthManager.new None None))) in
  sessionStore (minted 3000000000) !! auth_code_key "k3j5h7x9q2a" = Some (JStr "token-alice")
  ∧ sessionStore (run_timers 1001 (minted 3000000000)) !! auth_code_key "k3j5h7x9q2a" = None
  ∧ sessionStore (run_timers 1000 (minted (-5))) !! auth_code_key "k3j5h7x9q2a"
    = Some (JStr "token-alice")
  ∧ sessionStore (run_timers 1001 (minted (-5))) !! auth_code_key "k3j5h7x9q2a" = None.
Proof. vm_compute. repeat split. Qed.

(** X18. The session store does not leak.  Whatever requests either
    OAuth2 server has served since it started, once the delay of its
    deletion timers has passed since the last of them every entry of the
    session store (authorization codes, authorization sessions, callback
    mappings) has been deleted.  The delay is the configured timeout
    when that lies between 1 and 2147483647 ms, and 1 ms otherwise. *)
Theorem session_store_drains s cfg (events : list (Z * event)) am (now : Z) :
  (∀ t ev, (t, ev) ∈ events → t + timer_delay (SESSION_TIMEOUT cfg) ≤ now) →
  sessionStore (run_timers now (run s cfg events (init am))) = ∅.
Proof.
  intros Hbound.
  destruct (run_covered s cfg now events (init am) Hbound) as [Hcov Hby].
  { intros k Hk. simpl in Hk. rewrite lookup_empty in Hk. by destruct Hk. }
  { by intros tm ?%elem_of_nil. }
  apply map_empty. intros k.
  destruct (sessionStore (run s cfg events (init am)) !! k) as [v|] eqn:Hstored.
  - destruct (Hcov k) as [due Hin]; [by rewrite Hstored|].
    apply (run_timers_deletes now _ k due); [done|]. by apply (Hby (due, k)).
  - by apply run_timers_absent.
Qed.

Lemma session_store_drains_witness :
  let events :=
    [(0, Register "0.m4n8b2v6c1z" (JStr "ide") (JArr [JStr "http://127.0.0.1:33418"]));
     (1000, Post Stub.both_live "0.k3j5h7x9q2a"
              (submit "alice@example.com" "correct horse" "xyz"
                 "http://127.0.0.1:33418"))] in
  (∀ t ev, (t, ev) ∈ events → t + timer_delay (SESSION_TIMEOUT Stub.cfg) ≤ 301000)
  ∧ sessionStore (run RezoomexOnly Stub.cfg events (init (AuthManager.new None None)))
      !! auth_code_key "k3j5h7x9q2a" = Some (JStr "token-alice")
  ∧ sessionStore (run_timers 301000
                    (run RezoomexOnly Stub.cfg events (init (AuthManager.new None None))))
    = ∅.
Proof.
  intros events.
  assert (∀ t ev, (t, ev) ∈ events → t + timer_delay (SESSION_TIMEOUT Stub.cfg) ≤ 301000) as H1.
  { intros t ev Hin. subst events.
    apply elem_of_cons in Hin as [[= -> _]|Hin]; [by vm_compute|].
    apply list_elem_of_singleton in Hin as [= -> _]. by vm_compute. }
  split; [exact H1|]. split; [vm_compute; reflexivity|].
  exact (session_store_drains RezoomexOnly Stub.cfg events (AuthManager.new None None)
           301000 H1).
Defined.

Lemma callback_session_key_differs sessionId c :
  auth_session_key sessionId ≠ callback_session_key c.
Proof.
  unfold auth_session_key, callback_session_key. intros Heq.
  injection Heq. intros. discriminate.
Qed.

Lemma no_auth_session_set_code code v st :
  no_auth_session st → no_auth_session (store_set (auth_code_key code) v st).
Proof.
  intros Hno sid. simpl. rewrite lookup_insert_ne; [apply Hno|].
  intros Heq. by apply (auth_session_key_differs sid code).
Qed.

Lemma no_auth_session_set_callback c v st :
  no_auth_session st → no_auth_session (store_set (callback_session_key c) v st).
Proof.
  intros Hno sid. simpl. rewrite lookup_insert_ne; [apply Hno|].
  intros Heq. by apply (callback_session_key_differs sid c).
Qed.

Lemma no_auth_session_delete k st :
  no_auth_session st → no_auth_session (store_delete k st).
Proof.
  intros Hno sid. simpl. destruct (decide (k = auth_session_key sid)) as [->|Hne].
  - apply lookup_delete_eq.
  - rewrite lookup_delete_ne by done. apply Hno.
Qed.

Lemma no_auth_session_timer now delay k st :
  no_auth_session st → no_auth_session (setTimeout_delete now delay k st).
Proof. intros Hno sid. apply Hno. Qed.

Lemma no_auth_session_authManager am st :
  no_auth_session st → no_auth_session (set_authManager am st).
Proof. intros Hno sid. apply Hno. Qed.

Lemma no_auth_session_run_timers now st :
  no_auth_session st → no_auth_session (run_timers now st).
Proof. intros Hno sid. by apply run_timers_absent. Qed.

#[local] Hint Resolve no_auth_session_set_code no_auth_session_set_callback
  no_auth_session_delete no_auth_session_timer no_auth_session_authManager : store.

Lemma hybrid_route_no_auth_session cfg w now rnd req st :
  no_auth_session st → no_auth_session (snd (route routes cfg w now rnd req st)).
Proof.
  intros Hno. unfold route.
  destruct (find (matches req) routes) as [[[v p] h]|] eqn:Hfind; [|done].
  apply find_some in Hfind as [Hin _]. simpl in Hin.
  destruct Hin as [[= <- <- <-]|[[= <- <- <-]|[[= <- <- <-]|[[= <- <- <-]|[]]]]].
  - unfold post_authenticate. repeat case_match; simpl; auto 6 with store.
  - unfold post_token. repeat case_match; simpl; auto with store.
  - unfold post_token_verified. repeat case_match; simpl; auto with store.
  - unfold post_v1_sse, reply. repeat case_match; simpl; auto with store.
Qed.

Lemma hybrid_run_no_auth_session cfg (events : list (Z * event)) st :
  no_auth_session st → no_auth_session (run Hybrid cfg events st).
Proof.
  revert st. induction events as [|[t ev] events IH]; intros st Hno; [done|].
  simpl. apply IH. unfold step.
  apply (no_auth_session_run_timers t) in Hno.
  destruct ev as [w rnd req|rnd n u|rnd state uri cid|w state code session].
  - by apply hybrid_route_no_auth_session.
  - unfold post_register. repeat case_match; simpl; auto with store.
  - done.
  - unfold get_callback. repeat case_match; simpl; auto with store.
Qed.

(** X19. On the server with Auth0 the hand-over to the IDE never
    happens.  [GET /authorize] is answered by its first registration, so
    no authorization session is ever recorded, whatever requests are
    served; a login submitted with [state=mcp-auth] is therefore never
    answered with a redirect, and [GET /callback] never redirects to a
    client. *)
Theorem hybrid_server_never_bridges cfg (events : list (Z * event)) am :
  let st := run Hybrid cfg events (init am) in
  no_auth_session st
  ∧ (∀ w now rnd email password redirect_uri url,
       snd (fst (serve cfg w now rnd (submit email password "mcp-auth" redirect_uri) st))
       ≠ Redirect url)
  ∧ (∀ w now state code session url,
       fst (get_callback w state code session (run_timers now st)) ≠ ToClient url).
Proof.
  intros st.
  assert (no_auth_session st) as Hno.
  { apply hybrid_run_no_auth_session. intros sid. apply lookup_empty. }
  split; [exact Hno|]. split.
  - intros w now rnd email password redirect_uri url.
    unfold serve. rewrite app_submit. unfold post_authenticate.
    change (field (submit email password "mcp-auth" redirect_uri) "state")
      with (Some "mcp-auth").
    change (same (Some "mcp-auth") "mcp-auth") with true. cbv iota.
    destruct (authenticateWithCredentials w _ _) as [tokenData|e]; [|done].
    destruct (url_session_param w _ _) as [sessionId|e]; [|done].
    destruct (absent sessionId); [done|].
    cbn [sessionStore setTimeout_delete store_set].
    rewrite lookup_insert_ne by (intros Heq; by apply (auth_session_key_differs
                                   (text_of sessionId) (fresh_code rnd))).
    by rewrite (no_auth_session_run_timers now st Hno (text_of sessionId)).
  - intros w now state code session url. unfold get_callback.
    destruct (absent session); [done|].
    by rewrite (no_auth_session_run_timers now st Hno (text_of session)).
Qed.

End session_store.

Lemma hybrid_server_never_bridges_witness :
  let events :=
    [(0, OAuthServer.Authorize "0.m4n8b2v6c1z" (Some "xyz") (Some "http://127.0.0.1:33418")
           (Some "ide"))] in
  let st := OAuthServer.run OAuthServer.Hybrid Stub.cfg events
              (OAuthServer.init (AuthManager.new None None)) in
  snd (fst (OAuthServer.serve Stub.cfg (reading_session Stub.both_live) 1000 "0.k3j5h7x9q2a"
              (submit "alice@example.com" "correct horse" "mcp-auth"
                 "http://localhost:3000/callback?session=m4n8b2v6c1z") st))
  = OAuthServer.Html (OAuthServer.LoginSuccess "k3j5h7x9q2a")
  ∧ snd (fst (OAuthServer.serve Stub.cfg (reading_session Stub.both_live) 1000 "0.k3j5h7x9q2a"
                (submit "alice@example.com" "correct horse" "mcp-auth"
                   "http://localhost:3000/callback?session=m4n8b2v6c1z") st))
    ≠ OAuthServer.Redirect "http://127.0.0.1:33418?code=k3j5h7x9q2a&state=xyz".
Proof.
  intros events st. split; [vm_compute; reflexivity|].
  exact (proj1 (proj2 (hybrid_server_never_bridges Stub.cfg events (AuthManager.new None None)))
           (reading_session Stub.both_live) 1000 "0.k3j5h7x9q2a"
           "alice@example.com" "correct horse"
           "http://localhost:3000/callback?session=m4n8b2v6c1z"
           "http://127.0.0.1:33418?code=k3j5h7x9q2a&state=xyz").
Defined.

(** ** Authorization sessions on the server without Auth0 *)

Section authorization_sessions.

Import OAuthServer.

Implicit Types (cfg : config) (w : world) (st : OAuthServer.t).



End authorization_sessions.


(** ** The token endpoint and the JSON-RPC endpoint of the OAuth2 servers *)

Section bearer_endpoints.

Import OAuthServer.

Implicit Types (cfg : config) (w : world) (now : Z) (st : OAuthServer.t).

Lemma prefix_split (p h : string) :
  String.prefix p h = true → ∃ rest, h = p +:+ rest.
Proof.
  revert h. induction p as [|a p IH]; intros h Hprefix; [by exists h|].
  destruct h as [|b h]; [done|]. simpl in Hprefix.
  destruct (Ascii.ascii_dec a b) as [<-|]; [|done].
  destruct (IH h Hprefix) as [rest ->]. by exists rest.
Qed.

(** X21. [POST /v1/sse] acts for the bearer of the request and for no one
    else.  It never touches the session store; every upstream call it
    makes carries the credential of the request's own [Authorization]
    header, a credential the upstream has just accepted; and a request
    without a [Bearer] header is answered 401 with code -32001 and
    changes nothing. *)
Theorem post_v1_sse_acts_for_the_bearer cfg w now rnd (req : request) st :
  let out := post_v1_sse cfg w now rnd req st in
  sessionStore (snd out) = sessionStore st
  ∧ timers (snd out) = timers st
  ∧ (∀ c, c ∈ fst (fst out) →
       ∃ token, authorization req = Some ("Bearer " +:+ token)
                ∧ via c = token
                ∧ fst (RezoomexApiClient.validateSession w (RezoomexApiClient.new token)) = true)
  ∧ ((∀ token, authorization req ≠ Some ("Bearer " +:+ token)) →
     out = ([], JsonRpcReply 401
                  (JsonRpc.Failure (js_or (JsonRpc.id (as_rpc (body req))) JNull) (-32001)
                     "Authentication required"), st)).
Proof.
  unfold post_v1_sse.
  destruct (authorization req) as [authHeader|];
    [|by repeat split; [intros c ?%elem_of_nil]].
  destruct (String.prefix "Bearer " authHeader) eqn:Hprefix;
    [|by repeat split; [intros c ?%elem_of_nil]].
  apply prefix_split in Hprefix as [token ->].
  destruct (bearer_of_header token) as [_ ->].
  destruct (verifyAccessToken w token) as [userId|e];
    [|by repeat split; [intros c ?%elem_of_nil|intros Hno; by destruct (Hno token)]].
  destruct (String.eqb _ "initialize");
    [by repeat split; [intros c ?%elem_of_nil|intros Hno; by destruct (Hno token)]|].
  destruct (String.eqb _ "tools/list");
    [by repeat split; [intros c ?%elem_of_nil|intros Hno; by destruct (Hno token)]|].
  destruct (String.eqb _ "tools/call");
    [|by repeat split; [intros c ?%elem_of_nil|intros Hno; by destruct (Hno token)]].
  unfold AuthManager.authenticateWithToken.
  pose proof (validateSession_keeps_the_credential w (RezoomexApiClient.new token)) as Hkeep.
  destruct (RezoomexApiClient.validateSession w (RezoomexApiClient.new token))
    as [[|] client] eqn:Hv;
    [|by repeat split; [intros c ?%elem_of_nil|intros Hno; by destruct (Hno token)]].
  simpl in Hkeep.
  destruct (same _ "authenticate");
    [by repeat split; [intros c ?%elem_of_nil|intros Hno; by destruct (Hno token)]|].
  destruct (option_map JsonRpc.name (JsonRpc.params (as_rpc (body req)))) as [toolName|];
    [|by repeat split; [intros c ?%elem_of_nil|intros Hno; by destruct (Hno token)]].
  pose proof (callTool_all_via w client toolName
                (js_or (default JUndefined
                          (option_map JsonRpc.arguments (JsonRpc.params (as_rpc (body req)))))
                       (JObj []))) as Hvia.
  unfold all_via in Hvia. rewrite Forall_forall, Hkeep in Hvia.
  destruct (MCPTools.callTool w toolName _ (Some client)) as [tr [result|e]]; simpl in *;
    (split; [done|]); (split; [done|]);
    (split; [intros c Hin; exists token; split; [done|]; split; [by apply Hvia|by rewrite Hv]
            |intros Hno; by destruct (Hno token)]).
Qed.



End bearer_endpoints.

Lemma post_v1_sse_acts_for_the_bearer_witness :
  let req := v1_sse "token-alice" (tools_call (JInt 7) "get_user_info" (JObj [])) in
  let st := OAuthServer.init (AuthManager.new None None) in
  let c := {| via := "token-alice"; operation := "getUserInfo"; inputs := [] |} in
  c ∈ fst (fst (OAuthServer.post_v1_sse Stub.cfg Stub.both_live 1000 "0.k3j5h7x9q2a" req st))
  ∧ ∃ token, OAuthServer.authorization req = Some ("Bearer " +:+ token)
             ∧ via c = token
             ∧ fst (RezoomexApiClient.validateSession Stub.both_live
                      (RezoomexApiClient.new token)) = true.
Proof.
  intros req st c.
  assert (c ∈ fst (fst (OAuthServer.post_v1_sse Stub.cfg Stub.both_live 1000 "0.k3j5h7x9q2a"
                          req st))) as Hin
    by (vm_compute; apply list_elem_of_here).
  split; [exact Hin|].
  exact (proj1 (proj2 (proj2 (post_v1_sse_acts_for_the_bearer Stub.cfg Stub.both_live 1000
                                "0.k3j5h7x9q2a" req st))) c Hin).
Defined.


Lemma post_mcp_acts_for_the_named_session_witness :
  let am := snd (AuthManager.authenticateWithToken Stub.both_live 0 "token-alice" "s1"
                   (AuthManager.new None None)) in
  let req := {| Server.x_session_id := Some "s1";
                Server.body := tools_call (JInt 2) "get_user_info" (JObj []) |} in
  let c := {| via := "token-alice"; operation := "getUserInfo"; inputs := [] |} in
  c ∈ Server.calls (Server.post_mcp Stub.both_live 5 req am)
  ∧ ∃ sid client,
      Server.x_session_id req = Some sid
      ∧ AuthManager.clients am !! sid = Some client
      ∧ via c = RezoomexApiClient.bearerToken client.
Proof.
  intros am req c.
  assert (c ∈ Server.calls (Server.post_mcp Stub.both_live 5 req am)) as Hin
    by (vm_compute; apply list_elem_of_here).
  split; [exact Hin|].
  exact (proj2 (post_mcp_acts_for_the_named_session Stub.both_live 5 req am) c Hin).
Defined.

(** ** The in-band endpoint [POST /sse] *)

Section in_band_endpoint.

Import Server.

Implicit Types (w : world) (now : Z) (am : AuthManager.t).

(** X23. [POST /sse] runs a tool with the credential registered under
    the session it names, the [X-Session-ID] header or ["mcp-default"]
    when the header is missing or empty, and the only registration it
    ever changes is the one under ["mcp-default"]: a session registered
    under another identifier is never replaced or removed by this
    endpoint. *)
Theorem post_sse_acts_for_the_named_session w now (req : request) am :
  let r := post_sse w now req am in
  (∀ sid, sid ≠ "mcp-default" →
          AuthManager.clients (authManager r) !! sid = AuthManager.clients am !! sid)
  ∧ ∀ c, c ∈ calls r →
      ∃ client, AuthManager.clients am !! sessionId_of req = Some client
                ∧ via c = RezoomexApiClient.bearerToken client.
Proof.
  unfold post_sse.
  destruct (String.eqb _ "initialize"); [by split; [|intros c ?%elem_of_nil]|].
  destruct (String.eqb _ "tools/list"); [by split; [|intros c ?%elem_of_nil]|].
  destruct (String.eqb _ "tools/call"); [|by split; [|intros c ?%elem_of_nil]].
  destruct (JsonRpc.params (body req)) as [p|]; [|by split; [|intros c ?%elem_of_nil]].
  destruct (String.eqb (JsonRpc.name p) "authenticate").
  - destruct (authenticate_tool w now (JsonRpc.id (body req)) (JsonRpc.arguments p) am)
      as [[r am']|e] eqn:Hlogin; [|by split; [|intros c ?%elem_of_nil]].
    apply sse_login_stores_under_mcp_default in Hlogin as (client & _ & Hothers).
    by split; [|intros c ?%elem_of_nil].
  - assert (sessionId_of req ≠ EmptyString) as Hsid.
    { unfold sessionId_of. destruct (x_session_id req) as [h|]; [|done].
      by destruct (String.eqb_spec h EmptyString). }
    destruct (AuthManager.clients am !! sessionId_of req) as [client|] eqn:Hclient.
    + rewrite (getClient_registered now _ am client Hsid Hclient).
      pose proof (callTool_all_via w client (JsonRpc.name p) (JsonRpc.arguments p)) as Hvia.
      unfold all_via in Hvia. rewrite Forall_forall in Hvia.
      destruct (MCPTools.callTool w _ _ (Some client)) as [tr [result|e]]; simpl in *;
        (split; [by destruct am|]); intros c Hin; exists client; eauto.
    + rewrite (getClient_unregistered now _ am Hclient).
      by split; [|intros c ?%elem_of_nil].
Qed.

End in_band_endpoint.

Lemma post_sse_acts_for_the_named_session_witness :
  let am := snd (AuthManager.authenticateWithToken Stub.both_live 0 "token-alice" "s1"
                   (AuthManager.new None None)) in
  let req := {| Server.x_session_id := Some "s1";
                Server.body := tools_call (JInt 2) "get_user_info" (JObj []) |} in
  let c := {| via := "token-alice"; operation := "getUserInfo"; inputs := [] |} in
  c ∈ Server.calls (Server.post_sse Stub.both_live 5 req am)
  ∧ ∃ client,
      AuthManager.clients am !! Server.sessionId_of req = Some client
      ∧ via c = RezoomexApiClient.bearerToken client.
Proof.
  intros am req c.
  assert (c ∈ Server.calls (Server.post_sse Stub.both_live 5 req am)) as Hin
    by (vm_compute; apply list_elem_of_here).
  split; [exact Hin|].
  exact (proj2 (post_sse_acts_for_the_named_session Stub.both_live 5 req am) c Hin).
Defined.

(** ** Logging in over REST *)

Section rest_login.

Import Server.

Implicit Types (w : world) (now : Z) (am : AuthManager.t).

Lemma post_mcp_all_via w now (sid : string) (request : JsonRpc.request) am client :
  AuthManager.clients am !! sid = Some client →
  all_via (RezoomexApiClient.bearerToken client)
    (calls (post_mcp w now {| x_session_id := Some sid; body := request |} am)).
Proof.
  intros Hclient. unfold post_mcp. cbn [x_session_id body].
  destruct (String.eqb _ "initialize"); [constructor|].
  destruct (String.eqb _ "tools/list"); [constructor|].
  destruct (String.eqb _ "tools/call"); [|constructor].
  destruct (String.eqb_spec sid EmptyString) as [|Hsid]; [constructor|].
  rewrite (getClient_registered now sid am client Hsid Hclient).
  destruct (JsonRpc.params request) as [p|]; [|constructor].
  pose proof (callTool_all_via w client (JsonRpc.name p) (JsonRpc.arguments p)) as Hvia.
  by destruct (MCPTools.callTool w _ _ (Some client)) as [tr [result|e]].
Qed.

(** X24. A login with credentials over REST opens a session of its own.
    When [POST /auth/login] answers 200, its body names the fresh
    identifier, every session registered before is left as it was, and a
    [tools/call] sent to [POST /mcp] under the new identifier reaches the
    upstream only with the access token the login obtained.  When it
    answers anything else the registry is unchanged. *)
Theorem rest_login_opens_its_own_session w now (uuid : string) (email password : jsval) am :
  uuid ≠ EmptyString →
  let r := post_auth_login w now uuid email password am in
  (rest_status r = 200 →
   js_get_opt (reply r) "sessionId" = JStr uuid
   ∧ (∀ sid, sid ≠ uuid →
             AuthManager.clients (registry r) !! sid = AuthManager.clients am !! sid)
   ∧ ∀ w' now' request,
       all_via (js_to_string w (js_get_opt (reply r) "accessToken"))
         (calls (post_mcp w' now' {| x_session_id := Some uuid; body := request |}
                   (registry r))))
  ∧ (rest_status r ≠ 200 → registry r = am).
Proof.
  intros Huuid r. subst r. unfold post_auth_login.
  destruct (negb (truthy email) || negb (truthy password)); [by split|].
  unfold login_with_credentials.
  destruct (login_request w email password) as [data|e]; simpl; [|by split].
  destruct (js_get data "access_token") as [access_token|e]; simpl; [|by split].
  destruct (truthy access_token); [|by split].
  destruct (AuthManager.authenticateWithToken w now (js_to_string w access_token) uuid am)
    as [[client|] am1] eqn:Hauth; [|by split].
  split; [|done]. intros _. cbn [reply registry].
  pose proof (authenticateWithToken_handle _ _ _ _ _ _ _ Hauth) as Hhandle.
  unfold AuthManager.authenticateWithToken in Hauth.
  destruct (RezoomexApiClient.validateSession w _) as [[|] client']; [|done].
  injection Hauth as -> <-.
  split; [done|]. split.
  - intros sid Hsid. destruct am. simpl. by rewrite lookup_insert_ne.
  - intros w' now' request.
    change (js_get_opt _ "accessToken") with access_token.
    rewrite <- Hhandle. apply post_mcp_all_via.
    destruct am. apply lookup_insert_eq.
Qed.

Lemma rest_login_opens_its_own_session_witness :
  let r := post_auth_login Stub.both_live 0 "3f2c-uuid"
             (JStr "alice@example.com") (JStr "correct horse") (AuthManager.new None None) in
  "3f2c-uuid" ≠ EmptyString
  ∧ rest_status r = 200
  ∧ all_via "token-alice"
      (calls (post_mcp Stub.both_live 5
                {| x_session_id := Some "3f2c-uuid";
                   body := tools_call (JInt 2) "get_user_info" (JObj []) |}
                (registry r))).
Proof.
  intros r.
  assert ("3f2c-uuid" ≠ EmptyString) as H1 by discriminate.
  assert (rest_status r = 200) as H2 by reflexivity.
  split; [exact H1|]. split; [exact H2|].
  exact (proj2 (proj2 (proj1 (rest_login_opens_its_own_session Stub.both_live 0 "3f2c-uuid"
                                (JStr "alice@example.com") (JStr "correct horse")
                                (AuthManager.new None None) H1) H2))
           Stub.both_live 5 (tools_call (JInt 2) "get_user_info" (JObj []))).
Defined.

(** X25. The pickup of a temporary token never completes.
    [POST /auth/pickup-token] never answers 200, never calls the upstream
    and never registers a session.  In particular, for a token that
    [GET /auth/callback] has just stored, a pickup within the timeout
    finds the token, answers 401 and leaves it in place.
    [GET /auth/status] never reports a session as authenticated. *)
Theorem temp_token_pickup_never_completes now (tempTokenId : jsval) am :
  let r := post_auth_pickup_token now tempTokenId am in
  rest_status r ≠ 200
  ∧ rest_calls r = []
  ∧ AuthManager.sessions (registry r) = AuthManager.sessions am
  ∧ AuthManager.clients (registry r) = AuthManager.clients am
  ∧ (∀ rnd later (access_token : string),
       access_token ≠ EmptyString →
       later - now ≤ AuthManager.tempTokenTimeout am →
       ∃ id, get_auth_callback now rnd (Some access_token) None am
             = (TokenStored id, AuthManager.storeTempToken now id access_token am)
             ∧ let r' := post_auth_pickup_token later (JStr id)
                           (AuthManager.storeTempToken now id access_token am) in
               rest_status r' = 401
               ∧ fst (AuthManager.getTempToken later id (registry r')) = Some access_token)
  ∧ ∀ header cookie,
      js_get_opt (reply (get_auth_status header cookie am)) "authenticated" ≠ JBool true.
Proof.
  intros r. subst r. unfold post_auth_pickup_token.
  split; [|split; [|split; [|split; [|split]]]].
  - destruct (negb (truthy tempTokenId)); [done|].
    destruct (match tempTokenId with
              | JStr tokenId => AuthManager.getTempToken now tokenId am
              | _ => (None, am)
              end) as [bearerToken am1].
    by destruct (given bearerToken).
  - destruct (negb (truthy tempTokenId)); [done|].
    destruct (match tempTokenId with
              | JStr tokenId => AuthManager.getTempToken now tokenId am
              | _ => (None, am)
              end) as [bearerToken am1].
    by destruct (given bearerToken).
  - destruct (negb (truthy tempTokenId)); [done|].
    destruct tempTokenId as [| |b|n|tokenId|items|fields]; try done.
    unfold AuthManager.getTempToken.
    destruct (AuthManager.tempTokens am !! tokenId) as [tokenData|]; [|done].
    destruct (now - AuthManager.tokenCreatedAt tokenData >? AuthManager.tempTokenTimeout am);
      by destruct (given _).
  - destruct (negb (truthy tempTokenId)); [done|].
    destruct tempTokenId as [| |b|n|tokenId|items|fields]; try done.
    unfold AuthManager.getTempToken.
    destruct (AuthManager.tempTokens am !! tokenId) as [tokenData|]; [|done].
    destruct (now - AuthManager.tokenCreatedAt tokenData >? AuthManager.tempTokenTimeout am);
      by destruct (given _).
  - intros rnd later access_token Htoken Hwindow.
    exists ("temp_" +:+ pretty now +:+ "_" +:+ String.substring 2 9 rnd).
    assert (given (Some access_token) = true) as Hgiven
      by (simpl; by destruct (String.eqb_spec access_token EmptyString)).
    split; [unfold get_auth_callback; by rewrite Hgiven|].
    set (id := "temp_" +:+ pretty now +:+ "_" +:+ String.substring 2 9 rnd).
    assert (AuthManager.getTempToken later id (AuthManager.storeTempToken now id access_token am)
            = (Some access_token, AuthManager.storeTempToken now id access_token am)) as Hget.
    { unfold AuthManager.getTempToken, AuthManager.storeTempToken.
      destruct am. simpl in *. rewrite lookup_insert_eq. simpl.
      destruct (Z.gtb_spec (later - now) tempTokenTimeout); [lia|done]. }
    change (truthy (JStr id)) with true. cbn [negb]. cbv iota.
    rewrite Hget, Hgiven. cbn [rest_status registry]. by rewrite Hget.
  - intros header cookie. unfold get_auth_status. by destruct (given _).
Qed.

Lemma temp_token_pickup_never_completes_witness :
  let am := AuthManager.new None None in
  "token-alice" ≠ EmptyString
  ∧ 60000 - 0 ≤ AuthManager.tempTokenTimeout am
  ∧ get_auth_callback 0 "0.k3j5h7x9q2a" (Some "token-alice") None am
    = (TokenStored "temp_0_k3j5h7x9q",
       AuthManager.storeTempToken 0 "temp_0_k3j5h7x9q" "token-alice" am)
  ∧ rest_status (post_auth_pickup_token 60000 (JStr "temp_0_k3j5h7x9q")
                   (AuthManager.storeTempToken 0 "temp_0_k3j5h7x9q" "token-alice" am))
    = 401.
Proof.
  intros am.
  assert ("token-alice" ≠ EmptyString) as H1 by discriminate.
  assert (60000 - 0 ≤ AuthManager.tempTokenTimeout am) as H2 by (by vm_compute).
  split; [exact H1|]. split; [exact H2|].
  destruct (proj1 (proj2 (proj2 (proj2 (proj2
              (temp_token_pickup_never_completes 0 JNull am)))))
              "0.k3j5h7x9q2a" 60000 "token-alice" H1 H2) as (id & Hstored & Hpickup).
  assert (id = "temp_0_k3j5h7x9q") as ->.
  { apply (f_equal fst) in Hstored. vm_compute in Hstored. by injection Hstored. }
  split; [exact Hstored|exact (proj1 Hpickup)].
Defined.

End rest_login.

(** ** The stdio server *)

Section stdio_server.

Import StdioServer.

Implicit Types (w : world) (now : Z) (st : StdioServer.t).

Lemma handleAuthLogin_outcome w now uuid request st :
  fst (fst (handleAuthLogin w now uuid request st)) = []
  ∧ (snd (handleAuthLogin w now uuid request st) = st
     ∨ ∃ client user,
         snd (fst (handleAuthLogin w now uuid request st))
         = JsonRpc.Result (js_index request "id") (JsonRpc.Authenticated uuid user)
         ∧ sessions (snd (handleAuthLogin w now uuid request st))
           = Some {| sessionId := uuid; client := client |}
         ∧ AuthManager.clients (authManager (snd (handleAuthLogin w now uuid request st)))
             !! uuid = Some client).
Proof.
  unfold handleAuthLogin, login.
  destruct (js_get (js_index request "params") "arguments") as [arguments|e]; simpl;
    [|by split; [|left]].
  destruct (js_get arguments "email") as [email|e]; simpl; [|by split; [|left]].
  destruct (js_get arguments "password") as [password|e]; simpl; [|by split; [|left]].
  destruct (negb (truthy email) || negb (truthy password)); [by split; [|left]|].
  destruct (login_request w email password) as [data|e]; simpl; [|by split; [|left]].
  destruct (js_get data "access_token") as [access_token|e]; simpl; [|by split; [|left]].
  destruct (truthy access_token); [|by split; [|left]].
  unfold AuthManager.authenticateWithToken.
  destruct (RezoomexApiClient.validateSession w _) as [[|] c]; [|by split; [|left]].
  split; [done|]. right. eexists c, _. split; [reflexivity|]. split; [reflexivity|].
  simpl. destruct (authManager st). apply lookup_insert_eq.
Qed.

Lemma dispatch_calls w c (name args : jsval) (x : call) :
  x ∈ fst (dispatch w c name args) →
  ∃ a b, x = {| via := RezoomexApiClient.bearerToken c;
                operation := "getUserStories"; inputs := [a; b] |}.
Proof.
  unfold dispatch.
  destruct (equals name "list_user_stories").
  - destruct (js_get args "project_id") as [a|e]; simpl; [|by intros ?%elem_of_nil].
    destruct (js_get args "persona_id") as [b|e]; simpl; [|by intros ?%elem_of_nil].
    intros Hin. apply list_elem_of_singleton in Hin as ->. eauto.
  - destruct (equals name "get_user_story");
      [|destruct (ToString w name); by intros ?%elem_of_nil].
    destruct (js_get args "project_id") as [a|e]; simpl; [|by intros ?%elem_of_nil].
    destruct (js_get args "parent_id") as [b|e]; simpl; [|by intros ?%elem_of_nil].
    destruct (js_get args "story_id") as [d|e]; simpl; by intros ?%elem_of_nil.
Qed.

(** X26. The stdio server serves one login at a time.  Every data
    operation it invokes on an API handle while handling a message is
    [getUserStories], invoked on the handle of the current login; so
    before any login no message invokes a data operation.  (A login
    itself posts the credentials to the identity endpoint and has the
    credential it receives validated; those two requests are not data
    operations of a handle.)  And a message either leaves the state as it
    was or is a login that succeeded, which is answered with the fresh
    session identifier and becomes the current login. *)
Theorem stdio_server_acts_for_the_current_login w now (uuid : string)
    (message : option jsval) st :
  let out := handleMessage w now uuid message st in
  (∀ c, c ∈ fst (fst out) →
     ∃ session a b,
       sessions st = Some session
       ∧ c = {| via := RezoomexApiClient.bearerToken (client session);
                operation := "getUserStories"; inputs := [a; b] |})
  ∧ (snd out = st
     ∨ ∃ client rid user,
         snd (fst out) = JsonRpc.Result rid (JsonRpc.Authenticated uuid user)
         ∧ sessions (snd out) = Some {| sessionId := uuid; client := client |}
         ∧ AuthManager.clients (authManager (snd out)) !! uuid = Some client).
Proof.
  unfold handleMessage.
  destruct message as [request|]; [|by split; [intros c ?%elem_of_nil|left]].
  destruct (js_get request "method") as [method|e];
    [|by split; [intros c ?%elem_of_nil|left]].
  assert (∀ out : list call * JsonRpc.response * StdioServer.t,
            out = handleAuthLogin w now uuid request st →
            (∀ c, c ∈ fst (fst out) →
               ∃ session a b,
                 sessions st = Some session
                 ∧ c = {| via := RezoomexApiClient.bearerToken (client session);
                          operation := "getUserStories"; inputs := [a; b] |})
            ∧ (snd out = st
               ∨ ∃ client rid user,
                   snd (fst out) = JsonRpc.Result rid (JsonRpc.Authenticated uuid user)
                   ∧ sessions (snd out) = Some {| sessionId := uuid; client := client |}
                   ∧ AuthManager.clients (authManager (snd out)) !! uuid = Some client))
    as Hlogin.
  { intros out ->.
    destruct (handleAuthLogin_outcome w now uuid request st) as [Hnone Hstate].
    split; [rewrite Hnone; by intros c ?%elem_of_nil|].
    destruct Hstate as [?|(c & user & ? & ? & ?)]; [by left|right; eauto 10]. }
  destruct (equals method "initialize"); [by split; [intros c ?%elem_of_nil|left]|].
  destruct (equals method "tools/list"); [by split; [intros c ?%elem_of_nil|left]|].
  destruct (equals method "tools/call").
  - unfold handleToolCall.
    destruct (js_get (js_index request "params") "name") as [name|e];
      [|by split; [intros c ?%elem_of_nil|left]].
    destruct (js_get (js_index request "params") "arguments") as [args|e];
      [|by split; [intros c ?%elem_of_nil|left]].
    destruct (equals name "authenticate"); [by apply Hlogin|].
    destruct (sessions st) as [session|] eqn:Hsession;
      [|by split; [intros c ?%elem_of_nil|left]].
    pose proof (dispatch_calls w (client session) name args) as Hcalls.
    destruct (dispatch w (client session) name args) as [tr [result|e]]; simpl in *;
      (split; [|by left]); intros c Hin;
      destruct (Hcalls c Hin) as (a & b & ->); eauto.
  - destruct (equals method "auth/login"); [by apply Hlogin|].
    destruct (ToString w method); by split; [intros c ?%elem_of_nil|left].
Qed.

Lemma stdio_server_acts_for_the_current_login_witness :
  let login :=
    JObj [("jsonrpc", JStr "2.0"); ("id", JInt 1); ("method", JStr "auth/login");
          ("params", JObj [("arguments",
                            JObj [("email", JStr "alice@example.com");
                                  ("password", JStr "correct horse")])])] in
  let list_stories :=
    JObj [("jsonrpc", JStr "2.0"); ("id", JInt 2); ("method", JStr "tools/call");
          ("params", JObj [("name", JStr "list_user_stories");
                           ("arguments", JObj [("project_id", JStr "39SQ");
                                               ("persona_id", JStr "39SQ-P-001")])])] in
  let st := snd (handleMessage Stub.both_live 0 "3f2c-uuid" (Some login)
                   (StdioServer.new (AuthManager.new None None))) in
  let c := {| via := "token-alice"; operation := "getUserStories";
              inputs := [JStr "39SQ"; JStr "39SQ-P-001"] |} in
  c ∈ fst (fst (handleMessage Stub.both_live 5 "9a1b-uuid" (Some list_stories) st))
  ∧ ∃ session a b,
      sessions st = Some session
      ∧ c = {| via := RezoomexApiClient.bearerToken (client session);
               operation := "getUserStories"; inputs := [a; b] |}.
Proof.
  intros login list_stories st c.
  assert (c ∈ fst (fst (handleMessage Stub.both_live 5 "9a1b-uuid" (Some list_stories) st)))
    as Hin by (vm_compute; apply list_elem_of_here).
  split; [exact Hin|].
  exact (proj1 (stdio_server_acts_for_the_current_login Stub.both_live 5 "9a1b-uuid"
                  (Some list_stories) st) c Hin).
Defined.

(** X27. The stdio server advertises a tool it cannot serve.
    [tools/list] names [get_user_story], yet a [tools/call] of that tool
    is always answered with error -32603 and never reaches the upstream,
    whatever the arguments and whether or not a login is current. *)
Theorem stdio_get_user_story_is_never_served w now (uuid : string) (request : jsval) st :
  js_get request "method" = Return (JStr "tools/call") →
  js_get (js_index request "params") "name" = Return (JStr "get_user_story") →
  "get_user_story" ∈ map MCPTools.name tools
  ∧ fst (fst (handleMessage w now uuid (Some request) st)) = []
  ∧ (∃ message, snd (fst (handleMessage w now uuid (Some request) st))
                = JsonRpc.Failure (js_index request "id") (-32603) message)
  ∧ snd (handleMessage w now uuid (Some request) st) = st.
Proof.
  intros Hmethod Hname.
  split; [simpl; do 2 right; by left|].
  unfold handleMessage. rewrite Hmethod.
  change (equals (JStr "tools/call") "initialize") with false.
  change (equals (JStr "tools/call") "tools/list") with false.
  change (equals (JStr "tools/call") "tools/call") with true. cbv iota.
  unfold handleToolCall. rewrite Hname.
  assert (∃ args, js_get (js_index request "params") "arguments" = Return args) as [args ->].
  { destruct (js_index request "params"); try done; by eexists. }
  change (equals (JStr "get_user_story") "authenticate") with false. cbv iota.
  destruct (sessions st) as [session|]; [|split; [done|]; split; [by eexists|done]].
  unfold dispatch.
  change (equals (JStr "get_user_story") "list_user_stories") with false.
  change (equals (JStr "get_user_story") "get_user_story") with true. cbv iota.
  destruct (js_get args "project_id") as [a|e]; simpl;
    [|split; [done|]; split; [by eexists|done]].
  destruct (js_get args "parent_id") as [b|e]; simpl;
    [|split; [done|]; split; [by eexists|done]].
  destruct (js_get args "story_id") as [d|e]; simpl;
    split; try done; split; try done; by eexists.
Qed.

Lemma stdio_get_user_story_is_never_served_witness :
  let request :=
    JObj [("jsonrpc", JStr "2.0"); ("id", JInt 3); ("method", JStr "tools/call");
          ("params", JObj [("name", JStr "get_user_story");
                           ("arguments", JObj [("project_id", JStr "39SQ");
                                               ("parent_id", JStr "39SQ-P-001");
                                               ("story_id", JStr "39SQ-US-001")])])] in
  js_get request "method" = Return (JStr "tools/call")
  ∧ js_get (js_index request "params") "name" = Return (JStr "get_user_story")
  ∧ fst (fst (handleMessage Stub.both_live 5 "9a1b-uuid" (Some request)
                (StdioServer.new (AuthManager.new None None)))) = [].
Proof.
  intros request.
  assert (js_get request "method" = Return (JStr "tools/call")) as H1 by reflexivity.
  assert (js_get (js_index request "params") "name" = Return (JStr "get_user_story")) as H2
    by reflexivity.
  split; [exact H1|]. split; [exact H2|].
  exact (proj1 (proj2 (stdio_get_user_story_is_never_served Stub.both_live 5 "9a1b-uuid"
                         request (StdioServer.new (AuthManager.new None None)) H1 H2))).
Defined.

End stdio_server.

(** ** From login to tool call on the server without Auth0 *)

Section end_to_end.

Import OAuthServer.

Implicit Types (cfg : config) (w : world) (st : OAuthServer.t).


End end_to_end.

